(** * MarkdownGPT: the AI-processing pipeline of [script.js]

    A shallow embedding of the request / retry / fallback logic of
    [processWithAI], of the local fallback formatter [autoFormatLocal],
    of the content enrichment [enrichContent] and of the error log
    [logError], followed by the properties of the pipeline.

    JavaScript strings are sequences of UTF-16 code units; [length],
    [trim], [split], [includes] and the regular-expression replacements
    of the source are defined on code units, as the engine does. *)

From Stdlib Require Import List NArith ZArith Bool Lia String Ascii.
From Stdlib Require Import DecimalString.
Import ListNotations.

Set Implicit Arguments.

(* ================================================================== *)
(** ** JavaScript strings *)
(* ================================================================== *)

Module JS.

(** A string is the list of its UTF-16 code units. *)
Definition jsstring := list N.

(** An ASCII literal of the source. *)
Definition lit (s : string) : jsstring :=
  map N_of_ascii (list_ascii_of_string s).

Local Open Scope N_scope.

Definition LF : N := 10.      (* '\n' *)
Definition SPACE : N := 32.

Fixpoint eqb (a b : jsstring) : bool :=
  match a, b with
  | [], [] => true
  | x :: a', y :: b' => N.eqb x y && eqb a' b'
  | _, _ => false
  end.

(** [WhiteSpace] and [LineTerminator] of ECMAScript: what [trim] strips
    and what [\s] matches. *)
Definition isWhiteSpace (c : N) : bool :=
  ((9 <=? c) && (c <=? 13)) || (c =? 32) || (c =? 160) || (c =? 5760)
  || ((8192 <=? c) && (c <=? 8202)) || (c =? 8232) || (c =? 8233)
  || (c =? 8239) || (c =? 8287) || (c =? 12288) || (c =? 65279).

Definition lowerAscii (c : N) : N :=
  if (65 <=? c) && (c <=? 90) then c + 32 else c.

Local Close Scope N_scope.

Fixpoint dropWhile (p : N -> bool) (s : jsstring) : jsstring :=
  match s with
  | [] => []
  | c :: t => if p c then dropWhile p t else s
  end.

Fixpoint takeWhile (p : N -> bool) (s : jsstring) : jsstring :=
  match s with
  | [] => []
  | c :: t => if p c then c :: takeWhile p t else []
  end.

Definition trimStart (s : jsstring) : jsstring := dropWhile isWhiteSpace s.
Definition trimEnd (s : jsstring) : jsstring :=
  rev (dropWhile isWhiteSpace (rev s)).
Definition trim (s : jsstring) : jsstring := trimEnd (trimStart s).

(** Truthiness of a string: the empty string is the only falsy one. *)
Definition truthy (s : jsstring) : bool :=
  match s with [] => false | _ => true end.

Fixpoint startsWith (p s : jsstring) : bool :=
  match p, s with
  | [], _ => true
  | x :: p', y :: s' => N.eqb x y && startsWith p' s'
  | _ :: _, [] => false
  end.

Fixpoint includes (needle s : jsstring) : bool :=
  startsWith needle s
  || match s with
     | [] => false
     | _ :: t => includes needle t
     end.

(** [s.split(sep)] for a separator of one code unit: never empty. *)
Fixpoint split (sep : N) (s : jsstring) : list jsstring :=
  match s with
  | [] => [[]]
  | c :: t =>
      if N.eqb c sep then [] :: split sep t
      else match split sep t with
           | [] => [[c]]
           | l :: ls => (c :: l) :: ls
           end
  end.

Fixpoint join (sep : jsstring) (l : list jsstring) : jsstring :=
  match l with
  | [] => []
  | [x] => x
  | x :: rest => x ++ sep ++ join sep rest
  end.

(** Newline normalization of a text control: a carriage return, with
    the line feed that follows it if any, reads as one line feed. *)
Fixpoint normalizeNewlines (s : jsstring) : jsstring :=
  match s with
  | [] => []
  | c :: t =>
      if N.eqb c 13 then
        LF :: match t with
              | d :: t' => if N.eqb d LF then normalizeNewlines t' else normalizeNewlines t
              | [] => []
              end
      else c :: normalizeNewlines t
  end.

(** [s.substring(0, n)]. *)
Definition substring0 (n : nat) (s : jsstring) : jsstring := firstn n s.

(** [String(n)] for an integer. *)
Definition ofNat (n : nat) : jsstring :=
  lit (NilZero.string_of_uint (Nat.to_uint n)).
Definition ofZ (z : Z) : jsstring :=
  lit (NilZero.string_of_int (Z.to_int z)).

(** ASCII case folding, as [toLowerCase] acts on the Basic Latin block.
    Outside it the only code units whose lower case contains a Basic
    Latin letter are U+0130 (to i, U+0307) and U+212A (to k); the other
    non-ASCII mappings are not needed to search for an ASCII needle
    without i or k, which is the only use the source makes of it. *)
Definition toLowerCase (s : jsstring) : jsstring :=
  flat_map (fun c =>
              if N.eqb c 304 then [105; 775]
              else if N.eqb c 8490 then [107]
              else [lowerAscii c])%N s.

(** *** Regular-expression replacement

    A regular expression is given by its matcher: on the suffix of the
    subject that starts at the current index, the number of code units
    the match consumes (at least one for every expression of the
    source) and the text that replaces them. *)
Definition matcher := jsstring -> option (nat * jsstring).

(** [s.replace(/re/g, ...)]: [skip] counts the code units of the
    subject still covered by the last match. *)
Fixpoint replaceAllFrom (m : matcher) (s : jsstring) (skip : nat) : jsstring :=
  match s with
  | [] => []
  | c :: t =>
      match skip with
      | S n => replaceAllFrom m t n
      | O =>
          match m s with
          | Some (len, rep) => rep ++ replaceAllFrom m t (pred len)
          | None => c :: replaceAllFrom m t 0
          end
      end
  end.

Definition replaceAll (m : matcher) (s : jsstring) : jsstring :=
  replaceAllFrom m s 0.

(** [s.replace(/re/, ...)]: the leftmost match only. *)
Fixpoint replaceFirst (m : matcher) (s : jsstring) : jsstring :=
  match s with
  | [] => []
  | c :: t =>
      match m s with
      | Some (len, rep) => rep ++ skipn len s
      | None => c :: replaceFirst m t
      end
  end.

End JS.

Import JS.

(** ** The regular expressions of the source, as matchers *)

Module Re.

Local Open Scope N_scope.

Definition isHighSurrogate (c : N) : bool := (55296 <=? c) && (c <=? 56319).
Definition isLowSurrogate (c : N) : bool := (56320 <=? c) && (c <=? 57343).

(** The code point of a surrogate pair. *)
Definition codePoint (hi lo : N) : N :=
  65536 + (hi - 55296) * 1024 + (lo - 56320).

(** The character class of line 1341,
    [[\u{1F300}-\u{1F9FF}]|[\u{1F600}-\u{1F64F}]|[\u{1F680}-\u{1F6FF}]|[\u{2600}-\u{26FF}]|[\u{2700}-\u{27BF}]]. *)
Definition isIcon (cp : N) : bool :=
  ((127744 <=? cp) && (cp <=? 129535))
  || ((128512 <=? cp) && (cp <=? 128591))
  || ((128640 <=? cp) && (cp <=? 128767))
  || ((9728 <=? cp) && (cp <=? 9983))
  || ((9984 <=? cp) && (cp <=? 10175)).

(** With the [u] flag the subject is read by code points.  A low
    surrogate that follows a high one is never a match start, and read
    on its own it is outside every range of the class. *)
Definition icons : matcher := fun s =>
  match s with
  | hi :: lo :: _ =>
      if isHighSurrogate hi && isLowSurrogate lo
      then if isIcon (codePoint hi lo) then Some (2%nat, []) else None
      else if isIcon hi then Some (1%nat, []) else None
  | [c] => if isIcon c then Some (1%nat, []) else None
  | [] => None
  end.

(** [/—|–/]: U+2014 or U+2013. *)
Definition dashes : matcher := fun s =>
  match s with
  | c :: _ => if (c =? 8212) || (c =? 8211) then Some (1%nat, lit "-") else None
  | [] => None
  end.

(** [/\n{3,}/]: greedy, so the whole run of line feeds. *)
Definition newlines3 : matcher := fun s =>
  let run := takeWhile (N.eqb LF) s in
  if (3 <=? List.length run)%nat then Some (List.length run, [LF; LF]) else None.

Definition isSentenceEnd (c : N) : bool := (c =? 46) || (c =? 33) || (c =? 63).
Definition isUpperAZ (c : N) : bool := (65 <=? c) && (c <=? 90).
Definition isDigit (c : N) : bool := (48 <=? c) && (c <=? 57).

(** [/([.!?])\s*([A-Z])/] replaced by ['$1 $2'].  The capital letter is
    no white space, so giving back white space never helps the match. *)
Definition sentenceGap : matcher := fun s =>
  match s with
  | c :: t =>
      if isSentenceEnd c then
        match dropWhile isWhiteSpace t with
        | u :: _ =>
            if isUpperAZ u
            then Some (List.length (takeWhile isWhiteSpace t) + 2, [c; SPACE; u])%nat
            else None
        | [] => None
        end
      else None
  | [] => None
  end.

(** Index of the last line feed of a string. *)
Fixpoint lastLF (s : jsstring) (i : nat) (found : option nat) : option nat :=
  match s with
  | [] => found
  | c :: t => lastLF t (S i) (if c =? LF then Some i else found)
  end.

(** [/```\s*\n/] replaced by ['```javascript\n'].  [\s*] is greedy and a
    line feed is white space, so the match ends at the last line feed
    of the white-space run that follows the fence. *)
Definition bareFence : matcher := fun s =>
  if startsWith (lit "```") s then
    match lastLF (takeWhile isWhiteSpace (skipn 3 s)) 0 None with
    | Some j => Some (3 + j + 1, lit "```javascript" ++ [LF])%nat
    | None => None
    end
  else None.

(** [/step\s*\d*:?\s*/i] replaced by ['']; without the [u] flag the
    [i] flag folds only the Basic Latin letters onto s, t, e, p. *)
Definition stepLabel : matcher := fun s =>
  if startsWith (lit "step") (map lowerAscii (firstn 4 s)) then
    let r1 := skipn 4 s in
    let ws1 := takeWhile isWhiteSpace r1 in
    let r2 := dropWhile isWhiteSpace r1 in
    let ds := takeWhile isDigit r2 in
    let r3 := dropWhile isDigit r2 in
    let colon := match r3 with c :: _ => if c =? 58 then 1%nat else 0%nat | [] => 0%nat end in
    let r4 := skipn colon r3 in
    let ws2 := takeWhile isWhiteSpace r4 in
    Some (4 + List.length ws1 + List.length ds + colon + List.length ws2, [])%nat
  else None.

End Re.

(* ================================================================== *)
(** ** Configuration and application state *)
(* ================================================================== *)

(** The options of the [CONFIG] object (lines 2-10) that the pipeline
    reads.  [ENABLE_LOCAL_FALLBACK] is read at line 742 and is not a
    property of the literal: [None] is [undefined].  [ENABLE_JWT] is
    [false] in the literal and the only assignment to it (line 264)
    stores [false] again, so it is not an option here: the page is
    embedded as it is configured, without the JWT session service. *)
Record Config := {
  MAX_TEXT_LENGTH : nat;
  RETRY_ATTEMPTS : nat;
  TIMEOUT_MS : Z;
  ENABLE_LOCAL_FALLBACK : option bool
}.

Definition CONFIG : Config := {|
  MAX_TEXT_LENGTH := 1000;
  RETRY_ATTEMPTS := 3;
  TIMEOUT_MS := 30000;
  ENABLE_LOCAL_FALLBACK := None
|}.

(** An [Error] object: what the pipeline reads of it.  The stack text is
    engine specific; only its first line is kept. *)
Record JsError := {
  err_name : jsstring;
  err_message : jsstring;
  err_stack : jsstring
}.

(** [new Error(msg)]. *)
Definition newError (msg : jsstring) : JsError :=
  {| err_name := lit "Error"; err_message := msg; err_stack := lit "Error: " ++ msg |}.

Definition typeError (msg : jsstring) : JsError :=
  {| err_name := lit "TypeError"; err_message := msg;
     err_stack := lit "TypeError: " ++ msg |}.

(** The [DOMException] with which an aborted [fetch] rejects. *)
Definition abortError : JsError :=
  {| err_name := lit "AbortError";
     err_message := lit "signal is aborted without reason";
     err_stack := lit "AbortError: signal is aborted without reason" |}.

(** Values of the [context] objects passed to [logError]. *)
Inductive CtxValue :=
| CNum (z : Z)
| CStr (s : jsstring).

Definition Context := list (string * CtxValue).

(** The record [errorInfo] of [logError]; [timestamp] is the instant that
    [toISOString] renders. *)
Record ErrorInfo := {
  info_message : jsstring;
  info_error : option jsstring;
  info_context : Context;
  info_timestamp : Z;
  info_stack : option jsstring
}.

(** The [editorState] object (lines 13-22). *)
Record EditorState := {
  content : jsstring;
  currentFormat : option jsstring;
  sessionId : option jsstring;
  token : option jsstring;
  tokenExpiry : option Z;
  isProcessing : bool;
  lastError : option ErrorInfo;
  errors : list ErrorInfo
}.

Definition initialEditorState : EditorState := {|
  content := [];
  currentFormat := None;
  sessionId := None;
  token := None;
  tokenExpiry := None;
  isProcessing := false;
  lastError := None;
  errors := []
|}.

Inductive Severity := Info | Success | Warning | Error.

(** The body of a request to the AI worker (lines 612-618); no token is
    added at lines 621-623 since [ENABLE_JWT] is [false]. *)
Record Payload := {
  p_text : jsstring;
  p_prompt : jsstring;
  p_format : jsstring;
  p_sessionId : jsstring;
  p_timestamp : Z
}.

(** What the page does that can be observed from outside, in order. *)
Inductive Event :=
| Notified (message : jsstring) (type : Severity)   (* showNotification *)
| InputDispatched (value : jsstring)                (* the 'input' event: preview and stats refresh *)
| Requested (payload : Payload)                     (* fetch of AI_WORKER_URL/process *)
| Slept (ms : Z)                                    (* setTimeout(resolve, ms), awaited *)
| LocalFormatCalled (value : jsstring).             (* autoFormatLocal entered, reading editor.value *)

(** The page: [editorState], the editor widget, the two settings
    check boxes ([None] when the element is missing), the exception, if
    any, with which [document.querySelector] answers the selector
    [[data-format="..."]] of a format (a [SyntaxError] when the text is
    no selector), the clock read by [Date.now()], and what has happened
    so far. *)
Record World := {
  editorState : EditorState;
  editorValue : jsstring;
  enableIconsBox : option bool;
  enablePrefilledBox : option bool;
  selectorError : jsstring -> option JsError;
  now : Z;
  trace : list Event
}.

Definition withEditorState (f : EditorState -> EditorState) (w : World) : World :=
  {| editorState := f (editorState w);
     editorValue := editorValue w;
     enableIconsBox := enableIconsBox w;
     enablePrefilledBox := enablePrefilledBox w;
     selectorError := selectorError w;
     now := now w;
     trace := trace w |}.

(** [editor.value = v]: what is read back from the text area has its
    newlines normalized. *)
Definition setEditorValue (v : jsstring) (w : World) : World :=
  {| editorState := editorState w;
     editorValue := normalizeNewlines v;
     enableIconsBox := enableIconsBox w;
     enablePrefilledBox := enablePrefilledBox w;
     selectorError := selectorError w;
     now := now w;
     trace := trace w |}.

Definition setNow (t : Z) (w : World) : World :=
  {| editorState := editorState w;
     editorValue := editorValue w;
     enableIconsBox := enableIconsBox w;
     enablePrefilledBox := enablePrefilledBox w;
     selectorError := selectorError w;
     now := t;
     trace := trace w |}.

Definition emit (e : Event) (w : World) : World :=
  {| editorState := editorState w;
     editorValue := editorValue w;
     enableIconsBox := enableIconsBox w;
     enablePrefilledBox := enablePrefilledBox w;
     selectorError := selectorError w;
     now := now w;
     trace := trace w ++ [e] |}.

Definition setContent (c : jsstring) (s : EditorState) : EditorState :=
  {| content := c;
     currentFormat := currentFormat s;
     sessionId := sessionId s;
     token := token s;
     tokenExpiry := tokenExpiry s;
     isProcessing := isProcessing s;
     lastError := lastError s;
     errors := errors s |}.

Definition setIsProcessing (b : bool) (s : EditorState) : EditorState :=
  {| content := content s;
     currentFormat := currentFormat s;
     sessionId := sessionId s;
     token := token s;
     tokenExpiry := tokenExpiry s;
     isProcessing := b;
     lastError := lastError s;
     errors := errors s |}.

Definition setErrors (l : option ErrorInfo) (es : list ErrorInfo) (s : EditorState)
  : EditorState :=
  {| content := content s;
     currentFormat := currentFormat s;
     sessionId := sessionId s;
     token := token s;
     tokenExpiry := tokenExpiry s;
     isProcessing := isProcessing s;
     lastError := l;
     errors := es |}.

(** ** Error log (lines 75-93) *)

(** [a.slice(-n)]: the last [n] elements, all of them when there are fewer. *)
Definition sliceLast {A} (n : nat) (a : list A) : list A :=
  skipn (List.length a - n) a.

(** The record built at lines 76-82; [err] is [null] or an [Error]. *)
Definition errorInfo (message : jsstring) (err : option JsError) (context : Context)
           (w : World) : ErrorInfo :=
  {| info_message := message;
     info_error := option_map err_message err;
     info_context := context;
     info_timestamp := now w;
     info_stack := option_map err_stack err |}.

(** [logError(message, error, context)]; the write to the console is not
    part of the state. *)
Definition logError (message : jsstring) (err : option JsError) (context : Context)
           (w : World) : World :=
  let errorInfo := errorInfo message err context w in
  let pushed := errors (editorState w) ++ [errorInfo] in
  withEditorState
    (setErrors (Some errorInfo)
               (if (10 <? List.length pushed)%nat then sliceLast 10 pushed else pushed))
    w.

(** ** Notifications and the editor widget *)

(** [showNotification(message, type)] (lines 1169-1221): the toast is
    recorded in the trace. *)
Definition showNotification (message : jsstring) (type : Severity) (w : World) : World :=
  emit (Notified message type) w.

(** [editor.dispatchEvent(new Event('input'))]: the listener of lines
    308-313 copies the editor value to [editorState.content] and refreshes
    preview and statistics, which catch their own errors. *)
Definition dispatchInput (w : World) : World :=
  emit (InputDispatched (editorValue w))
       (withEditorState (setContent (editorValue w)) w).

(* ================================================================== *)
(** ** Completions: normal return or [throw] *)
(* ================================================================== *)

Inductive Completion (A : Type) : Type :=
| Normal (a : A)
| Thrown (e : JsError).

Arguments Normal {A} a.
Arguments Thrown {A} e.

Definition cbind {A B} (c : Completion A) (f : A -> Completion B) : Completion B :=
  match c with
  | Normal a => f a
  | Thrown e => Thrown e
  end.

Declare Scope completion_scope.
Delimit Scope completion_scope with completion.
Notation "x <- c ;; k" := (cbind c (fun x => k))
  (at level 61, c at next level, right associativity) : completion_scope.

(** ** Synchronous code: state and exceptions *)

Definition Sync (A : Type) : Type := World -> Completion A * World.

Definition sret {A} (a : A) : Sync A := fun w => (Normal a, w).

Definition sbind {A B} (m : Sync A) (f : A -> Sync B) : Sync B :=
  fun w =>
    match m w with
    | (Normal a, w') => f a w'
    | (Thrown e, w') => (Thrown e, w')
    end.

(** A pure computation that may throw. *)
Definition lift {A} (c : Completion A) : Sync A := fun w => (c, w).

(** A statement that changes the page and cannot throw. *)
Definition effect (f : World -> World) : Sync unit := fun w => (Normal tt, f w).

(** Reading the page. *)
Definition reads {A} (f : World -> A) : Sync A := fun w => (Normal (f w), w).

(** [try { m } catch (error) { h error }]. *)
Definition tryCatch {A} (m : Sync A) (h : JsError -> Sync A) : Sync A :=
  fun w =>
    match m w with
    | (Normal a, w') => (Normal a, w')
    | (Thrown e, w') => h e w'
    end.

Declare Scope sync_scope.
Delimit Scope sync_scope with sync.
Notation "x <- c ;; k" := (sbind c (fun x => k))
  (at level 61, c at next level, right associativity) : sync_scope.
Notation "c ;; k" := (sbind c (fun _ => k))
  (at level 61, right associativity) : sync_scope.

(** ** Values handed to the enrichment

    [result.processedText] is whatever the worker put in its JSON body.
    A string has the methods the enrichment calls; [null] and
    [undefined] have no properties, and a number or a boolean has none
    of these methods.  Numbers are the integers; arrays and objects are
    left out. *)
Inductive JsValue :=
| VUndefined
| VNull
| VBool (b : bool)
| VNumber (z : Z)
| VString (s : jsstring).

(** [v.method(...)] needs [v] to be a string; [expr] is the source text of
    the receiver, which the engine quotes in its message. *)
Definition receiver (expr method : string) (v : JsValue) : Completion jsstring :=
  match v with
  | VString s => Normal s
  | VUndefined =>
      Thrown (typeError (lit "Cannot read properties of undefined (reading '"
                             ++ lit method ++ lit "')"))
  | VNull =>
      Thrown (typeError (lit "Cannot read properties of null (reading '"
                             ++ lit method ++ lit "')"))
  | VBool _ | VNumber _ =>
      Thrown (typeError (lit expr ++ lit "." ++ lit method ++ lit " is not a function"))
  end.

(** The [settings] object built at lines 666-669; a property that is
    absent reads as [undefined], which is falsy. *)
Record Settings := {
  enableIcons : option bool;
  enablePrefilled : option bool
}.

Definition isTrue (b : option bool) : bool :=
  match b with Some true => true | _ => false end.

(* ================================================================== *)
(** ** Content enrichment (lines 1334-1454) *)
(* ================================================================== *)

(** *** Twitter: segmentation into tweets (lines 1371-1394) *)

(** One turn of the loop of lines 1377-1386. *)
Definition tweetStep (st : list jsstring * jsstring) (line : jsstring)
  : list jsstring * jsstring :=
  let (tweets, currentTweet) := st in
  if (List.length (currentTweet ++ [LF] ++ line) <=? 280)%nat then
    (tweets, currentTweet ++ (if truthy currentTweet then [LF] else []) ++ line)
  else
    (if truthy currentTweet then tweets ++ [currentTweet] else tweets,
     if (List.length line <=? 280)%nat then line
     else substring0 277 line ++ lit "...").

(** The array [tweets] after line 1389. *)
Definition segmentTweets (lines : list jsstring) : list jsstring :=
  let (tweets, currentTweet) := fold_left tweetStep lines ([], []) in
  if truthy currentTweet then tweets ++ [currentTweet] else tweets.

(** The callback of [tweets.map] (lines 1391-1393) from [index] on. *)
Fixpoint numberFrom (total index : nat) (tweets : list jsstring) : list jsstring :=
  match tweets with
  | [] => []
  | tweet :: rest =>
      (if (1 <? total)%nat
       then ofNat (index + 1) ++ lit "/" ++ ofNat total ++ [LF; LF] ++ tweet
       else tweet)
      :: numberFrom total (S index) rest
  end.

(** The chunks as they are emitted, before they are joined. *)
Definition emittedTweets (content : jsstring) : list jsstring :=
  let lines := filter (fun line => truthy (trim line)) (split LF content) in
  let tweets := segmentTweets lines in
  numberFrom (List.length tweets) 0 tweets.

Definition tweetSeparator : jsstring := [LF; LF] ++ lit "---" ++ [LF; LF].

Definition enrichTwitterString (content : jsstring) : jsstring :=
  join tweetSeparator (emittedTweets content).

Definition enrichTwitterContent (content : JsValue) (settings : Settings)
  : Completion JsValue :=
  (s <- receiver "content" "split" content ;;
   Normal (VString (enrichTwitterString s)))%completion.

(** *** LinkedIn (lines 1396-1409) *)

Definition linkedInHook : jsstring :=
  [LF; LF]
  ++ lit "What are your thoughts on this? Share your experience in the comments below!".

Definition enrichLinkedInString (content : jsstring) : jsstring :=
  let enriched :=
    if negb (includes (lit "What do you think?") content)
       && negb (includes (lit "Share your thoughts") content)
    then content ++ linkedInHook
    else content in
  replaceAll Re.newlines3 enriched.

Definition enrichLinkedInContent (content : JsValue) (settings : Settings)
  : Completion JsValue :=
  (s <- receiver "enriched" "includes" content ;;
   Normal (VString (enrichLinkedInString s)))%completion.

(** *** Peerlist (lines 1411-1425) *)

Definition peerlistTakeaway : jsstring :=
  [LF] ++ lit "**Key takeaway:** Focus on practical insights that advance your career.".

(** [lines.splice(-1, 0, x)]: [x] goes in front of the last element. *)
Definition spliceBeforeLast {A} (x : A) (l : list A) : list A :=
  firstn (List.length l - 1) l ++ [x] ++ skipn (List.length l - 1) l.

Definition enrichPeerlistString (content : jsstring) : jsstring :=
  if negb (includes (lit "Key takeaway") content)
     && negb (includes (lit "Lesson learned") content)
  then
    let lines := split LF content in
    join [LF] (if (3 <? List.length lines)%nat
               then spliceBeforeLast peerlistTakeaway lines
               else lines)
  else content.

Definition enrichPeerlistContent (content : JsValue) (settings : Settings)
  : Completion JsValue :=
  (s <- receiver "enriched" "includes" content ;;
   Normal (VString (enrichPeerlistString s)))%completion.

(** *** Daily.dev (lines 1427-1443) *)

Definition dailyDevSignoff : jsstring :=
  [LF; LF] ++ lit "Happy coding! " ++ [55357; 56960]%N ++ [LF; LF]
  ++ lit "What's your experience with this? Let me know in the comments!".

Definition enrichDailyDevString (content : jsstring) : jsstring :=
  let enriched :=
    if includes (lit "function") content || includes (lit "const") content
       || includes (lit "code") content
    then replaceAll Re.bareFence content
    else content in
  if negb (includes (lit "Happy coding") enriched)
     && negb (includes (lit "developer") enriched)
  then enriched ++ dailyDevSignoff
  else enriched.

Definition enrichDailyDevContent (content : JsValue) (settings : Settings)
  : Completion JsValue :=
  (s <- receiver "enriched" "includes" content ;;
   Normal (VString (enrichDailyDevString s)))%completion.

(** *** Any other format (lines 1445-1454) *)

Definition enrichGenericString (content : jsstring) : jsstring :=
  replaceAll Re.newlines3 (replaceAll Re.sentenceGap content).

Definition enrichGenericContent (content : JsValue) (settings : Settings)
  : Completion JsValue :=
  (s <- receiver "enriched" "replace" content ;;
   Normal (VString (enrichGenericString s)))%completion.

(** *** [enrichContent] (lines 1334-1368) *)

(** Lines 1339-1343: icons and long dashes go when icons are disabled. *)
Definition stripIcons (content : JsValue) (settings : Settings) : Completion JsValue :=
  if negb (isTrue (enableIcons settings)) then
    (s <- receiver "enriched" "replace" content ;;
     Normal (VString (replaceAll Re.dashes (replaceAll Re.icons s))))%completion
  else Normal content.

(** The body of the [try] block, lines 1336-1363. *)
Definition enrichSteps (content : JsValue) (format : jsstring) (settings : Settings)
  : Completion JsValue :=
  (enriched <- stripIcons content settings ;;
   if JS.eqb format (lit "twitter-post") then enrichTwitterContent enriched settings
   else if JS.eqb format (lit "linkedin-post") then enrichLinkedInContent enriched settings
   else if JS.eqb format (lit "peerlist-article") then enrichPeerlistContent enriched settings
   else if JS.eqb format (lit "dailydev-article") then enrichDailyDevContent enriched settings
   else enrichGenericContent enriched settings)%completion.

(** [enrichContent(content, format, settings)]: the [catch] clause logs the
    error and hands back the original content. *)
Definition enrichContent (content : JsValue) (format : jsstring) (settings : Settings)
  : Sync JsValue :=
  tryCatch (lift (enrichSteps content format settings))
           (fun error =>
              effect (logError (lit "Content enrichment failed") (Some error) []) ;;
              sret content)%sync.

(** ** Coercions of values *)

(** [!!v]. *)
Definition truthyValue (v : JsValue) : bool :=
  match v with
  | VUndefined | VNull => false
  | VBool b => b
  | VNumber z => negb (z =? 0)%Z
  | VString s => truthy s
  end.

(** [String(v)]. *)
Definition toStringValue (v : JsValue) : jsstring :=
  match v with
  | VUndefined => lit "undefined"
  | VNull => lit "null"
  | VBool true => lit "true"
  | VBool false => lit "false"
  | VNumber z => ofZ z
  | VString s => s
  end.

(** [v === s] for a string [s]. *)
Definition strictEqString (v : JsValue) (s : jsstring) : bool :=
  match v with
  | VString t => JS.eqb t s
  | _ => false
  end.

(* ================================================================== *)
(** ** Local fallback formatting (lines 531-546 and 768-836) *)
(* ================================================================== *)

(** [/^(function|const|let|var|class|import|export)/]. *)
Definition startsWithKeyword (line : jsstring) : bool :=
  existsb (fun k => startsWith (lit k) line)
          ["function"; "const"; "let"; "var"; "class"; "import"; "export"]%string.

(** One turn of the loop of [formatAsCode]: the lines pushed and the new
    value of [inCodeBlock]. *)
Definition codeStep (st : list jsstring * bool) (line : jsstring)
  : list jsstring * bool :=
  let (formatted, inCodeBlock) := st in
  if startsWithKeyword line then
    ((if inCodeBlock then formatted else formatted ++ [lit "```javascript"]) ++ [line],
     true)
  else if inCodeBlock && JS.eqb (trim line) [] then
    (formatted ++ [line], inCodeBlock)
  else if inCodeBlock then
    (formatted ++ [lit "```"; []; line], false)
  else
    (formatted ++ [line], inCodeBlock).

Definition formatAsCode (content : jsstring) : jsstring :=
  let (formatted, inCodeBlock) := fold_left codeStep (split LF content) ([], false) in
  join [LF] (if inCodeBlock then formatted ++ [lit "```"] else formatted).

(** One turn of the loop of [formatAsTutorial]. *)
Definition tutorialStep (st : list jsstring * nat) (line : jsstring)
  : list jsstring * nat :=
  let (formatted, stepCounter) := st in
  if includes (lit "step") (toLowerCase line) && negb (startsWith (lit "#") line) then
    (formatted ++ [lit "## Step " ++ ofNat stepCounter ++ lit ": "
                   ++ replaceFirst Re.stepLabel line],
     S stepCounter)
  else
    (formatted ++ [line], stepCounter).

Definition formatAsTutorial (content : jsstring) : jsstring :=
  join [LF] (fst (fold_left tutorialStep (split LF content) ([], 1))).

(** The body of the loop of [formatAsArticle], for one line. *)
Definition articleLine (line : jsstring) : jsstring :=
  if (0 <? List.length line)%nat && negb (startsWith (lit "#") line)
     && negb (startsWith (lit "-") line) && negb (startsWith (lit "*") line)
  then
    if (List.length line <? 60)%nat && negb (includes (lit ".") line)
       && negb (includes (lit ",") line)
    then lit "## " ++ line
    else line
  else line.

Definition formatAsArticle (content : jsstring) : jsstring :=
  join [LF] (map articleLine (split LF content)).

(** The text that [autoFormatLocal] writes back for the text it read. *)
Definition localFormat (content : jsstring) : jsstring :=
  if includes (lit "function") content || includes (lit "const") content
     || includes (lit "class") content
  then formatAsCode content
  else if includes (lit "step") content || includes (lit "tutorial") content
  then formatAsTutorial content
  else formatAsArticle content.

Definition localAppliedMessage : jsstring :=
  [55357; 56541]%N ++ lit " Local formatting applied".

(** [autoFormatLocal()]: it takes no argument, reads and rewrites
    [editor.value], notifies, and has no [return] statement, so that its
    call evaluates to [undefined]. *)
Definition autoFormatLocal : Sync JsValue :=
  (content <- reads editorValue ;;
   effect (emit (LocalFormatCalled content)) ;;
   effect (setEditorValue (localFormat content)) ;;
   effect dispatchInput ;;
   effect (showNotification localAppliedMessage Info) ;;
   sret VUndefined)%sync.

(* ================================================================== *)
(** ** Asynchronous code

    An [async] function runs synchronously up to an [await], where it is
    suspended until the awaited promise settles.  Such a function is a
    tree: synchronous steps on the page, and suspension points whose
    continuation takes what the environment answers. *)
(* ================================================================== *)

(** What [await response.json()] yields: a JSON object, of which the
    pipeline reads three properties ([VUndefined] when absent; an array
    has none of them), or a JSON scalar. *)
Record Body := {
  b_success : JsValue;
  b_processedText : JsValue;
  b_error : JsValue
}.

Inductive Json :=
| JObject (o : Body)
| JScalar (v : JsValue).

(** [j.prop]. *)
Definition getProp (sel : Body -> JsValue) (prop : string) (j : Json)
  : Completion JsValue :=
  match j with
  | JObject o => Normal (sel o)
  | JScalar VNull =>
      Thrown (typeError (lit "Cannot read properties of null (reading '"
                             ++ lit prop ++ lit "')"))
  | JScalar VUndefined =>
      Thrown (typeError (lit "Cannot read properties of undefined (reading '"
                             ++ lit prop ++ lit "')"))
  | JScalar _ => Normal VUndefined
  end.

(** A [Response]: [json] is how [response.json()] settles, with a
    [SyntaxError] when the body is not JSON. *)
Record Response := {
  ok : bool;
  status : Z;
  statusText : jsstring;
  json : Completion Json
}.

(** How [fetch] settles. *)
Inductive FetchResult :=
| Rejected (e : JsError)
| Responded (r : Response).

Inductive Proc (A : Type) : Type :=
| Ret (a : A)                                   (* normal completion *)
| Throw (e : JsError)                           (* throw e *)
| Do {T : Type} (f : World -> T * World) (k : T -> Proc A)
                                                (* a synchronous step *)
| Fetch (payload : Payload) (timeoutMs : Z) (k : FetchResult -> Proc A)
    (* await fetch(...), with an abort signal armed for timeoutMs *)
| Sleep (ms : Z) (k : Proc A)
    (* await new Promise(resolve => setTimeout(resolve, ms)) *)
| Tick (k : Proc A).
    (* await of a promise that settles without the network *)

Arguments Ret {A} a.
Arguments Throw {A} e.
Arguments Do {A T} f k.
Arguments Fetch {A} payload timeoutMs k.
Arguments Sleep {A} ms k.
Arguments Tick {A} k.

Fixpoint bind {A B} (p : Proc A) (f : A -> Proc B) : Proc B :=
  match p with
  | Ret a => f a
  | Throw e => Throw e
  | Do g k => Do g (fun t => bind (k t) f)
  | Fetch payload timeoutMs k => Fetch payload timeoutMs (fun r => bind (k r) f)
  | Sleep ms k => Sleep ms (bind k f)
  | Tick k => Tick (bind k f)
  end.

(** [try { p } catch (error) { h error }]. *)
Fixpoint catch {A} (p : Proc A) (h : JsError -> Proc A) : Proc A :=
  match p with
  | Ret a => Ret a
  | Throw e => h e
  | Do g k => Do g (fun t => catch (k t) h)
  | Fetch payload timeoutMs k => Fetch payload timeoutMs (fun r => catch (k r) h)
  | Sleep ms k => Sleep ms (catch k h)
  | Tick k => Tick (catch k h)
  end.

(** [try { p } finally { fin }], for a [finally] block that is
    synchronous and does not throw. *)
Fixpoint finally {A} (p : Proc A) (fin : World -> World) : Proc A :=
  match p with
  | Ret a => Do (fun w => (tt, fin w)) (fun _ => Ret a)
  | Throw e => Do (fun w => (tt, fin w)) (fun _ => Throw e)
  | Do g k => Do g (fun t => finally (k t) fin)
  | Fetch payload timeoutMs k => Fetch payload timeoutMs (fun r => finally (k r) fin)
  | Sleep ms k => Sleep ms (finally k fin)
  | Tick k => Tick (finally k fin)
  end.

(** Synchronous code inside an [async] function. *)
Definition sync {A} (m : Sync A) : Proc A :=
  Do m (fun c => match c with Normal a => Ret a | Thrown e => Throw e end).

Definition act (f : World -> World) : Proc unit :=
  Do (fun w => (tt, f w)) Ret.

Definition ask {A} (f : World -> A) : Proc A :=
  Do (fun w => (f w, w)) Ret.

(** [await fetch(...)]: a rejection is thrown at the [await]. *)
Definition fetch (payload : Payload) (timeoutMs : Z) : Proc Response :=
  Fetch payload timeoutMs
        (fun r => match r with Rejected e => Throw e | Responded resp => Ret resp end).

Definition sleep (ms : Z) : Proc unit := Sleep ms (Ret tt).

(** [await p] for a promise [p] that settles as the completion [c]. *)
Definition await {A} (c : Completion A) : Proc A :=
  Tick (match c with Normal a => Ret a | Thrown e => Throw e end).

Declare Scope proc_scope.
Delimit Scope proc_scope with proc.
Notation "x <- c ;; k" := (bind c (fun x => k))
  (at level 61, c at next level, right associativity) : proc_scope.
Notation "c ;; k" := (bind c (fun _ => k))
  (at level 61, right associativity) : proc_scope.

(* ================================================================== *)
(** ** [processWithAI] (lines 549-766) *)
(* ================================================================== *)

(** The first argument of [processWithAI]: a format name (the old calling
    convention), the button that was clicked, or [null]. *)
Inductive ElementArg :=
| ElementString (s : jsstring)
| ElementNode
| ElementNull.

(** The format that [processWithAI] works with (lines 551-554): a
    string in the place of the element is the format. *)
Definition formatOf (element : ElementArg) (format : jsstring) : jsstring :=
  match element with
  | ElementString s => s
  | ElementNode | ElementNull => format
  end.

Section Pipeline.

Variable cfg : Config.

(** *** Messages *)

Definition emptyMessage : jsstring :=
  [55357; 56541]%N ++ lit " Please enter some text to process first".

Definition tooLongMessage (len : nat) : jsstring :=
  [9888; 65039]%N ++ lit " Text is too long. Please limit to "
  ++ ofNat (MAX_TEXT_LENGTH cfg) ++ lit " characters. Current: " ++ ofNat len.

Definition busyMessage : jsstring :=
  [9203]%N ++ lit " Please wait for current processing to complete".

Definition attemptMessage (attempt : nat) : jsstring :=
  [55357; 56580]%N ++ lit " Processing attempt " ++ ofNat attempt ++ lit "/"
  ++ ofNat (RETRY_ATTEMPTS cfg) ++ lit "...".

Definition completedMessage (format : jsstring) (processingTime : Z) : jsstring :=
  [10024]%N ++ lit " " ++ format ++ lit " formatting completed! ("
  ++ ofZ processingTime ++ lit "ms)".

(** [Math.pow(2, attempt) * 1000], the delay handed to [setTimeout]. *)
Definition waitTime (attempt : nat) : Z := 2 ^ Z.of_nat attempt * 1000.

(** [waitTime / 1000] is [2 ^ attempt], which the engine prints digit
    for digit as long as it is below [2 ^ 53]. *)
Definition retryMessage (attempt : nat) : jsstring :=
  [9203]%N ++ lit " Retrying in " ++ ofZ (waitTime attempt / 1000) ++ lit " seconds...".

(** [String(ms / 1000)] for an integer [ms]: the quotient has at most
    three decimals, which is how the engine prints it. *)
Definition ofThousandths (ms : Z) : jsstring :=
  let a := Z.abs ms in
  let r := (a mod 1000)%Z in
  (if (ms <? 0)%Z then lit "-" else [])
  ++ ofZ (a / 1000)
  ++ (if (r =? 0)%Z then []
      else lit "."
           ++ (if (r mod 100 =? 0)%Z then ofZ (r / 100)
               else if (r mod 10 =? 0)%Z
                    then ofZ (r / 100) ++ ofZ (r / 10 mod 10)
                    else ofZ (r / 100) ++ ofZ (r / 10 mod 10) ++ ofZ (r mod 10))).

Definition timeoutMessage : jsstring :=
  lit "Processing timeout after " ++ ofThousandths (TIMEOUT_MS cfg) ++ lit " seconds".

(** Lines 724-737. *)
Definition userMessage (e : JsError) : jsstring :=
  let m := err_message e in
  [10060]%N ++ lit " Processing failed: "
  ++ (if includes (lit "fetch") m
      then lit "Network connection issue. Please check your internet connection."
      else if includes (lit "timeout") m
      then lit "Request timed out. The service may be busy, please try again."
      else if includes (lit "401") m || includes (lit "403") m
      then lit "Authentication error. Please refresh the page."
      else if includes (lit "429") m
      then lit "Rate limit exceeded. Please wait a moment before trying again."
      else if includes (lit "500") m || includes (lit "502") m || includes (lit "503") m
      then lit "Server error. Please try again later."
      else if truthy m then m else lit "Unknown error occurred").

Definition tryingFallbackMessage : jsstring :=
  [55357; 56580]%N ++ lit " Trying local fallback formatting...".

Definition fallbackAppliedMessage : jsstring :=
  [9989]%N ++ lit " Local fallback formatting applied".

(** *** Prompt selection (lines 596-609) *)

Definition prompts : list (string * string) :=
  [ ("dev-article", "Transform this into a well-structured development article with clear sections, proper headings, and code examples where appropriate.");
    ("tutorial", "Format this as a step-by-step tutorial with numbered sections and clear instructions.");
    ("chatgpt-prompt", "Reformat this as a clear, structured prompt for ChatGPT with specific requirements and context.");
    ("readme", "Format this as a professional README document with sections for installation, usage, and examples.");
    ("Med-Article", "Transform this into a well-structured Medium-style article with engaging headings, proper formatting, and clear sections.");
    ("peerlist-article", "Transform this into a professional Peerlist article that showcases expertise and builds credibility. Focus on insights, career lessons, and actionable advice. Use engaging headlines and professional tone suitable for networking.");
    ("twitter-post", "Transform this into an engaging Twitter/X thread. Break into concise, punchy tweets (max 280 chars each). Use hooks, numbered points, and encourage engagement. Include relevant hashtags and maintain conversational tone.");
    ("linkedin-post", "Transform this into a professional LinkedIn post that drives engagement. Use storytelling elements, professional insights, and calls-to-action. Include relevant hashtags and maintain thought leadership tone.");
    ("dailydev-article", "Transform this into a Daily.dev community article. Focus on practical development insights, code examples, and developer-focused content. Use clear sections, code blocks, and actionable takeaways for the developer community.")
  ]%string.

(** [customPrompt || prompts[format] || '...']. *)
Definition choosePrompt (customPrompt : option jsstring) (format : jsstring) : jsstring :=
  match customPrompt with
  | Some p => if truthy p then p else
      match find (fun kv => JS.eqb (lit (fst kv)) format) prompts with
      | Some kv => lit (snd kv)
      | None => lit "Improve the formatting and structure of this text."
      end
  | None =>
      match find (fun kv => JS.eqb (lit (fst kv)) format) prompts with
      | Some kv => lit (snd kv)
      | None => lit "Improve the formatting and structure of this text."
      end
  end.

Definition buildPayload (content prompt format : jsstring) (w : World) : Payload :=
  {| p_text := content;
     p_prompt := prompt;
     p_format := format;
     p_sessionId := match sessionId (editorState w) with
                    | Some s => if truthy s then s else lit "anonymous"
                    | None => lit "anonymous"
                    end;
     p_timestamp := now w |}.

(** [ensureValidToken()] (lines 271-305): [ENABLE_JWT] is [false], so
    the function returns [true] at line 273; its promise is awaited. *)
Definition ensureValidToken : Proc bool := await (Normal true).

(** *** One attempt: the [try] block of lines 628-691 *)

(** Lines 646-655: the response is not ok.  The inner [try] swallows
    whatever reading the body throws. *)
Definition throwHttpError (response : Response) : Proc unit :=
  let errorMessage :=
    lit "HTTP " ++ ofZ (status response) ++ lit ": " ++ statusText response in
  (message <-
     catch (errorData <- await (json response) ;;
            e <- sync (lift (getProp b_error "error" errorData)) ;;
            Ret (if truthyValue e then toStringValue e else errorMessage))
           (fun _ => Ret errorMessage) ;;
   Throw (newError message))%proc.

(** [document.getElementById(id)?.checked ?? true]. *)
Definition checked (box : option bool) : bool :=
  match box with Some b => b | None => true end.

(** Lines 660-687: the response is well formed. *)
Definition deliver (processedText : JsValue) (format content : jsstring)
           (startTime : Z) (attempt : nat) : Proc unit :=
  (t <- ask now ;;
   let processingTime := (t - startTime)%Z in
   icons <- ask (fun w => checked (enableIconsBox w)) ;;
   prefilled <- ask (fun w => checked (enablePrefilledBox w)) ;;
   let settings := {| enableIcons := Some icons; enablePrefilled := Some prefilled |} in
   enrichedText <- sync (enrichContent processedText format settings) ;;
   act (setEditorValue (toStringValue enrichedText)) ;;
   act dispatchInput ;;
   act (showNotification (completedMessage format processingTime) Success) ;;
   act (logError (lit "AI processing completed") None
                 [("format", CStr format);
                  ("processingTime", CNum processingTime);
                  ("textLength", CNum (Z.of_nat (List.length content)));
                  ("attempt", CNum (Z.of_nat attempt))]%string) ;;
   Ret tt)%proc.

(** Line 690. *)
Definition throwNoText (result : Json) : Proc unit :=
  (e <- sync (lift (getProp b_error "error" result)) ;;
   Throw (newError (if truthyValue e then toStringValue e
                    else lit "Processing failed - no processed text returned")))%proc.

Definition attemptOnce (payload : Payload) (format content : jsstring)
           (startTime : Z) (attempt : nat) : Proc unit :=
  (act (showNotification (attemptMessage attempt) Info) ;;
   response <- fetch payload (TIMEOUT_MS cfg) ;;
   if negb (ok response) then throwHttpError response
   else
     result <- await (json response) ;;
     s <- sync (lift (getProp b_success "success" result)) ;;
     if truthyValue s then
       processedText <- sync (lift (getProp b_processedText "processedText" result)) ;;
       if truthyValue processedText
       then deliver processedText format content startTime attempt
       else throwNoText result
     else throwNoText result)%proc.

(** *** The retry loop (lines 626-712)

    [remaining] is [RETRY_ATTEMPTS + 1 - attempt]: the loop condition
    [attempt <= RETRY_ATTEMPTS] fails when it is [0], and line 712 is
    reached.  A normal completion of the [try] block is the [return] of
    line 687. *)
Fixpoint retryLoop (payload : Payload) (format content : jsstring) (startTime : Z)
         (remaining attempt : nat) (lastError : option JsError) : Proc unit :=
  match remaining with
  | O =>
      Throw (match lastError with
             | Some e => e
             | None => newError (lit "All retry attempts failed")
             end)
  | S remaining' =>
      catch (attemptOnce payload format content startTime attempt)
            (fun error =>
               if JS.eqb (err_name error) (lit "AbortError") then
                 Throw (newError timeoutMessage)
               else if (attempt =? RETRY_ATTEMPTS cfg)%nat then
                 Throw error
               else
                 (act (showNotification (retryMessage attempt) Info) ;;
                  sleep (waitTime attempt) ;;
                  retryLoop payload format content startTime
                            remaining' (S attempt) (Some error))%proc)
  end.

(** *** The outer [catch] clause (lines 714-754) *)

(** Lines 742-754. *)
Definition localFallback (content : jsstring) : Sync unit :=
  match ENABLE_LOCAL_FALLBACK cfg with
  | Some false => sret tt
  | _ =>
      (effect (showNotification tryingFallbackMessage Info) ;;
       tryCatch
         (localResult <- autoFormatLocal ;;
          if truthyValue localResult && negb (strictEqString localResult content)
          then
            effect (setEditorValue (toStringValue localResult)) ;;
            effect dispatchInput ;;
            effect (showNotification fallbackAppliedMessage Success)
          else sret tt)
         (fun fallbackError =>
            effect (logError (lit "Local fallback failed") (Some fallbackError) [])))%sync
  end.

Definition onFailure (format content : jsstring) (startTime : Z) (e : JsError)
  : Sync unit :=
  (t <- reads now ;;
   let processingTime := (t - startTime)%Z in
   effect (logError (lit "AI Processing failed") (Some e)
                    [("format", CStr format);
                     ("processingTime", CNum processingTime);
                     ("textLength", CNum (Z.of_nat (List.length content)));
                     ("retryAttempts", CNum (Z.of_nat (RETRY_ATTEMPTS cfg)))]%string) ;;
   effect (showNotification (userMessage e) Error) ;;
   localFallback content)%sync.

(** *** The function *)

(** Lines 589-712, the outer [try] block. *)
Definition guarded (format : jsstring) (customPrompt : option jsstring)
           (content : jsstring) (startTime : Z) : Proc unit :=
  (tokenValid <- ensureValidToken ;;
   (* [!tokenValid && CONFIG.ENABLE_JWT] is false *)
   let prompt := choosePrompt customPrompt format in
   payload <- ask (buildPayload content prompt format) ;;
   retryLoop payload format content startTime (RETRY_ATTEMPTS cfg) 1 None)%proc.

(** Line 579, [element || document.querySelector(...)]: without a
    button at hand the page is searched for the one of the format, which
    throws when the selector is malformed.  What is then done to the
    button (lines 582-587 and 760-764) only changes its appearance. *)
Definition lookupThrows (element : ElementArg) (format : jsstring) (w : World)
  : option JsError :=
  match element with
  | ElementNode => None
  | ElementString _ | ElementNull => selectorError w format
  end.

Definition lookupButton (element : ElementArg) (format : jsstring) : Sync unit :=
  fun w =>
    match lookupThrows element format w with
    | Some e => (Thrown e, w)
    | None => (Normal tt, w)
    end.

(** Lines 575-766, once the three guards are passed. *)
Definition locked (element : ElementArg) (format : jsstring)
           (customPrompt : option jsstring) (content : jsstring) : Proc unit :=
  (act (withEditorState (setIsProcessing true)) ;;
   startTime <- ask now ;;
   sync (lookupButton element format) ;;
   finally
     (catch (guarded format customPrompt content startTime)
            (fun e => sync (onFailure format content startTime e)))
     (withEditorState (setIsProcessing false)))%proc.

Definition processWithAI (element : ElementArg) (format : jsstring)
           (customPrompt : option jsstring) : Proc unit :=
  let format := formatOf element format in
  (content <- ask (fun w => trim (editorValue w)) ;;
   if negb (truthy content) then
     act (showNotification emptyMessage Warning)
   else if (MAX_TEXT_LENGTH cfg <? List.length content)%nat then
     act (showNotification (tooLongMessage (List.length content)) Warning)
   else
     busy <- ask (fun w => isProcessing (editorState w)) ;;
     if busy then
       act (showNotification busyMessage Info)
     else
       locked element format customPrompt content)%proc.

End Pipeline.

(* ================================================================== *)
(** ** Running an invocation *)
(* ================================================================== *)

(** *** One invocation, run to its end

    The environment is the list of the replies of the worker, in the
    order of the requests: how long each request takes to settle and how
    it settles.  The abort timer of a request fires when the request has
    not settled within its [timeoutMs]; [fetch] then rejects with an
    [AbortError].  Timers and settled promises always resume. *)

Record Reply := {
  elapsed : Z;
  result : FetchResult
}.

Inductive Outcome (A : Type) : Type :=
| Finished (c : Completion A)    (* the promise of the call has settled *)
| Pending.                       (* a request is still waiting for its reply *)

Arguments Finished {A} c.
Arguments Pending {A}.

(** How a request settles, abort timer included. *)
Definition settle (timeoutMs : Z) (r : Reply) : FetchResult :=
  if (timeoutMs <=? elapsed r)%Z then Rejected abortError else result r.

Fixpoint run {A} (script : list Reply) (p : Proc A) (w : World)
  : Outcome A * World * list Reply :=
  match p with
  | Ret a => (Finished (Normal a), w, script)
  | Throw e => (Finished (Thrown e), w, script)
  | Do f k => let (t, w') := f w in run script (k t) w'
  | Fetch payload timeoutMs k =>
      let w' := emit (Requested payload) w in
      match script with
      | [] => (Pending, w', [])
      | r :: script' =>
          run script' (k (settle timeoutMs r))
              (setNow (now w' + Z.min timeoutMs (elapsed r)) w')
      end
  | Sleep ms k => run script k (setNow (now w + ms) (emit (Slept ms) w))
  | Tick k => run script k w
  end.

(** Projections of a trace. *)
Definition requests (tr : list Event) : list Payload :=
  flat_map (fun e => match e with Requested p => [p] | _ => [] end) tr.

Definition sleeps (tr : list Event) : list Z :=
  flat_map (fun e => match e with Slept ms => [ms] | _ => [] end) tr.

Definition notifications (tr : list Event) : list (jsstring * Severity) :=
  flat_map (fun e => match e with Notified m t => [(m, t)] | _ => [] end) tr.

Definition localFormatCalls (tr : list Event) : list jsstring :=
  flat_map (fun e => match e with LocalFormatCalled v => [v] | _ => [] end) tr.

(** Requests and suspensions, in their order. *)
Definition network (tr : list Event) : list Event :=
  filter (fun e => match e with Requested _ | Slept _ => true | _ => false end) tr.

(** *** How an attempt ends *)

(** The worker's reply is well formed: a 2xx response whose JSON body is
    an object with a truthy [success] and a truthy [processedText]. *)
Definition wellFormed (r : FetchResult) : bool :=
  match r with
  | Responded resp =>
      ok resp
      && match json resp with
         | Normal (JObject o) => truthyValue (b_success o) && truthyValue (b_processedText o)
         | _ => false
         end
  | Rejected _ => false
  end.

(** A 2xx response whose JSON body lacks the expected fields. *)
Definition malformed (r : FetchResult) : bool :=
  match r with
  | Responded resp =>
      ok resp
      && match json resp with
         | Normal _ => negb (wellFormed r)
         | Thrown _ => false
         end
  | Rejected _ => false
  end.

(** The test of line 696. *)
Definition isAbort (e : JsError) : bool := JS.eqb (err_name e) (lit "AbortError").

(** The failures of a settled attempt that the loop retries: whatever
    is not an abort.  A network failure, any response that is not 2xx,
    and a 2xx response whose body cannot be read or lacks the expected
    fields. *)
Definition failsRetryably (r : FetchResult) : bool :=
  match r with
  | Rejected e => negb (isAbort e)
  | Responded resp =>
      if ok resp then
        match json resp with
        | Thrown e => negb (isAbort e)
        | Normal _ => negb (wellFormed r)
        end
      else true
  end.

Section Attempts.

Variable cfg : Config.

(** The request times out: its abort timer fires first. *)
Definition timesOut (r : Reply) : bool := (TIMEOUT_MS cfg <=? elapsed r)%Z.

Definition succeeds (r : Reply) : bool :=
  negb (timesOut r) && wellFormed (result r).

Definition retryable (r : Reply) : bool :=
  negb (timesOut r) && failsRetryably (result r).

End Attempts.

(** The page when the request of an attempt has settled. *)
Definition afterRequest (cfg : Config) (payload : Payload) (attempt : nat)
           (r : Reply) (w : World) : World :=
  let w' := emit (Requested payload)
                 (showNotification (attemptMessage cfg attempt) Info w) in
  setNow (now w' + Z.min (TIMEOUT_MS cfg) (elapsed r)) w'.

(** The page when the backoff after a failed attempt is over. *)
Definition afterBackoff (attempt : nat) (w : World) : World :=
  let w' := showNotification (retryMessage attempt) Info w in
  setNow (now w' + waitTime attempt) (emit (Slept (waitTime attempt)) w').

(** Requests and suspensions of a loop that starts with [attempt] and
    fails [failures] times before its last request: after the failure of
    attempt [n] the loop sleeps for [waitTime n], then issues attempt
    [n + 1]. *)
Fixpoint attemptsWithBackoff (payload : Payload) (attempt failures : nat)
  : list Event :=
  match failures with
  | O => [Requested payload]
  | S failures' =>
      Requested payload :: Slept (waitTime attempt)
      :: attemptsWithBackoff payload (S attempt) failures'
  end.

(** The trace of an attempt up to its request, and of [n] attempts that
    fail and are retried, from [attempt] on. *)
Definition lastAttempt (cfg : Config) (payload : Payload) (attempt : nat)
  : list Event :=
  [Notified (attemptMessage cfg attempt) Info; Requested payload].

Fixpoint failedAttempts (cfg : Config) (payload : Payload) (attempt n : nat)
  : list Event :=
  match n with
  | O => []
  | S n' =>
      [Notified (attemptMessage cfg attempt) Info; Requested payload;
       Notified (retryMessage attempt) Info; Slept (waitTime attempt)]
      ++ failedAttempts cfg payload (S attempt) n'
  end.

(** What the local fallback adds to the trace when the editor holds
    [value]. *)
Definition fallbackEvents (cfg : Config) (value : jsstring) : list Event :=
  match ENABLE_LOCAL_FALLBACK cfg with
  | Some false => []
  | _ => [Notified tryingFallbackMessage Info;
          LocalFormatCalled value;
          InputDispatched (normalizeNewlines (localFormat value));
          Notified localAppliedMessage Info]
  end.

(** The two tests of lines 559 and 564 let the text through. *)
Definition passesValidation (cfg : Config) (w : World) : bool :=
  truthy (trim (editorValue w))
  && (List.length (trim (editorValue w)) <=? MAX_TEXT_LENGTH cfg)%nat.

(** The payload that an accepted call builds on the page [w]. *)
Definition payloadOn (cfg : Config) (element : ElementArg) (format : jsstring)
           (customPrompt : option jsstring) (w : World) : Payload :=
  buildPayload (trim (editorValue w))
               (choosePrompt customPrompt (formatOf element format))
               (formatOf element format)
               (withEditorState (setIsProcessing true) w).

(** The notifications that are not mere progress information. *)
Definition terminal (tr : list Event) : list (jsstring * Severity) :=
  filter (fun n => match snd n with Info => false | _ => true end) (notifications tr).

(** *** Several invocations on one page

    The page is single threaded: a call or a resumption runs until its
    invocation is suspended or has finished, and nothing else runs in
    between. *)

Fixpoint advance {A} (p : Proc A) (w : World) : Proc A * World :=
  match p with
  | Do f k => let (t, w') := f w in advance (k t) w'
  | _ => (p, w)
  end.

Definition settled {A} (p : Proc A) : bool :=
  match p with
  | Ret _ | Throw _ => true
  | _ => false
  end.

(** The page and the invocations of [processWithAI] that are suspended. *)
Record Sys := {
  page : World;
  inflight : list (Proc unit)
}.

Definition enter (pw : Proc unit * World) (others : list (Proc unit)) : Sys :=
  {| page := snd pw;
     inflight := if settled (fst pw) then others else others ++ [fst pw] |}.

(** The payload that a suspended invocation has on the wire. *)
Definition payloadOf (p : Proc unit) : list Payload :=
  match p with
  | Fetch payload _ _ => [payload]
  | _ => []
  end.

Definition payloadsInFlight (s : Sys) : list Payload :=
  flat_map payloadOf (inflight s).

(** The continuation of a suspended invocation, for an answer of the
    environment. *)
Inductive resumes : Proc unit -> Proc unit -> Prop :=
| resumes_fetch payload timeoutMs k r : resumes (Fetch payload timeoutMs k) (k r)
| resumes_sleep ms k : resumes (Sleep ms k) k
| resumes_tick k : resumes (Tick k) k.

Section System.

Variable cfg : Config.

(** A call of [processWithAI]. *)
Definition call (element : ElementArg) (format : jsstring)
           (customPrompt : option jsstring) (s : Sys) : Sys :=
  enter (advance (processWithAI cfg element format customPrompt) (page s))
        (inflight s).

Inductive step : Sys -> Sys -> Prop :=
| step_call element format customPrompt s :
    step s (call element format customPrompt s)
| step_resume s before p after p' :
    inflight s = before ++ p :: after ->
    resumes p p' ->
    step s (enter (advance p' (page s)) (before ++ after))
| step_page s w :
    (* the user, the clock and the rest of the script change the page;
       [isProcessing] is written at lines 575 and 758 only *)
    isProcessing (editorState w) = isProcessing (editorState (page s)) ->
    step s {| page := w; inflight := inflight s |}.

Inductive reachable : Sys -> Prop :=
| reachable_start w :
    isProcessing (editorState w) = false ->
    reachable {| page := w; inflight := [] |}
| reachable_step s s' : reachable s -> step s s' -> reachable s'.

End System.

(** *** The lock along an invocation *)

(** No synchronous step of [p] writes another value to [isProcessing]. *)
Fixpoint keepsLock {A} (p : Proc A) : Prop :=
  match p with
  | Ret _ | Throw _ => True
  | Do f k =>
      (forall w, isProcessing (editorState (snd (f w))) = isProcessing (editorState w))
      /\ (forall t, keepsLock (k t))
  | Fetch _ _ k => forall r, keepsLock (k r)
  | Sleep _ k => keepsLock k
  | Tick k => keepsLock k
  end.

(** [p] keeps [isProcessing] as it is up to its last step, which clears it. *)
Fixpoint releasesAtEnd {A} (p : Proc A) : Prop :=
  match p with
  | Ret _ | Throw _ => False
  | Do f k =>
      ((forall w, isProcessing (editorState (snd (f w))) = isProcessing (editorState w))
       /\ (forall t, releasesAtEnd (k t)))
      \/ ((forall w, isProcessing (editorState (snd (f w))) = false)
          /\ (forall t, settled (k t) = true))
  | Fetch _ _ k => forall r, releasesAtEnd (k r)
  | Sleep _ k => releasesAtEnd k
  | Tick k => releasesAtEnd k
  end.

(** At most one invocation is suspended; while one is, the lock is set,
    and that invocation will clear it. *)
Definition lockInvariant (s : Sys) : Prop :=
  match inflight s with
  | [] => True
  | [p] =>
      isProcessing (editorState (page s)) = true
      /\ settled p = false
      /\ releasesAtEnd p
  | _ :: _ :: _ => False
  end.

(* ================================================================== *)
(** ** Concrete pages and replies *)
(* ================================================================== *)

(** A freshly loaded page whose editor holds [value]. *)
Definition pageWith (value : jsstring) : World :=
  {| editorState := initialEditorState;
     editorValue := value;
     enableIconsBox := Some true;
     enablePrefilledBox := Some true;
     selectorError := fun _ => None;
     now := 0;
     trace := [] |}.

(** The same page while an earlier invocation holds [isProcessing]. *)
Definition busyPageWith (value : jsstring) : World :=
  withEditorState (setIsProcessing true) (pageWith value).

(** [200 OK] with the body [{success: true, processedText: text}]. *)
Definition okReply (text : jsstring) : Reply :=
  {| elapsed := 120;
     result := Responded
       {| ok := true; status := 200; statusText := lit "OK";
          json := Normal (JObject {| b_success := VBool true;
                                     b_processedText := VString text;
                                     b_error := VUndefined |}) |} |}.

(** [500 Internal Server Error] with the body [{error: "HTTP 500 boom"}]. *)
Definition serverErrorReply : Reply :=
  {| elapsed := 120;
     result := Responded
       {| ok := false; status := 500; statusText := lit "Internal Server Error";
          json := Normal (JObject {| b_success := VUndefined;
                                     b_processedText := VUndefined;
                                     b_error := VString (lit "HTTP 500 boom") |}) |} |}.

(** [200 OK] with the body [{success: false}]. *)
Definition malformedReply : Reply :=
  {| elapsed := 120;
     result := Responded
       {| ok := true; status := 200; statusText := lit "OK";
          json := Normal (JObject {| b_success := VBool false;
                                     b_processedText := VUndefined;
                                     b_error := VUndefined |}) |} |}.

(** A request that is still unanswered after 31 seconds. *)
Definition lateReply : Reply :=
  {| elapsed := 31000; result := (result (okReply (lit "too late"))) |}.

(** Two lines of 279 letters each. *)
Definition twoLongLines : jsstring :=
  repeat 97%N 279 ++ [LF] ++ repeat 97%N 279.

(** The payload of a call for the tutorial format on [pageWith value]. *)
Definition tutorialPayload (value : jsstring) : Payload :=
  payloadOn CONFIG (ElementString (lit "tutorial")) [] None (pageWith value).

(** The page once a first call has been accepted and is suspended. *)
Definition pageAfterFirstCall : Sys :=
  call CONFIG (ElementString (lit "tutorial")) [] None
       {| page := pageWith (lit "Hello"); inflight := [] |}.

(** The same, after the user has emptied the editor. *)
Definition pageWhileProcessing : Sys :=
  {| page := dispatchInput (setEditorValue [] (page pageAfterFirstCall));
     inflight := inflight pageAfterFirstCall |}.

(* ================================================================== *)
(** ** Preview and statistics (lines 315-386) *)
(* ================================================================== *)

(** [LineTerminator] of ECMAScript: what [.] does not match and after
    which [^] holds under the [m] flag. *)
Definition isLineTerminator (c : N) : bool :=
  ((c =? 10) || (c =? 13) || (c =? 8232) || (c =? 8233))%N.

(** [s.replace(/^re/gm, ...)]: the matcher is tried only where [^] holds,
    at the start of the subject and after a line terminator; [atStart]
    says whether it holds at the head of [s]. *)
Fixpoint replaceAtLineStartsFrom (m : matcher) (s : jsstring) (skip : nat)
         (atStart : bool) : jsstring :=
  match s with
  | [] => []
  | c :: t =>
      match skip with
      | S n => replaceAtLineStartsFrom m t n (isLineTerminator c)
      | O =>
          match (if atStart then m s else None) with
          | Some (len, rep) =>
              rep ++ replaceAtLineStartsFrom m t (pred len) (isLineTerminator c)
          | None => c :: replaceAtLineStartsFrom m t 0 (isLineTerminator c)
          end
      end
  end.

Definition replaceAtLineStarts (m : matcher) (s : jsstring) : jsstring :=
  replaceAtLineStartsFrom m s 0 true.

(** The regular expressions of [convertBasicMarkdown]. *)
Module Md.

(** [(.*?)] in front of [delim]: the shortest run of code units of one
    line after which [delim] comes. *)
Fixpoint lazyUntil (delim s : jsstring) : option jsstring :=
  if startsWith delim s then Some []
  else match s with
       | [] => None
       | c :: t =>
           if isLineTerminator c then None
           else option_map (cons c) (lazyUntil delim t)
       end.

Definition element (tag : string) (inner : jsstring) : jsstring :=
  lit "<" ++ lit tag ++ lit ">" ++ inner ++ lit "</" ++ lit tag ++ lit ">".

(** [/D(.*?)D/] replaced by ['<tag>$1</tag>'] for a literal [D]. *)
Definition delimited (delim : jsstring) (tag : string) : matcher := fun s =>
  if startsWith delim s then
    match lazyUntil delim (skipn (List.length delim) s) with
    | Some inner =>
        Some (List.length delim + List.length inner + List.length delim,
              element tag inner)%nat
    | None => None
    end
  else None.

Definition strong : matcher := delimited (lit "**") "strong".
Definition em : matcher := delimited (lit "*") "em".
Definition code : matcher := delimited (lit "`") "code".

(** [/^P(.*$)/] replaced by ['<tag>$1</tag>'] for a literal [P]; the
    anchor [^] is up to the caller.  [.*] is greedy and stops in front
    of a line terminator or at the end, which is where [$] holds. *)
Definition prefixed (prefix : jsstring) (tag : string) : matcher := fun s =>
  if startsWith prefix s then
    let rest := takeWhile (fun c => negb (isLineTerminator c))
                          (skipn (List.length prefix) s) in
    Some (List.length prefix + List.length rest, element tag rest)%nat
  else None.

(** [/\n/] replaced by ['<br>']. *)
Definition lineFeed : matcher := fun s =>
  match s with
  | c :: _ => if (c =? LF)%N then Some (1%nat, lit "<br>") else None
  | [] => None
  end.

End Md.

(** [convertBasicMarkdown(content)] (lines 347-363), the preview when the
    Markdown library is missing.  On a string no [replace] throws, so
    that the [catch] clause is not entered. *)
Definition convertBasicMarkdown (content : jsstring) : jsstring :=
  replaceAll Md.lineFeed
    (replaceAtLineStarts (Md.prefixed (lit "- ") "li")
       (replaceAtLineStarts (Md.prefixed (lit "> ") "blockquote")
          (replaceAtLineStarts (Md.prefixed (lit "# ") "h1")
             (replaceAtLineStarts (Md.prefixed (lit "## ") "h2")
                (replaceAtLineStarts (Md.prefixed (lit "### ") "h3")
                   (replaceAll Md.code
                      (replaceAll Md.em
                         (replaceAll Md.strong content)))))))).

(** [s.split(/\s+/)]: the pieces between the maximal runs of white
    space; [inRun] says that the code unit in front of [s] is white
    space whose run has already been split off. *)
Fixpoint splitWhiteSpaceFrom (inRun : bool) (s : jsstring) : list jsstring :=
  match s with
  | [] => [[]]
  | c :: t =>
      if isWhiteSpace c then
        if inRun then splitWhiteSpaceFrom true t
        else [] :: splitWhiteSpaceFrom true t
      else match splitWhiteSpaceFrom false t with
           | [] => [[c]]
           | l :: ls => (c :: l) :: ls
           end
  end.

Definition splitWhiteSpace (s : jsstring) : list jsstring :=
  splitWhiteSpaceFrom false s.

(** What [updateStats] writes to the statistics line: its text and its
    colour. *)
Record StatsLine := {
  textContent : jsstring;
  color : jsstring
}.

(** [updateStats(content)] (lines 365-386), for the page that has the
    statistics line. *)
Definition updateStats (cfg : Config) (content : jsstring) : StatsLine :=
  let words :=
    if truthy (trim content) then List.length (splitWhiteSpace (trim content))
    else 0%nat in
  let chars := List.length content in
  let lines := List.length (split LF content) in
  let remaining := (Z.of_nat (MAX_TEXT_LENGTH cfg) - Z.of_nat chars)%Z in
  let statsText :=
    lit "Words: " ++ ofNat words ++ lit " | Characters: " ++ ofNat chars
    ++ lit " | Lines: " ++ ofNat lines in
  let statusText :=
    if (remaining <? 0)%Z
    then lit " | " ++ [9888; 65039]%N ++ lit " Exceeded limit by "
         ++ ofZ (Z.abs remaining)
    else if (remaining <? 100)%Z
    then lit " | " ++ ofZ remaining ++ lit " remaining"
    else [] in
  {| textContent := statsText ++ statusText;
     color := if (remaining <? 0)%Z then lit "#ff6b6b"
              else if (remaining <? 100)%Z then lit "#ff9800"
              else lit "#666" |}.

(** The number of words of a text: the maximal runs of code units that
    are not white space.  [inWord] says that the code unit in front of
    [s] belongs to a word. *)
Fixpoint countWordsFrom (inWord : bool) (s : jsstring) : nat :=
  match s with
  | [] => 0
  | c :: t =>
      if isWhiteSpace c then countWordsFrom false t
      else (if inWord then 0 else 1) + countWordsFrom true t
  end.

Definition countWords (s : jsstring) : nat := countWordsFrom false s.

(* ================================================================== *)
(** ** The toolbar and the settings *)
(* ================================================================== *)

(** *** The default content (lines 1512-1549) *)

(** The welcome text, with [CONFIG.MAX_TEXT_LENGTH] printed in it. *)
Definition welcomeText (cfg : Config) : jsstring :=
  join [LF]
    [ lit "# Welcome to MarkdownGPT! " ++ [55357; 56960]%N;
      [];
      lit "Transform your raw text with AI-powered formatting and processing for professional documents.";
      [];
      lit "## " ++ [10024]%N ++ lit " Features";
      [];
      lit "- **" ++ [55358; 56598]%N ++ lit " AI Processing**: Smart formatting for articles, tutorials, READMEs, and more";
      lit "- **" ++ [55357; 56541]%N ++ lit " Live Preview**: See your formatted content in real-time  ";
      lit "- **" ++ [55356; 57256]%N ++ lit " Syntax Highlighting**: Beautiful code blocks with proper highlighting";
      lit "- **" ++ [55357; 56522]%N ++ lit " Export Options**: Save as Markdown, HTML, or copy to clipboard";
      lit "- **" ++ [55357; 56594]%N ++ lit " Secure**: Optional JWT authentication with session management";
      lit "- **" ++ [55357; 56561]%N ++ lit " Responsive**: Works perfectly on desktop and mobile";
      [];
      lit "## " ++ [55357; 56960]%N ++ lit " Quick Start";
      [];
      lit "1. **Enter Text**: Type or paste your raw text (max " ++ ofNat (MAX_TEXT_LENGTH cfg) ++ lit " characters)";
      lit "2. **Choose Format**: Select from AI processing options below";
      lit "3. **Process**: Click a format button to transform your text";
      lit "4. **Export**: Use toolbar buttons to save or copy your content";
      [];
      lit "## " ++ [55357; 56481]%N ++ lit " Tips";
      [];
      lit "- Try the " ++ [34]%N ++ lit "Dev.to Article" ++ [34]%N ++ lit " format for technical blog posts";
      lit "- Use " ++ [34]%N ++ lit "Tutorial" ++ [34]%N ++ lit " format for step-by-step guides  ";
      lit "- " ++ [34]%N ++ lit "README" ++ [34]%N ++ lit " format creates professional documentation";
      lit "- " ++ [34]%N ++ lit "ChatGPT Prompt" ++ [34]%N ++ lit " formats text for AI interactions";
      lit "- Try new platform formats: Peerlist, Twitter, LinkedIn, Daily.dev";
      [];
      lit "**Ready to transform your text? Replace this content and click a format button below!**" ].

(** [getDefaultContent()]: empty when the box of the prefilled text is
    there and unchecked. *)
Definition getDefaultContent (cfg : Config) (w : World) : jsstring :=
  if checked (enablePrefilledBox w) then welcomeText cfg else [].

(** *** Text selection of the editor *)

(** [s.substring(a, b)]: both indices are clamped to the length and
    swapped when [a] is the larger. *)
Definition substring (a b : nat) (s : jsstring) : jsstring :=
  let a' := Nat.min a (List.length s) in
  let b' := Nat.min b (List.length s) in
  firstn (Nat.max a' b' - Nat.min a' b') (skipn (Nat.min a' b') s).

(** [s.substring(a)]. *)
Definition substringFrom (a : nat) (s : jsstring) : jsstring := skipn a s.

(** [editor.selectionStart] and [editor.selectionEnd]. *)
Record Selection := {
  selectionStart : nat;
  selectionEnd : nat
}.

(** [editor.setSelectionRange(a, b)] on a control that holds [value]:
    the indices are clamped to the length, and an end in front of the
    start collapses the selection at the end. *)
Definition setSelectionRange (a b : nat) (value : jsstring) : Selection :=
  let e := Nat.min b (List.length value) in
  {| selectionStart := Nat.min (Nat.min a (List.length value)) e;
     selectionEnd := e |}.

(** *** [insertFormat] (lines 388-422) *)

Definition exceedMessage : jsstring :=
  [9888; 65039]%N ++ lit " Text would exceed character limit".

(** [insertFormat(before, after, placeholder)] with three strings, as
    the buttons of the toolbar call it; nothing in the [try] block
    throws then.  The selection of the editor is passed in and handed
    back. *)
Definition insertFormat (cfg : Config) (before after placeholder : jsstring)
           (sel : Selection) (w : World) : Selection * World :=
  let start := selectionStart sel in
  let end_ := selectionEnd sel in
  let selectedText := substring start end_ (editorValue w) in
  let textToInsert := if truthy selectedText then selectedText else placeholder in
  let newText := before ++ textToInsert ++ after in
  let newTotalLength :=
    (Z.of_nat (List.length (editorValue w)) - (Z.of_nat end_ - Z.of_nat start)
     + Z.of_nat (List.length newText))%Z in
  if (Z.of_nat (MAX_TEXT_LENGTH cfg) <? newTotalLength)%Z then
    (sel, showNotification exceedMessage Warning w)
  else
    let w1 :=
      setEditorValue (substring 0 start (editorValue w) ++ newText
                      ++ substringFrom end_ (editorValue w)) w in
    let sel' :=
      if negb (truthy selectedText) then
        setSelectionRange (start + List.length before)
                          (start + List.length before + List.length placeholder)
                          (editorValue w1)
      else
        setSelectionRange (start + List.length newText) (start + List.length newText)
                          (editorValue w1) in
    (sel', dispatchInput w1).

(** *** The paste listener (lines 151-163) *)

Definition truncatedMessage (cfg : Config) : jsstring :=
  [9888; 65039]%N ++ lit " Text truncated to " ++ ofNat (MAX_TEXT_LENGTH cfg)
  ++ lit " characters".

(** The callback that the listener schedules, run once the pasted text
    is in the editor. *)
Definition afterPaste (cfg : Config) (w : World) : World :=
  let content := editorValue w in
  if (MAX_TEXT_LENGTH cfg <? List.length content)%nat then
    showNotification (truncatedMessage cfg) Warning
                     (setEditorValue (substring0 (MAX_TEXT_LENGTH cfg) content) w)
  else w.

(** *** The box of the prefilled text (lines 190-210) *)

Definition setPrefilledBox (box : option bool) (w : World) : World :=
  {| editorState := editorState w;
     editorValue := editorValue w;
     enableIconsBox := enableIconsBox w;
     enablePrefilledBox := box;
     selectorError := selectorError w;
     now := now w;
     trace := trace w |}.

Definition welcomePhrase : jsstring := lit "Welcome to MarkdownGPT".

(** The user sets the box to [checkedNow] and its [change] listener
    runs; [this.checked] is [checkedNow]. *)
Definition prefilledChanged (cfg : Config) (checkedNow : bool) (w0 : World) : World :=
  let w := setPrefilledBox (Some checkedNow) w0 in
  let w1 :=
    if negb checkedNow then
      let currentContent := trim (editorValue w) in
      let defaultContent := trim (getDefaultContent cfg w) in
      if JS.eqb currentContent defaultContent || includes welcomePhrase currentContent
      then dispatchInput (setEditorValue [] w)
      else w
    else
      if negb (truthy (trim (editorValue w)))
      then dispatchInput (setEditorValue (getDefaultContent cfg w) w)
      else w in
  showNotification
    (lit "Prefilled text " ++ (if checkedNow then lit "enabled" else lit "disabled"))
    Info w1.

(** *** [clearEditor] and [clearPrefilled] (lines 1286-1331)

    [confirm] is the user: the answer to each question asked. *)

Definition clearEditor (cfg : Config) (confirm : jsstring -> bool) (w : World) : World :=
  if confirm (lit "Are you sure you want to clear all content? This action cannot be undone.")
  then
    showNotification
      ([55357; 56785; 65039]%N ++ lit " Editor cleared and reset to default") Info
      (dispatchInput (setEditorValue (getDefaultContent cfg w) w))
  else w.

Definition clearPrefilled (cfg : Config) (confirm : jsstring -> bool) (w : World) : World :=
  let currentContent := trim (editorValue w) in
  let defaultContent := trim (getDefaultContent cfg w) in
  if JS.eqb currentContent defaultContent || includes welcomePhrase currentContent then
    showNotification ([55357; 56541]%N ++ lit " Prefilled text cleared") Info
                     (dispatchInput (setEditorValue [] w))
  else if confirm (lit "This will clear all content. Are you sure?") then
    showNotification ([55357; 56541]%N ++ lit " Content cleared") Info
                     (dispatchInput (setEditorValue [] w))
  else w.

(** *** Copying to the clipboard (lines 1457-1510) *)

(** The clipboard of the browser: how [navigator.clipboard.writeText]
    settles, when the page is a secure context that has it, and what
    [document.execCommand('copy')] answers on the selected text. *)
Record Clipboard := {
  writeText : option (jsstring -> Completion unit);
  execCommandCopy : jsstring -> Completion bool
}.

Definition copiedMessage : jsstring :=
  [55357; 56523]%N ++ lit " Content copied to clipboard!".

Definition nothingToCopyMessage : jsstring :=
  [55357; 56523]%N ++ lit " Nothing to copy - editor is empty".

Definition copyFailedMessage : jsstring :=
  [10060]%N ++ lit " Failed to copy to clipboard. Please select and copy manually.".

Definition fallbackCopyToClipboard (env : Clipboard) (text : jsstring) (w : World)
  : World :=
  let failed (error : JsError) :=
    showNotification copyFailedMessage Error
                     (logError (lit "Fallback copy failed") (Some error) [] w) in
  match execCommandCopy env text with
  | Normal true => showNotification copiedMessage Success w
  | Normal false => failed (newError (lit "Copy command failed"))
  | Thrown error => failed error
  end.

(** [copyToClipboard()], with the reactions to the promise of
    [writeText] once it has settled.  The editor is an element of the
    page, so that line 1460 does not throw, and [writeText] answers with
    a promise: the handler of lines 1480-1483 is not entered. *)
Definition copyToClipboard (env : Clipboard) (w : World) : World :=
  let content := editorValue w in
  if negb (truthy (trim content)) then
    showNotification nothingToCopyMessage Warning w
  else
    match writeText env with
    | Some write =>
        match write content with
        | Normal _ => showNotification copiedMessage Success w
        | Thrown error =>
            fallbackCopyToClipboard env content
              (logError (lit "Clipboard API failed") (Some error) [] w)
        end
    | None => fallbackCopyToClipboard env content w
    end.

(** *** [optimizeForDevTo] and [optimizeForChatGPT] (lines 838-884) *)

Definition frontMatter : jsstring :=
  join [LF]
    [ lit "---";
      lit "title: " ++ [34]%N ++ lit "Your Title Here" ++ [34]%N;
      lit "published: false";
      lit "description: " ++ [34]%N ++ lit "Brief description" ++ [34]%N;
      lit "tags: [javascript, tutorial, webdev]";
      lit "canonical_url: ";
      lit "cover_image: ";
      lit "---";
      [];
      [] ].

(** [\w]. *)
Definition isWordChar (c : N) : bool :=
  (((48 <=? c) && (c <=? 57)) || ((65 <=? c) && (c <=? 90))
   || ((97 <=? c) && (c <=? 122)) || (c =? 95))%N.

(** [/```(\w+)/] replaced by ['```$1']. *)
Definition fenceWithLanguage : matcher := fun s =>
  if startsWith (lit "```") s then
    match takeWhile isWordChar (skipn 3 s) with
    | [] => None
    | word => Some (3 + List.length word, lit "```" ++ word)%nat
    end
  else None.

(** The text that [optimizeForDevTo] writes back. *)
Definition devToText (content : jsstring) : jsstring :=
  replaceAll fenceWithLanguage
             (if negb (includes (lit "---") content) then frontMatter ++ content
              else content).

Definition optimizeForDevTo (w : World) : World :=
  dispatchInput (setEditorValue (devToText (editorValue w)) w).

(** The body of the loop of [optimizeForChatGPT], for one line. *)
Definition chatGPTLine (line : jsstring) : jsstring :=
  if startsWith (lit "Q:") line || startsWith (lit "Question:") line then
    lit "**" ++ line ++ lit "**"
  else if startsWith (lit "A:") line || startsWith (lit "Answer:") line then
    lit "**" ++ line ++ lit "**"
  else if includes (lit "please") line || includes (lit "can you") line then
    lit "> " ++ line
  else line.

Definition optimizeForChatGPT (w : World) : World :=
  dispatchInput
    (setEditorValue (join [LF] (map chatGPTLine (split LF (editorValue w)))) w).

(** *** Templates (lines 904-1166) *)

(** Lines 906-936. *)
Definition template_dev_article : jsstring :=
  join [LF]
    [ lit "# Your Article Title";
      [];
      lit "Brief introduction to your topic...";
      [];
      lit "## Introduction";
      [];
      lit "Explain what you'll cover in this article.";
      [];
      lit "## Main Content";
      [];
      lit "### Subsection 1";
      [];
      lit "Your content here...";
      [];
      lit "```javascript";
      lit "// Code example";
      lit "const example = " ++ [34]%N ++ lit "Hello World" ++ [34]%N ++ lit ";";
      lit "console.log(example);";
      lit "```";
      [];
      lit "### Subsection 2";
      [];
      lit "More content...";
      [];
      lit "## Conclusion";
      [];
      lit "Wrap up your thoughts...";
      [];
      lit "---";
      [];
      lit "Thanks for reading! Follow me for more content." ].

(** Lines 938-968. *)
Definition template_tutorial : jsstring :=
  join [LF]
    [ lit "# Step-by-Step Tutorial: [Topic]";
      [];
      lit "## Prerequisites";
      [];
      lit "- Requirement 1";
      lit "- Requirement 2";
      lit "- Requirement 3";
      [];
      lit "## Step 1: Setup";
      [];
      lit "First, let's set up our environment...";
      [];
      lit "```bash";
      lit "npm install package-name";
      lit "```";
      [];
      lit "## Step 2: Configuration";
      [];
      lit "Next, we'll configure...";
      [];
      lit "## Step 3: Implementation";
      [];
      lit "Now let's implement the solution...";
      [];
      lit "## Step 4: Testing";
      [];
      lit "Finally, let's test our implementation...";
      [];
      lit "## Conclusion";
      [];
      lit "You've successfully learned how to..." ].

(** Lines 970-981. *)
Definition template_chatgpt_prompt : jsstring :=
  join [LF]
    [ lit "**Context:** Provide clear context about what you need";
      [];
      lit "**Task:** Clearly state what you want ChatGPT to do";
      [];
      lit "**Requirements:**";
      lit "- Specific requirement 1";
      lit "- Specific requirement 2";
      lit "- Output format needed";
      [];
      lit "**Example:** If helpful, provide an example of what you're looking for";
      [];
      lit "**Additional Notes:** Any extra context or constraints" ].

(** Lines 983-1018. *)
Definition template_readme : jsstring :=
  join [LF]
    [ lit "# Project Name";
      [];
      lit "Brief description of what this project does.";
      [];
      lit "## Features";
      [];
      lit "- Feature 1";
      lit "- Feature 2";
      lit "- Feature 3";
      [];
      lit "## Installation";
      [];
      lit "```bash";
      lit "npm install project-name";
      lit "```";
      [];
      lit "## Usage";
      [];
      lit "```javascript";
      lit "const project = require('project-name');";
      lit "project.doSomething();";
      lit "```";
      [];
      lit "## API Reference";
      [];
      lit "### Method 1";
      [];
      lit "Description of method...";
      [];
      lit "## Contributing";
      [];
      lit "Contributions are welcome! Please feel free to submit a Pull Request.";
      [];
      lit "## License";
      [];
      lit "This project is licensed under the MIT License." ].

(** Lines 1021-1052. *)
Definition template_peerlist_article : jsstring :=
  join [LF]
    [ lit "# Professional Insight: [Your Topic]";
      [];
      lit "## The Challenge";
      [];
      lit "Describe the professional challenge or situation you encountered...";
      [];
      lit "## Key Insights";
      [];
      lit "### Insight 1";
      lit "Your first key learning or insight...";
      [];
      lit "### Insight 2";
      lit "Another important realization...";
      [];
      lit "### Insight 3";
      lit "A third valuable takeaway...";
      [];
      lit "## Practical Application";
      [];
      lit "How can others apply these insights in their own work?";
      [];
      lit "- Actionable tip 1";
      lit "- Actionable tip 2";
      lit "- Actionable tip 3";
      [];
      lit "## Key Takeaway";
      [];
      lit "**The main lesson:** Summarize the core message that advances your career or professional growth.";
      [];
      lit "---";
      [];
      lit "What's your experience with this? Share your thoughts below!" ].

(** Lines 1054-1072. *)
Definition template_twitter_post : jsstring :=
  join [LF]
    [ [55358; 56821]%N ++ lit " Thread: [Your Topic]";
      [];
      lit "1/7 Hook: Start with an attention-grabbing statement or question...";
      [];
      lit "2/7 Problem: Identify the key issue or challenge...";
      [];
      lit "3/7 Solution: Present your main insight or approach...";
      [];
      lit "4/7 Example: Give a concrete example or case study...";
      [];
      lit "5/7 Benefits: Highlight the positive outcomes...";
      [];
      lit "6/7 Action: Tell people what they should do next...";
      [];
      lit "7/7 Conclusion: Wrap up with a key takeaway and encourage engagement.";
      [];
      lit "What do you think? Drop a reply with your experience! " ++ [55357; 56960]%N;
      [];
      lit "#YourHashtag #Relevant #Tags" ].

(** Lines 1074-1100. *)
Definition template_linkedin_post : jsstring :=
  join [LF]
    [ [55357; 56960]%N ++ lit " [Attention-grabbing headline about your topic]";
      [];
      lit "I recently discovered something fascinating about [topic]...";
      [];
      lit "Here's what happened:";
      [8594]%N ++ lit " Context about the situation";
      [8594]%N ++ lit " The challenge you faced";
      [8594]%N ++ lit " What you learned";
      [];
      lit "The key insight? ";
      lit "[Your main takeaway or lesson learned]";
      [];
      lit "This changed my perspective because:";
      [8226]%N ++ lit " Point 1 about impact";
      [8226]%N ++ lit " Point 2 about application";
      [8226]%N ++ lit " Point 3 about results";
      [];
      [55357; 56481]%N ++ lit " Key takeaway: [One sentence summary]";
      [];
      lit "---";
      [];
      lit "What's your experience with this? I'd love to hear your thoughts in the comments!";
      [];
      [9851; 65039]%N ++ lit " Repost if you found this valuable";
      [55357; 56421]%N ++ lit " Follow me for more insights on [your area of expertise]";
      [];
      lit "#Leadership #Professional #YourIndustry #Networking" ].

(** Lines 1102-1159. *)
Definition template_dailydev_article : jsstring :=
  join [LF]
    [ lit "# [Your Development Topic] " ++ [55357; 56960]%N;
      [];
      lit "*A practical guide for developers*";
      [];
      lit "## TL;DR";
      lit "- Quick summary point 1";
      lit "- Quick summary point 2  ";
      lit "- Quick summary point 3";
      [];
      lit "## The Problem";
      [];
      lit "Describe the development challenge you're addressing...";
      [];
      lit "## The Solution";
      [];
      lit "```javascript";
      lit "// Your code example here";
      lit "const solution = {";
      lit "    approach: 'clean and readable',";
      lit "    benefits: ['performance', 'maintainability', 'scalability']";
      lit "};";
      lit "```";
      [];
      lit "### Step-by-step implementation:";
      [];
      lit "1. **First step**: Explain what to do...";
      lit "2. **Second step**: Next action...";
      lit "3. **Third step**: Final implementation...";
      [];
      lit "## Code Example";
      [];
      lit "```javascript";
      lit "// Complete working example";
      lit "function practicalExample() {";
      lit "    // Your implementation";
      lit "    return 'working code';";
      lit "}";
      lit "```";
      [];
      lit "## Best Practices";
      [];
      lit "- " ++ [9989]%N ++ lit " Do this for better results";
      lit "- " ++ [9989]%N ++ lit " Remember this important point";
      lit "- " ++ [10060]%N ++ lit " Avoid this common mistake";
      [];
      lit "## Conclusion";
      [];
      lit "Key takeaways:";
      lit "- Main learning point 1";
      lit "- Main learning point 2";
      lit "- Main learning point 3";
      [];
      lit "Happy coding! " ++ [55357; 56960]%N;
      [];
      lit "What's your experience with this approach? Let me know in the comments!";
      [];
      lit "---";
      lit "*Follow for more dev tips and tricks*" ].

Definition templates : list (string * jsstring) :=
  [ ("dev-article", template_dev_article);
    ("tutorial", template_tutorial);
    ("chatgpt-prompt", template_chatgpt_prompt);
    ("readme", template_readme);
    ("peerlist-article", template_peerlist_article);
    ("twitter-post", template_twitter_post);
    ("linkedin-post", template_linkedin_post);
    ("dailydev-article", template_dailydev_article) ]%string.

(** [templates[format]] for a format name: the own properties of the
    object.  The names that every object inherits, such as
    [constructor], are no format names. *)
Definition templateOf (format : jsstring) : option jsstring :=
  option_map snd (find (fun kv => JS.eqb (lit (fst kv)) format) templates).


(** *** [applyFormat] (lines 886-902) *)



(* ================================================================== *)
(** ** [autoFormat] (lines 425-528) *)
(* ================================================================== *)

(** Lines 458-465. *)
Definition detectFormat (content : jsstring) : jsstring :=
  if includes (lit "function") content || includes (lit "const") content
     || includes (lit "class") content
  then lit "dev-article"
  else if includes (lit "step") (toLowerCase content)
          || includes (lit "tutorial") (toLowerCase content)
  then lit "tutorial"
  else if includes (lit "please") content || includes (lit "can you") content
          || includes (lit "prompt") content
  then lit "chatgpt-prompt"
  else lit "general".

(** The body of the request of [autoFormat] (lines 468-478); no token
    is added. *)
Record AutoPayload := {
  ap_text : jsstring;
  ap_prompt : jsstring;
  ap_format : jsstring;
  ap_sessionId : jsstring
}.

(** How [autoFormat] starts: with an alert box, after which it returns,
    or with its request. *)
Inductive AutoFormatStart :=
| Alerted (message : jsstring)
| Sent (payload : AutoPayload).

(** Lines 426-488, up to the [fetch]. *)
Definition autoFormatStart (w : World) : AutoFormatStart :=
  let content := trim (editorValue w) in
  if negb (truthy content) then
    Alerted (lit "Please enter some text to format.")
  else if (1000 <? List.length content)%nat then
    Alerted (lit "Text is too long. Please limit to 1000 characters.")
  else
    Sent {| ap_text := content;
            ap_prompt := lit "Format this text for better readability and structure";
            ap_format := detectFormat content;
            ap_sessionId := match sessionId (editorState w) with
                            | Some s => if truthy s then s else lit "anonymous"
                            | None => lit "anonymous"
                            end |}.

(** [editor.value = v]: the attribute takes [null] as the empty string
    and any other value as [String(v)]. *)
Definition toEditorValue (v : JsValue) : jsstring :=
  match v with
  | VNull => []
  | _ => toStringValue v
  end.

Definition autoFormatDoneMessage : jsstring :=
  [10024]%N ++ lit " Auto-formatting completed!".

(** Lines 490-505, once the [fetch] has settled as [reply]. *)
Definition autoFormatReply (reply : FetchResult) : Sync unit :=
  (response <- lift (match reply with
                     | Rejected e => Thrown e
                     | Responded r => Normal r
                     end) ;;
   if negb (ok response) then
     errorData <- lift (json response) ;;
     e <- lift (getProp b_error "error" errorData) ;;
     lift (Thrown (newError (if truthyValue e then toStringValue e
                             else lit "Processing failed")))
   else
     result <- lift (json response) ;;
     s <- lift (getProp b_success "success" result) ;;
     if truthyValue s then
       processedText <- lift (getProp b_processedText "processedText" result) ;;
       effect (setEditorValue (toEditorValue processedText)) ;;
       effect dispatchInput ;;
       effect (showNotification autoFormatDoneMessage Success)
     else
       e <- lift (getProp b_error "error" result) ;;
       lift (Thrown (newError (if truthyValue e then toStringValue e
                               else lit "Processing failed"))))%sync.

(** The [catch] clause, lines 507-519. *)
Definition autoFormatFailed (error : JsError) : Sync unit :=
  if includes (lit "Rate limit") (err_message error) then
    effect (showNotification
              ([9201; 65039]%N
               ++ lit " Rate limit exceeded. Please wait before trying again.")
              Warning)
  else if includes (lit "Authentication") (err_message error) then
    effect (showNotification
              ([55357; 56592]%N
               ++ lit " Authentication failed. Please refresh the page.")
              Error)
  else
    (effect (showNotification ([10060]%N ++ lit " Error: " ++ err_message error) Error) ;;
     _ <- autoFormatLocal ;;
     sret tt)%sync.

(** What [autoFormat] does to the page once its request has settled;
    the [finally] block restores the button. *)
Definition autoFormatSettled (reply : FetchResult) : Sync unit :=
  tryCatch (autoFormatReply reply) autoFormatFailed.


(* ================================================================== *)
(** ** Notions used to state the properties *)
(* ================================================================== *)

(** The test of line 806: the line is taken for a step. *)
Definition isStepLine (line : jsstring) : bool :=
  includes (lit "step") (toLowerCase line) && negb (startsWith (lit "#") line).

(** How many of the lines [ls] are the line [l]. *)
Definition countLines (l : jsstring) (ls : list jsstring) : nat :=
  List.length (filter (JS.eqb l) ls).

Definition openingFence : jsstring := lit "```javascript".
Definition closingFence : jsstring := lit "```".

(** The non-blank lines of a text, which [enrichTwitterContent] works
    on (line 1373). *)
Definition nonBlankLines (content : jsstring) : list jsstring :=
  filter (fun line => truthy (trim line)) (split LF content).

(** Three line feeds in a row. *)
Definition tripleLF : jsstring := [LF; LF; LF].

(** A line of the text that is no fence itself. *)
Definition noFence (line : jsstring) : Prop :=
  line <> openingFence /\ line <> closingFence.

(** The tweets built so far, the current one included, are the lines
    read so far. *)
Definition tweetsKeep (st : list jsstring * jsstring) (done : list jsstring) : Prop :=
  (done = [] /\ st = ([], []))
  \/ (done <> [] /\ snd st <> []
      /\ join [LF] (fst st ++ [snd st]) = join [LF] done).

(** The line feeds at the head of a text. *)
Definition leadingLF (s : jsstring) : nat := List.length (takeWhile (N.eqb LF) s).

(** The page after any number of calls, resumptions and changes. *)
Inductive evolves (cfg : Config) : Sys -> Sys -> Prop :=
| evolves_refl s : evolves cfg s s
| evolves_step s s' s'' : evolves cfg s s' -> step cfg s' s'' -> evolves cfg s s''.

(** The [DOMException] of [querySelector] for a text that is no selector. *)
Definition selectorSyntaxError : JsError :=
  {| err_name := lit "SyntaxError";
     err_message := lit "Failed to execute 'querySelector' on 'Document': not a valid selector.";
     err_stack := lit "SyntaxError: Failed to execute 'querySelector' on 'Document'" |}.

(** A page on which the selector of a format is malformed when the
    format holds a double quote, as [[data-format="..."]] then is. *)
Definition pageWithSelectors (value : jsstring) : World :=
  {| editorState := initialEditorState;
     editorValue := value;
     enableIconsBox := Some true;
     enablePrefilledBox := Some true;
     selectorError := fun format =>
                        if existsb (N.eqb 34) format then Some selectorSyntaxError
                        else None;
     now := 0;
     trace := [] |}.


(** One of the five line markers of [convertBasicMarkdown] stands at the
    start of a line of the text; [atStart] says that the head of [s] is
    the start of a line. *)
Fixpoint hasLineMarker (atStart : bool) (s : jsstring) : bool :=
  match s with
  | [] => false
  | c :: t =>
      (atStart
       && existsb (fun marker => startsWith (lit marker) s)
                  ["### "; "## "; "# "; "> "; "- "]%string)
      || hasLineMarker (isLineTerminator c) t
  end.

(** A text without inline markup: no asterisk and no backtick. *)
Definition noInlineMarkup (s : jsstring) : Prop :=
  Forall (fun c => c <> 42%N /\ c <> 96%N) s.

(** The text ends in a word; [inWord] says so for the text in front of
    [s]. *)
Fixpoint endsInWord (inWord : bool) (s : jsstring) : bool :=
  match s with
  | [] => inWord
  | c :: t => endsInWord (negb (isWhiteSpace c)) t
  end.

(** A text as a text control hands it out: without carriage return. *)
Definition noCR (s : jsstring) : Prop := ~ In 13%N s.

(** The welcome text in front of the printed limit, and after the line
    that holds it. *)
Definition welcomeHead : jsstring := firstn 636 (welcomeText CONFIG).
Definition welcomeTail : jsstring := skipn 652 (welcomeText CONFIG).

(** A user who declines every question. *)
Definition declines : jsstring -> bool := fun _ => false.


(** A text of one line without inline markup: no asterisk, no backtick
    and no line terminator. *)
Definition plainLine (s : jsstring) : Prop :=
  Forall (fun c => c <> 42%N /\ c <> 96%N /\ isLineTerminator c = false) s.

(** A code unit that is neither one of the two dashes of line 1342 nor
    a pictograph of the Basic Multilingual Plane in the class of line
    1341. *)
Definition plainUnit (c : N) : bool :=
  negb (Re.isIcon c) && negb ((c =? 8212) || (c =? 8211))%N.

(** A text without dashes and without pictographs of the Basic
    Multilingual Plane. *)
Definition plainText (s : jsstring) : Prop := Forall (fun c => plainUnit c = true) s.

(* ================================================================== *)
(** * Sanity checks of the string primitives *)
(* ================================================================== *)

Example trim_example :
  trim (lit "  ab c " ++ [LF]) = lit "ab c".
Proof. reflexivity. Qed.

Example split_example :
  split LF (lit "a" ++ [LF; LF] ++ lit "bc") = [lit "a"; []; lit "bc"].
Proof. reflexivity. Qed.

Example ofNat_example : ofNat 280 = lit "280".
Proof. reflexivity. Qed.

Example icons_example :
  replaceAll Re.icons ([55357; 56960]%N ++ lit "go " ++ [9728; 55357]%N ++ lit "!")
  = lit "go " ++ [55357]%N ++ lit "!".
Proof. reflexivity. Qed.

Example newlines3_example :
  replaceAll Re.newlines3 (lit "a" ++ [LF; LF; LF; LF] ++ lit "b" ++ [LF; LF] ++ lit "c")
  = lit "a" ++ [LF; LF] ++ lit "b" ++ [LF; LF] ++ lit "c".
Proof. reflexivity. Qed.

Example sentenceGap_example :
  replaceAll Re.sentenceGap (lit "One.Two!   Three? four.") = lit "One. Two! Three? four.".
Proof. reflexivity. Qed.

Example bareFence_example :
  replaceAll Re.bareFence (lit "```" ++ [SPACE; LF; LF] ++ lit "x" ++ [LF] ++ lit "```js" ++ [LF])
  = lit "```javascript" ++ [LF] ++ lit "x" ++ [LF] ++ lit "```js" ++ [LF].
Proof. reflexivity. Qed.

Example stepLabel_example :
  replaceFirst Re.stepLabel (lit "my Step 12: do it, step 2") = lit "my do it, step 2".
Proof. reflexivity. Qed.

Example formatAsArticle_example :
  formatAsArticle (lit "Hello world" ++ [LF] ++ lit "A sentence, with a comma.")
  = lit "## Hello world" ++ [LF] ++ lit "A sentence, with a comma.".
Proof. reflexivity. Qed.

Example formatAsCode_example :
  formatAsCode (lit "const a = 1;" ++ [LF] ++ lit "text")
  = lit "```javascript" ++ [LF] ++ lit "const a = 1;" ++ [LF] ++ lit "```"
    ++ [LF; LF] ++ lit "text".
Proof. reflexivity. Qed.

Example formatAsTutorial_example :
  formatAsTutorial (lit "Step 1: install" ++ [LF] ++ lit "then the next STEP")
  = lit "## Step 1: install" ++ [LF] ++ lit "## Step 2: then the next ".
Proof. reflexivity. Qed.

(* ================================================================== *)
(** * Properties *)
(* ================================================================== *)

Unset Implicit Arguments.

(** ** The error log *)

Lemma sliceLast_length {A} (n : nat) (a : list A) :
  List.length (sliceLast n a) = Nat.min n (List.length a).
Proof.
  unfold sliceLast. rewrite length_skipn. lia.
Qed.

Lemma sliceLast_last {A} (n : nat) (a : list A) (x d : A) :
  (0 < n)%nat -> last (sliceLast n (a ++ [x])) d = x.
Proof.
  intros Hn. unfold sliceLast.
  rewrite length_app, skipn_app. simpl List.length.
  replace (List.length a + 1 - n - List.length a)%nat with 0%nat by lia.
  simpl skipn. apply last_last.
Qed.

(** C10.  After a call of [logError] the log [editorState.errors] holds
    at most 10 records, [editorState.lastError] is the record of this
    call, and that record is the newest entry of the log. *)
Theorem logError_keeps_last_ten :
  forall (message : jsstring) (err : option JsError) (context : Context) (w : World),
    let w' := logError message err context w in
    let record := errorInfo message err context w in
    (List.length (errors (editorState w')) <= 10)%nat
    /\ lastError (editorState w') = Some record
    /\ last (errors (editorState w')) record = record
    /\ (exists older, errors (editorState w') = older ++ [record]).
Proof.
  intros message err context w. cbv zeta.
  unfold logError. cbn [editorState withEditorState setErrors errors lastError].
  set (record := errorInfo message err context w).
  set (pushed := errors (editorState w) ++ [record]).
  destruct (Nat.ltb_spec 10 (List.length pushed)) as [Hlong | Hshort].
  - repeat split.
    + rewrite sliceLast_length. lia.
    + unfold pushed. apply sliceLast_last. lia.
    + unfold pushed, sliceLast. rewrite length_app, skipn_app. simpl List.length.
      replace (List.length (errors (editorState w)) + 1 - 10
               - List.length (errors (editorState w)))%nat with 0%nat by lia.
      simpl skipn. eexists. reflexivity.
  - repeat split.
    + exact Hshort.
    + unfold pushed. apply last_last.
    + unfold pushed. eexists. reflexivity.
Qed.

(** The log stays within its bound from the start of the page on. *)
Lemma logError_isProcessing message err context w :
  isProcessing (editorState (logError message err context w))
  = isProcessing (editorState w).
Proof. reflexivity. Qed.

Lemma logError_trace message err context w :
  trace (logError message err context w) = trace w.
Proof. reflexivity. Qed.

Lemma logError_editorValue message err context w :
  editorValue (logError message err context w) = editorValue w.
Proof. reflexivity. Qed.

(** ** Enrichment *)

(** On a string no step of the enrichment throws. *)
Lemma enrichSteps_string (s : jsstring) (format : jsstring) (settings : Settings) :
  exists s', enrichSteps (VString s) format settings = Normal (VString s').
Proof.
  unfold enrichSteps, stripIcons.
  destruct (negb (isTrue (enableIcons settings))); cbn [receiver cbind];
    repeat match goal with
           | |- context [if ?b then _ else _] => destruct b
           end;
    cbn; eexists; reflexivity.
Qed.

(** What [enrichContent] returns and does, by the way its steps end. *)
Lemma enrichContent_cases content format settings w :
  match enrichSteps content format settings with
  | Normal enriched =>
      enrichContent content format settings w = (Normal enriched, w)
  | Thrown e =>
      enrichContent content format settings w
      = (Normal content, logError (lit "Content enrichment failed") (Some e) [] w)
  end.
Proof.
  unfold enrichContent, tryCatch, lift, sbind, effect, sret.
  destruct (enrichSteps content format settings); reflexivity.
Qed.

Lemma enrichContent_returns content format settings w :
  exists v w',
    enrichContent content format settings w = (Normal v, w')
    /\ trace w' = trace w
    /\ editorValue w' = editorValue w
    /\ isProcessing (editorState w') = isProcessing (editorState w)
    /\ now w' = now w.
Proof.
  pose proof (enrichContent_cases content format settings w) as H.
  destruct (enrichSteps content format settings);
    rewrite H; do 2 eexists; (split; [reflexivity |]); repeat split.
Qed.

(** C8.  [enrichContent] never throws, whatever it is given: it returns
    the enriched text when no step throws and the original content,
    unchanged, when a step throws; on a string no step throws. *)
Theorem enrichContent_never_raises :
  forall (content : JsValue) (format : jsstring) (settings : Settings) (w : World),
    (exists v w', enrichContent content format settings w = (Normal v, w'))
    /\ (forall e, enrichSteps content format settings = Thrown e ->
                  fst (enrichContent content format settings w) = Normal content)
    /\ (forall v, enrichSteps content format settings = Normal v ->
                  enrichContent content format settings w = (Normal v, w))
    /\ (forall s, content = VString s ->
                  exists s', enrichContent content format settings w
                             = (Normal (VString s'), w)).
Proof.
  intros content format settings w.
  pose proof (enrichContent_cases content format settings w) as H.
  repeat split.
  - destruct (enrichSteps content format settings); rewrite H; eauto.
  - intros e He. rewrite He in H. rewrite H. reflexivity.
  - intros v Hv. rewrite Hv in H. exact H.
  - intros s ->. destruct (enrichSteps_string s format settings) as [s' Hs'].
    rewrite Hs' in H. eauto.
Qed.

(** ** Twitter segmentation *)

Lemma tweetStep_bounded (st : list jsstring * jsstring) (line : jsstring) :
  Forall (fun t => List.length t <= 280)%nat (fst st) ->
  (List.length (snd st) <= 280)%nat ->
  Forall (fun t => List.length t <= 280)%nat (fst (tweetStep st line))
  /\ (List.length (snd (tweetStep st line)) <= 280)%nat.
Proof.
  destruct st as [tweets currentTweet]. cbn [fst snd]. intros Htweets Hcur.
  unfold tweetStep.
  destruct (Nat.leb_spec (List.length (currentTweet ++ [LF] ++ line)) 280) as [Hfit | Hover].
  - cbn [fst snd]. split; [exact Htweets |].
    rewrite !length_app in *. cbn [List.length] in Hfit.
    destruct (truthy currentTweet); cbn [List.length]; lia.
  - cbn [fst snd]. split.
    + destruct (truthy currentTweet); [| exact Htweets].
      apply Forall_app. split; [exact Htweets | constructor; [exact Hcur | constructor]].
    + destruct (Nat.leb_spec (List.length line) 280) as [Hline | Hlong]; [exact Hline |].
      unfold substring0. rewrite length_app, length_firstn.
      change (List.length (lit "...")) with 3%nat. lia.
Qed.

Lemma fold_tweetStep_bounded (lines : list jsstring) :
  forall st,
    Forall (fun t => List.length t <= 280)%nat (fst st) ->
    (List.length (snd st) <= 280)%nat ->
    Forall (fun t => List.length t <= 280)%nat (fst (fold_left tweetStep lines st))
    /\ (List.length (snd (fold_left tweetStep lines st)) <= 280)%nat.
Proof.
  induction lines as [| line lines IH]; intros st Htweets Hcur.
  - split; assumption.
  - cbn [fold_left]. destruct (tweetStep_bounded st line Htweets Hcur) as [H1 H2].
    apply IH; assumption.
Qed.

Lemma flush_bounded (st : list jsstring * jsstring) :
  Forall (fun t => List.length t <= 280)%nat (fst st) ->
  (List.length (snd st) <= 280)%nat ->
  Forall (fun t => List.length t <= 280)%nat
         (let (tweets, currentTweet) := st in
          if truthy currentTweet then tweets ++ [currentTweet] else tweets).
Proof.
  destruct st as [tweets currentTweet]. cbn [fst snd]. intros H1 H2.
  destruct (truthy currentTweet); [| exact H1].
  apply Forall_app. split; [exact H1 | constructor; [exact H2 | constructor]].
Qed.

(** Without its number, every tweet has at most 280 code units. *)
Lemma segmentTweets_bounded (lines : list jsstring) :
  Forall (fun t => List.length t <= 280)%nat (segmentTweets lines).
Proof.
  unfold segmentTweets.
  apply flush_bounded; apply fold_tweetStep_bounded; try constructor; cbn; lia.
Qed.

(** C9.  On two lines of 279 letters the twitter enrichment emits two
    chunks of 284 code units each: five for the number ["1/2"] and its
    blank line, then the 279 letters.  The chunks as emitted are not
    within 280. *)
Theorem twitter_numbered_chunks_exceed_280 :
  map (@List.length N) (emittedTweets twoLongLines) = [284; 284]%nat
  /\ enrichTwitterContent (VString twoLongLines)
       {| enableIcons := Some true; enablePrefilled := Some true |}
     = Normal (VString (join tweetSeparator (emittedTweets twoLongLines)))
  /\ map (firstn 5) (emittedTweets twoLongLines)
     = [lit "1/2" ++ [LF; LF]; lit "2/2" ++ [LF; LF]].
Proof.
  repeat split; vm_compute; reflexivity.
Qed.

(** ** Running sequences, [try] blocks and [finally] blocks *)

Arguments lit : simpl never.
Arguments trim : simpl never.
Arguments ofNat : simpl never.
Arguments ofZ : simpl never.
Arguments includes : simpl never.
Arguments JS.eqb : simpl never.
Arguments normalizeNewlines : simpl never.
Arguments localFormat : simpl never.

Lemma run_bind {A B} (p : Proc A) (f : A -> Proc B) :
  forall script w,
    run script (bind p f) w
    = match run script p w with
      | (Finished (Normal a), w', script') => run script' (f a) w'
      | (Finished (Thrown e), w', script') => (Finished (Thrown e), w', script')
      | (Pending, w', script') => (Pending, w', script')
      end.
Proof.
  induction p as [a | e | T g k IH | payload timeoutMs k IH | ms k IH | k IH];
    intros script w; cbn [bind run].
  - reflexivity.
  - reflexivity.
  - destruct (g w) as [t w']. apply IH.
  - destruct script as [| r script']; [reflexivity | apply IH].
  - apply IH.
  - apply IH.
Qed.

Lemma run_catch {A} (p : Proc A) (h : JsError -> Proc A) :
  forall script w,
    run script (catch p h) w
    = match run script p w with
      | (Finished (Normal a), w', script') => (Finished (Normal a), w', script')
      | (Finished (Thrown e), w', script') => run script' (h e) w'
      | (Pending, w', script') => (Pending, w', script')
      end.
Proof.
  induction p as [a | e | T g k IH | payload timeoutMs k IH | ms k IH | k IH];
    intros script w; cbn [catch run].
  - reflexivity.
  - reflexivity.
  - destruct (g w) as [t w']. apply IH.
  - destruct script as [| r script']; [reflexivity | apply IH].
  - apply IH.
  - apply IH.
Qed.

Lemma run_finally {A} (p : Proc A) (fin : World -> World) :
  forall script w,
    run script (finally p fin) w
    = match run script p w with
      | (Finished c, w', script') => (Finished c, fin w', script')
      | (Pending, w', script') => (Pending, w', script')
      end.
Proof.
  induction p as [a | e | T g k IH | payload timeoutMs k IH | ms k IH | k IH];
    intros script w; cbn [finally run].
  - reflexivity.
  - reflexivity.
  - destruct (g w) as [t w']. apply IH.
  - destruct script as [| r script']; [reflexivity | apply IH].
  - apply IH.
  - apply IH.
Qed.

Lemma run_act {B} (f : World -> World) (k : unit -> Proc B) script w :
  run script (bind (act f) k) w = run script (k tt) (f w).
Proof. reflexivity. Qed.

Lemma run_ask {A B} (f : World -> A) (k : A -> Proc B) script w :
  run script (bind (ask f) k) w = run script (k (f w)) w.
Proof. reflexivity. Qed.

Lemma run_sync {A B} (m : Sync A) (k : A -> Proc B) script w :
  run script (bind (sync m) k) w
  = match m w with
    | (Normal a, w') => run script (k a) w'
    | (Thrown e, w') => (Finished (Thrown e), w', script)
    end.
Proof.
  unfold sync. cbn [bind run]. destruct (m w) as [[a | e] w']; reflexivity.
Qed.

(** ** Validation (lines 556-567) *)

(** The two tests of lines 559 and 564. *)
Lemma invalid_text_returns :
  forall (cfg : Config) (element : ElementArg) (format : jsstring)
         (customPrompt : option jsstring) (script : list Reply) (w : World),
    trim (editorValue w) = []
    \/ (MAX_TEXT_LENGTH cfg < List.length (trim (editorValue w)))%nat ->
    let message :=
      match trim (editorValue w) with
      | [] => emptyMessage
      | _ :: _ => tooLongMessage cfg (List.length (trim (editorValue w)))
      end in
    run script (processWithAI cfg element format customPrompt) w
    = (Finished (Normal tt), showNotification message Warning w, script)
    /\ advance (processWithAI cfg element format customPrompt) w
       = (Ret tt, showNotification message Warning w)
    /\ requests (trace (showNotification message Warning w)) = requests (trace w)
    /\ editorState (showNotification message Warning w) = editorState w.
Proof.
  intros cfg element format customPrompt script w Hbad.
  unfold processWithAI. rewrite run_ask. cbn [advance bind ask].
  destruct (trim (editorValue w)) as [| c content] eqn:Hcontent.
  - cbn [truthy negb]. repeat split.
    unfold requests. cbn [trace showNotification emit]. rewrite flat_map_app.
    cbn [flat_map]. now rewrite !app_nil_r.
  - destruct Hbad as [Hempty | Hlong]; [discriminate |].
    apply Nat.ltb_lt in Hlong. cbn [truthy negb]. rewrite Hlong.
    repeat split.
    unfold requests. cbn [trace showNotification emit]. rewrite flat_map_app.
    cbn [flat_map]. now rewrite !app_nil_r.
Qed.

(** C4.  When the trimmed editor text is empty or longer than
    [MAX_TEXT_LENGTH], [processWithAI] returns at once: the call is
    fulfilled, the page is what it was but for one warning, no request is
    issued (none of the replies is consumed), [editorState], and with it
    [isProcessing], is not written, and the call is never suspended. *)
Theorem validation_rejects_before_lock :
  forall (cfg : Config) (element : ElementArg) (format : jsstring)
         (customPrompt : option jsstring) (script : list Reply) (w : World),
    trim (editorValue w) = []
    \/ (MAX_TEXT_LENGTH cfg < List.length (trim (editorValue w)))%nat ->
    let message :=
      match trim (editorValue w) with
      | [] => emptyMessage
      | _ :: _ => tooLongMessage cfg (List.length (trim (editorValue w)))
      end in
    run script (processWithAI cfg element format customPrompt) w
    = (Finished (Normal tt), showNotification message Warning w, script)
    /\ advance (processWithAI cfg element format customPrompt) w
       = (Ret tt, showNotification message Warning w)
    /\ requests (trace (showNotification message Warning w)) = requests (trace w)
    /\ editorState (showNotification message Warning w) = editorState w.
Proof.
  intros cfg element format customPrompt script w Hbad.
  exact (invalid_text_returns cfg element format customPrompt script w Hbad).
Qed.

Lemma validation_rejects_before_lock_witness :
  (trim (editorValue (pageWith (lit "   "))) = []
   \/ (MAX_TEXT_LENGTH CONFIG
       < List.length (trim (editorValue (pageWith (lit "   ")))))%nat)
  /\ run [okReply (lit "unused")]
         (processWithAI CONFIG (ElementString (lit "tutorial")) [] None)
         (pageWith (lit "   "))
     = (Finished (Normal tt),
        showNotification emptyMessage Warning (pageWith (lit "   ")),
        [okReply (lit "unused")]).
Proof.
  split.
  - left. reflexivity.
  - apply (validation_rejects_before_lock CONFIG (ElementString (lit "tutorial")) [] None
             [okReply (lit "unused")] (pageWith (lit "   "))).
    left. reflexivity.
Defined.


(** The test of line 570. *)
Lemma busy_call_returns cfg element format customPrompt script w :
  passesValidation cfg w = true ->
  isProcessing (editorState w) = true ->
  run script (processWithAI cfg element format customPrompt) w
  = (Finished (Normal tt), showNotification busyMessage Info w, script)
  /\ advance (processWithAI cfg element format customPrompt) w
     = (Ret tt, showNotification busyMessage Info w).
Proof.
  unfold passesValidation. intros Hvalid Hbusy.
  apply andb_true_iff in Hvalid. destruct Hvalid as [Hnonempty Hshort].
  apply Nat.leb_le in Hshort.
  assert (Hlen : (MAX_TEXT_LENGTH cfg <? List.length (trim (editorValue w)))%nat = false)
    by (apply Nat.ltb_ge; exact Hshort).
  unfold processWithAI. split.
  - rewrite run_ask, Hnonempty. cbn [negb]. rewrite Hlen, run_ask, Hbusy.
    reflexivity.
  - cbn [advance bind ask]. rewrite Hnonempty. cbn [negb]. rewrite Hlen.
    cbn [advance bind ask]. rewrite Hbusy. reflexivity.
Qed.

Lemma passesValidation_false cfg w :
  passesValidation cfg w = false ->
  trim (editorValue w) = []
  \/ (MAX_TEXT_LENGTH cfg < List.length (trim (editorValue w)))%nat.
Proof.
  unfold passesValidation. intros H. apply andb_false_iff in H.
  destruct H as [H | H].
  - left. destruct (trim (editorValue w)); [reflexivity | discriminate].
  - right. apply Nat.leb_gt in H. exact H.
Qed.

(** ** One attempt *)

Lemma isAbort_newError msg : isAbort (newError msg) = false.
Proof. reflexivity. Qed.

Lemma isAbort_typeError msg : isAbort (typeError msg) = false.
Proof. reflexivity. Qed.

Lemma isAbort_abortError : isAbort abortError = true.
Proof. reflexivity. Qed.

(** [w'] is [w] after the events [delta], with the lock and the editor
    text untouched. *)
Definition stepsTo (w w' : World) (delta : list Event) : Prop :=
  trace w' = trace w ++ delta
  /\ isProcessing (editorState w') = isProcessing (editorState w)
  /\ editorValue w' = editorValue w.

Lemma stepsTo_trans {w1 w2 w3 d1 d2} :
  stepsTo w1 w2 d1 -> stepsTo w2 w3 d2 -> stepsTo w1 w3 (d1 ++ d2).
Proof.
  intros (T1 & F1 & V1) (T2 & F2 & V2). repeat split.
  - rewrite T2, T1, app_assoc. reflexivity.
  - congruence.
  - congruence.
Qed.

Lemma stepsTo_afterRequest cfg payload attempt r w :
  stepsTo w (afterRequest cfg payload attempt r w) (lastAttempt cfg payload attempt).
Proof.
  repeat split. cbn. rewrite <- app_assoc. reflexivity.
Qed.

Lemma stepsTo_afterBackoff attempt w :
  stepsTo w (afterBackoff attempt w)
          [Notified (retryMessage attempt) Info; Slept (waitTime attempt)].
Proof.
  repeat split. cbn. rewrite <- app_assoc. reflexivity.
Qed.

Lemma stepsTo_failed cfg payload attempt r w :
  stepsTo w (afterBackoff attempt (afterRequest cfg payload attempt r w))
          (failedAttempts cfg payload attempt 1).
Proof.
  cbn [failedAttempts]. rewrite app_nil_r.
  apply (stepsTo_trans (stepsTo_afterRequest cfg payload attempt r w)
                       (stepsTo_afterBackoff attempt _)).
Qed.

Lemma failedAttempts_snoc cfg payload attempt n :
  failedAttempts cfg payload attempt 1 ++ failedAttempts cfg payload (S attempt) n
  = failedAttempts cfg payload attempt (S n).
Proof. cbn [failedAttempts app]. reflexivity. Qed.

Lemma retryable_excludes_success cfg r :
  retryable cfg r = true -> succeeds cfg r = false.
Proof.
  unfold retryable, succeeds, failsRetryably, wellFormed.
  destruct (timesOut cfg r); cbn [negb andb]; [discriminate |].
  destruct (result r) as [e | resp]; [reflexivity |].
  destruct (ok resp); cbn [andb]; [| reflexivity].
  destruct (json resp) as [[o | v] | e]; try reflexivity.
  intros H. apply negb_true_iff in H. exact H.
Qed.

Lemma timeout_excludes_success cfg r :
  timesOut cfg r = true -> succeeds cfg r = false.
Proof. unfold succeeds. intros ->. reflexivity. Qed.

Section Loop.

Variable cfg : Config.
Variables (payload : Payload) (format content : jsstring) (startTime : Z).

(** The [try] block of an attempt either throws, with the page as the
    settled request left it, or delivers the text of a well-formed
    reply.  A request that times out throws an abort; a retryable
    failure throws something else. *)
Lemma attemptOnce_cases (attempt : nat) (r : Reply) (script : list Reply) (w : World) :
  let w1 := afterRequest cfg payload attempt r w in
  (exists e,
      run (r :: script) (attemptOnce cfg payload format content startTime attempt) w
      = (Finished (Thrown e), w1, script)
      /\ succeeds cfg r = false
      /\ (timesOut cfg r = true -> isAbort e = true)
      /\ (retryable cfg r = true -> isAbort e = false))
  \/ (exists processedText,
         run (r :: script) (attemptOnce cfg payload format content startTime attempt) w
         = run script (deliver processedText format content startTime attempt) w1
         /\ succeeds cfg r = true).
Proof.
  intros w1. unfold attemptOnce. rewrite run_act. unfold fetch.
  cbn [bind run]. fold w1.
  unfold succeeds, retryable, timesOut, settle.
  destruct (TIMEOUT_MS cfg <=? elapsed r)%Z eqn:Hlate.
  - left. exists abortError. cbn [bind run negb andb].
    repeat split; try reflexivity; intros; try discriminate.
  - cbn [negb andb]. destruct (result r) as [e | resp] eqn:Hresult.
    + left. exists e. cbn [bind run wellFormed failsRetryably].
      repeat split; intros H; try discriminate.
      now apply negb_true_iff in H.
    + cbn [bind run wellFormed failsRetryably].
      destruct (ok resp) eqn:Hok; cbn [negb andb].
      * destruct (json resp) as [j | e] eqn:Hjson.
        -- unfold await, sync, lift, throwNoText.
           destruct j as [o | v].
           ++ cbn [bind run getProp].
              destruct (truthyValue (b_success o)) eqn:Hs; cbn [andb negb].
              ** cbn [bind run getProp].
                 destruct (truthyValue (b_processedText o)) eqn:Ht.
                 --- right. exists (b_processedText o). split; reflexivity.
                 --- left. eexists. cbn [bind run getProp].
                     repeat split; intros; try discriminate; apply isAbort_newError.
              ** left. eexists. cbn [bind run getProp].
                 repeat split; intros; try discriminate; apply isAbort_newError.
           ++ left. destruct v; eexists; cbn [bind run getProp truthyValue];
                repeat split; intros; try discriminate;
                first [apply isAbort_newError | apply isAbort_typeError].
        -- left. exists e. unfold await. cbn [bind run].
           repeat split; intros H; try discriminate.
           now apply negb_true_iff in H.
      * left. unfold throwHttpError, await, sync, lift.
        destruct (json resp) as [[o | v] | e];
          [destruct (truthyValue (b_error o)) eqn:He | destruct v |];
          eexists; cbn [bind catch run getProp truthyValue]; rewrite ?He;
          (repeat split; intros; try discriminate; apply isAbort_newError).
Qed.

(** A well-formed reply is delivered: the enriched text goes to the
    editor, the preview is refreshed and the success is notified. *)
Lemma deliver_run (processedText : JsValue) (attempt : nat)
      (script : list Reply) (w : World) :
  exists w' v,
    run script (deliver processedText format content startTime attempt) w
    = (Finished (Normal tt), w', script)
    /\ trace w'
       = trace w ++ [InputDispatched v;
                     Notified (completedMessage format (now w - startTime)) Success]
    /\ editorValue w' = v
    /\ isProcessing (editorState w') = isProcessing (editorState w).
Proof.
  unfold deliver. rewrite !run_ask, run_sync.
  destruct (enrichContent_returns processedText format
              {| enableIcons := Some (checked (enableIconsBox w));
                 enablePrefilled := Some (checked (enablePrefilledBox w)) |} w)
    as (v & w2 & Heq & Htrace & Hvalue & Hflag & Hnow).
  rewrite Heq. rewrite !run_act. cbn [run].
  eexists. exists (normalizeNewlines (toStringValue v)). split; [reflexivity |].
  cbn [trace logError withEditorState showNotification dispatchInput emit
       setEditorValue editorValue editorState isProcessing setErrors setContent].
  rewrite Htrace, <- app_assoc. cbn [app]. repeat split. exact Hflag.
Qed.

(** One turn of the loop on a reply. *)
Lemma retryLoop_step (remaining attempt : nat) (lastError : option JsError)
      (r : Reply) (script : list Reply) (w : World) :
  let w1 := afterRequest cfg payload attempt r w in
  let loop := run (r :: script)
                  (retryLoop cfg payload format content startTime
                             (S remaining) attempt lastError) w in
  (exists processedText,
      succeeds cfg r = true
      /\ loop = run script (deliver processedText format content startTime attempt) w1)
  \/ (exists e,
         succeeds cfg r = false
         /\ (timesOut cfg r = true -> isAbort e = true)
         /\ (retryable cfg r = true -> isAbort e = false)
         /\ loop
            = if isAbort e then
                (Finished (Thrown (newError (timeoutMessage cfg))), w1, script)
              else if (attempt =? RETRY_ATTEMPTS cfg)%nat then
                (Finished (Thrown e), w1, script)
              else
                run script
                    (retryLoop cfg payload format content startTime
                               remaining (S attempt) (Some e))
                    (afterBackoff attempt w1)).
Proof.
  intros w1 loop. unfold loop, w1. cbn [retryLoop]. rewrite run_catch.
  destruct (attemptOnce_cases attempt r script w)
    as [(e & Hrun & Hnot & Hlate & Hretry) | (t & Hrun & Hok)]; rewrite Hrun.
  - right. exists e. repeat split; try assumption.
    change (JS.eqb (err_name e) (lit "AbortError")) with (isAbort e).
    destruct (isAbort e); [reflexivity |].
    destruct (attempt =? RETRY_ATTEMPTS cfg)%nat; [reflexivity |].
    rewrite run_act. reflexivity.
  - left. exists t. split; [exact Hok |].
    destruct (deliver_run t attempt script (afterRequest cfg payload attempt r w))
      as (w' & v & Hd & _). rewrite Hd. reflexivity.
Qed.

(** The first [n] replies are retryable failures and the next one is
    well formed: the loop returns after [n + 1] requests. *)
Lemma retryLoop_succeeds (failures : list Reply) :
  forall (r : Reply) (rest : list Reply) (remaining attempt : nat)
         (lastError : option JsError) (w : World),
    Forall (fun f => retryable cfg f = true) failures ->
    succeeds cfg r = true ->
    (List.length failures < remaining)%nat ->
    (attempt + List.length failures <= RETRY_ATTEMPTS cfg)%nat ->
    exists w' v m,
      run (failures ++ r :: rest)
          (retryLoop cfg payload format content startTime remaining attempt lastError) w
      = (Finished (Normal tt), w', rest)
      /\ trace w'
         = trace w
           ++ failedAttempts cfg payload attempt (List.length failures)
           ++ lastAttempt cfg payload (attempt + List.length failures)
           ++ [InputDispatched v; Notified m Success]
      /\ editorValue w' = v
      /\ isProcessing (editorState w') = isProcessing (editorState w).
Proof.
  induction failures as [| f failures IH];
    intros r rest remaining attempt lastError w Hall Hok Hrem Hatt;
    (destruct remaining as [| remaining]; [cbn in Hrem; lia |]).
  - cbn [app List.length failedAttempts]. rewrite Nat.add_0_r.
    destruct (retryLoop_step remaining attempt lastError r rest w)
      as [(t & _ & Hloop) | (e & Hnot & _)]; [| congruence].
    rewrite Hloop.
    destruct (deliver_run t attempt rest (afterRequest cfg payload attempt r w))
      as (w' & v & Hd & Htrace & Hvalue & Hflag).
    exists w', v, (completedMessage format
                     (now (afterRequest cfg payload attempt r w) - startTime)).
    split; [exact Hd |]. split; [| split; [exact Hvalue | exact Hflag]].
    rewrite Htrace. cbn [trace afterRequest setNow emit showNotification].
    rewrite <- !app_assoc. reflexivity.
  - inversion Hall as [| ? ? Hf Hall']; subst.
    cbn [List.length] in Hrem, Hatt.
    destruct (retryLoop_step remaining attempt lastError f
                             (failures ++ r :: rest) w)
      as [(t & Hyes & _) | (e & _ & _ & Hretry & Hloop)].
    + unfold retryable, succeeds in *.
      destruct (timesOut cfg f); cbn in *; try discriminate.
      destruct (result f) as [? | resp]; cbn in *; try discriminate.
      destruct (ok resp); cbn in *; try discriminate.
      destruct (json resp); cbn in *; try discriminate.
      rewrite Hyes in Hf. discriminate.
    + cbn [app]. rewrite Hloop, (Hretry Hf).
      replace (attempt =? RETRY_ATTEMPTS cfg)%nat with false
        by (symmetry; apply Nat.eqb_neq; lia).
      destruct (IH r rest remaining (S attempt) (Some e)
                   (afterBackoff attempt (afterRequest cfg payload attempt f w))
                   Hall' Hok ltac:(lia) ltac:(lia))
        as (w' & v & m & Hrun & Htrace & Hvalue & Hflag).
      exists w', v, m. split; [exact Hrun |]. split; [| split; [exact Hvalue |]].
      * rewrite Htrace.
        destruct (stepsTo_failed cfg payload attempt f w) as (T & _ & _).
        rewrite T, <- app_assoc.
        rewrite (app_assoc (failedAttempts cfg payload attempt 1)),
          failedAttempts_snoc.
        replace (S attempt + List.length failures)%nat
          with (attempt + S (List.length failures))%nat by lia.
        reflexivity.
      * rewrite Hflag. reflexivity.
Qed.

(** The first [n] replies are retryable failures and the next request
    times out, or fails on the last attempt: the loop throws after
    [n + 1] requests. *)
Lemma retryLoop_gives_up (failures : list Reply) :
  forall (r : Reply) (rest : list Reply) (remaining attempt : nat)
         (lastError : option JsError) (w : World),
    Forall (fun f => retryable cfg f = true) failures ->
    (List.length failures < remaining)%nat ->
    (attempt + List.length failures <= RETRY_ATTEMPTS cfg)%nat ->
    timesOut cfg r = true
    \/ (retryable cfg r = true
        /\ (attempt + List.length failures)%nat = RETRY_ATTEMPTS cfg) ->
    exists e w',
      run (failures ++ r :: rest)
          (retryLoop cfg payload format content startTime remaining attempt lastError) w
      = (Finished (Thrown e), w', rest)
      /\ stepsTo w w'
                 (failedAttempts cfg payload attempt (List.length failures)
                  ++ lastAttempt cfg payload (attempt + List.length failures))
      /\ (timesOut cfg r = true -> e = newError (timeoutMessage cfg))
      /\ (retryable cfg r = true -> isAbort e = false).
Proof.
  induction failures as [| f failures IH];
    intros r rest remaining attempt lastError w Hall Hrem Hatt Hlast;
    (destruct remaining as [| remaining]; [cbn in Hrem; lia |]).
  - cbn [app List.length failedAttempts]. rewrite Nat.add_0_r.
    cbn [List.length] in Hlast. rewrite Nat.add_0_r in Hlast.
    destruct (retryLoop_step remaining attempt lastError r rest w)
      as [(t & Hyes & _) | (e & _ & Hlate & Hretry & Hloop)].
    + exfalso. destruct Hlast as [Hl | [Hl _]].
      * rewrite (timeout_excludes_success cfg r Hl) in Hyes. discriminate.
      * rewrite (retryable_excludes_success cfg r Hl) in Hyes. discriminate.
    + rewrite Hloop. destruct Hlast as [Hl | [Hl Hfinal]].
      * rewrite (Hlate Hl). do 2 eexists. split; [reflexivity |].
        split; [apply stepsTo_afterRequest |]. split; [reflexivity |].
        intros Hr. unfold retryable in Hr. unfold timesOut in *.
        rewrite Hl in Hr. discriminate.
      * rewrite (Hretry Hl). rewrite Hfinal, Nat.eqb_refl.
        do 2 eexists. split; [reflexivity |].
        split; [rewrite <- Hfinal; apply stepsTo_afterRequest |].
        split; [| exact Hretry].
        intros Hr. unfold retryable in Hl. unfold timesOut in *.
        rewrite Hr in Hl. discriminate.
  - inversion Hall as [| ? ? Hf Hall']; subst.
    cbn [List.length] in Hrem, Hatt, Hlast.
    destruct (retryLoop_step remaining attempt lastError f
                             (failures ++ r :: rest) w)
      as [(t & Hyes & _) | (e & _ & _ & Hretry & Hloop)].
    + exfalso.
      rewrite (retryable_excludes_success cfg f Hf) in Hyes. discriminate.
    + cbn [app]. rewrite Hloop, (Hretry Hf).
      replace (attempt =? RETRY_ATTEMPTS cfg)%nat with false
        by (symmetry; apply Nat.eqb_neq; lia).
      destruct (IH r rest remaining (S attempt) (Some e)
                   (afterBackoff attempt (afterRequest cfg payload attempt f w))
                   Hall' ltac:(lia) ltac:(lia))
        as (e' & w' & Hrun & Hsteps & Hlate' & Hretry').
      { destruct Hlast as [Hl | [Hl Hfinal]]; [left; exact Hl | right].
        split; [exact Hl | lia]. }
      exists e', w'. split; [exact Hrun |]. split; [| split; assumption].
      pose proof (stepsTo_trans (stepsTo_failed cfg payload attempt f w) Hsteps) as H.
      rewrite app_assoc, failedAttempts_snoc in H.
      replace (S attempt + List.length failures)%nat
        with (attempt + S (List.length failures))%nat in H by lia.
      exact H.
Qed.

(** Whatever the replies are, the loop leaves the lock and the editor
    alone while it fails, calls no local formatter, and notifies
    nothing but progress unless it delivers, and then one success.
    It is pending only when the replies run out. *)
Lemma retryLoop_general (remaining : nat) :
  forall (attempt : nat) (lastError : option JsError)
         (script : list Reply) (w : World),
    exists out w' rest delta,
      run script
          (retryLoop cfg payload format content startTime remaining attempt lastError) w
      = (out, w', rest)
      /\ trace w' = trace w ++ delta
      /\ isProcessing (editorState w') = isProcessing (editorState w)
      /\ localFormatCalls delta = []
      /\ match out with
         | Finished (Normal _) => exists m, terminal delta = [(m, Success)]
         | Finished (Thrown _) => terminal delta = [] /\ editorValue w' = editorValue w
         | Pending => terminal delta = [] /\ (List.length script < remaining)%nat
         end.
Proof.
  induction remaining as [| remaining IH]; intros attempt lastError script w.
  - cbn [retryLoop run]. do 3 eexists. exists []. rewrite app_nil_r.
    repeat split.
  - destruct script as [| r script].
    + cbn [retryLoop]. rewrite run_catch. unfold attemptOnce.
      rewrite run_act. unfold fetch. cbn [bind run].
      do 3 eexists. exists (lastAttempt cfg payload attempt).
      split; [reflexivity |]. repeat split.
      * cbn. rewrite <- app_assoc. reflexivity.
      * cbn. lia.
    + destruct (retryLoop_step remaining attempt lastError r script w)
        as [(t & _ & Hloop) | (e & _ & _ & _ & Hloop)]; rewrite Hloop.
      * destruct (deliver_run t attempt script (afterRequest cfg payload attempt r w))
          as (w' & v & Hd & Htrace & Hvalue & Hflag).
        rewrite Hd. do 3 eexists.
        exists (lastAttempt cfg payload attempt
                ++ [InputDispatched v;
                    Notified (completedMessage format
                                (now (afterRequest cfg payload attempt r w) - startTime))
                             Success]).
        split; [reflexivity |]. split; [| split; [exact Hflag | split]].
        -- rewrite Htrace. cbn. rewrite <- !app_assoc. reflexivity.
        -- reflexivity.
        -- eexists. reflexivity.
      * destruct (isAbort e);
          [| destruct (attempt =? RETRY_ATTEMPTS cfg)%nat].
        -- do 3 eexists. exists (lastAttempt cfg payload attempt).
           split; [reflexivity |].
           destruct (stepsTo_afterRequest cfg payload attempt r w) as (T & F & V).
           repeat split; assumption.
        -- do 3 eexists. exists (lastAttempt cfg payload attempt).
           split; [reflexivity |].
           destruct (stepsTo_afterRequest cfg payload attempt r w) as (T & F & V).
           repeat split; assumption.
        -- destruct (IH (S attempt) (Some e) script
                        (afterBackoff attempt (afterRequest cfg payload attempt r w)))
             as (out & w' & rest & delta & Hrun & Htrace & Hflag & Hlocal & Hout).
           exists out, w', rest,
             (failedAttempts cfg payload attempt 1 ++ delta).
           split; [exact Hrun |].
           destruct (stepsTo_failed cfg payload attempt r w) as (T & F & V).
           split; [rewrite Htrace, T, app_assoc; reflexivity |].
           split; [congruence |].
           split; [unfold localFormatCalls in *; rewrite flat_map_app, Hlocal;
                   reflexivity |].
           unfold terminal, notifications in *.
           rewrite flat_map_app, filter_app. cbn [failedAttempts flat_map app filter snd].
           destruct out as [[[] | e'] |]; cbn [app List.length].
           ++ exact Hout.
           ++ destruct Hout as [H1 H2]. split; [exact H1 | congruence].
           ++ destruct Hout as [H1 H2]. split; [exact H1 | lia].
Qed.

End Loop.

(** ** The outer [catch] and [finally] *)

Section Outer.

Variable cfg : Config.

(** The outer [catch] clause logs the error, notifies it, runs the
    local fallback, and never throws. *)
Lemma onFailure_run (format content : jsstring) (startTime : Z)
      (e : JsError) (w : World) :
  exists w',
    onFailure cfg format content startTime e w = (Normal tt, w')
    /\ trace w'
       = trace w ++ Notified (userMessage e) Error
                 :: fallbackEvents cfg (editorValue w)
    /\ isProcessing (editorState w') = isProcessing (editorState w)
    /\ editorValue w'
       = match ENABLE_LOCAL_FALLBACK cfg with
         | Some false => editorValue w
         | _ => normalizeNewlines (localFormat (editorValue w))
         end.
Proof.
  unfold onFailure, localFallback, fallbackEvents, autoFormatLocal.
  destruct (ENABLE_LOCAL_FALLBACK cfg) as [[|] |];
    cbn; eexists; (split; [reflexivity |]); cbn;
    rewrite <- ?app_assoc; repeat split.
Qed.

(** An accepted call is the body that runs under the lock. *)
Lemma processWithAI_accepted (element : ElementArg) (format : jsstring)
      (customPrompt : option jsstring) (script : list Reply) (w : World) :
  passesValidation cfg w = true ->
  isProcessing (editorState w) = false ->
  run script (processWithAI cfg element format customPrompt) w
  = run script (locked cfg element (formatOf element format) customPrompt
                       (trim (editorValue w))) w.
Proof.
  unfold passesValidation. intros Hvalid Hfree.
  apply andb_true_iff in Hvalid. destruct Hvalid as [Hnonempty Hshort].
  unfold processWithAI. rewrite run_ask. fold (formatOf element format).
  rewrite Hnonempty. cbn [negb].
  apply Nat.leb_le in Hshort.
  replace (MAX_TEXT_LENGTH cfg <? List.length (trim (editorValue w)))%nat
    with false by (symmetry; apply Nat.ltb_ge; exact Hshort).
  rewrite run_ask, Hfree. reflexivity.
Qed.

(** Under the lock: when the button is at hand or found, the loop runs;
    what it throws goes to the outer [catch]; the [finally] block
    releases the lock. *)
Lemma locked_run (element : ElementArg) (format : jsstring)
      (customPrompt : option jsstring) (content : jsstring)
      (script : list Reply) (w : World) :
  lookupThrows element format w = None ->
  let w0 := withEditorState (setIsProcessing true) w in
  let payload := buildPayload content (choosePrompt customPrompt format) format w0 in
  run script (locked cfg element format customPrompt content) w
  = match run script
              (retryLoop cfg payload format content (now w)
                         (RETRY_ATTEMPTS cfg) 1 None) w0 with
    | (Finished (Normal a), w', script') =>
        (Finished (Normal a), withEditorState (setIsProcessing false) w', script')
    | (Finished (Thrown e), w', script') =>
        (Finished (Normal tt),
         withEditorState (setIsProcessing false)
                         (snd (onFailure cfg format content (now w) e w')),
         script')
    | (Pending, w', script') => (Pending, w', script')
    end.
Proof.
  intros Hfound w0 payload. unfold locked. rewrite run_act, run_ask, run_sync.
  unfold lookupButton.
  replace (lookupThrows element format (withEditorState (setIsProcessing true) w))
    with (lookupThrows element format w) by (destruct element; reflexivity).
  rewrite Hfound.
  rewrite run_finally, run_catch. unfold guarded, ensureValidToken, await.
  cbn [bind run]. rewrite run_ask. fold w0. fold payload.
  change (now w0) with (now w).
  destruct (run script
                (retryLoop cfg payload format content (now w) (RETRY_ATTEMPTS cfg) 1 None)
                w0) as [[[[a | e] |] w'] script'].
  - reflexivity.
  - unfold sync. cbn [run].
    destruct (onFailure_run format content (now w) e w') as (w2 & Hrun & _).
    rewrite Hrun. reflexivity.
  - reflexivity.
Qed.

(** When the search for the button throws, the call is rejected before
    its [try] block is entered: nothing is requested and nothing clears
    the lock. *)
Lemma locked_run_lookup_throws (element : ElementArg) (format : jsstring)
      (customPrompt : option jsstring) (content : jsstring)
      (script : list Reply) (w : World) (e : JsError) :
  lookupThrows element format w = Some e ->
  run script (locked cfg element format customPrompt content) w
  = (Finished (Thrown e), withEditorState (setIsProcessing true) w, script).
Proof.
  intros Hthrows. unfold locked. rewrite run_act, run_ask, run_sync.
  unfold lookupButton.
  replace (lookupThrows element format (withEditorState (setIsProcessing true) w))
    with (lookupThrows element format w) by (destruct element; reflexivity).
  rewrite Hthrows. reflexivity.
Qed.

End Outer.

(** ** Projections of the trace of a loop *)

Lemma network_app tr1 tr2 : network (tr1 ++ tr2) = network tr1 ++ network tr2.
Proof. apply filter_app. Qed.

Lemma requests_app tr1 tr2 : requests (tr1 ++ tr2) = requests tr1 ++ requests tr2.
Proof. apply flat_map_app. Qed.


Lemma localFormatCalls_app tr1 tr2 :
  localFormatCalls (tr1 ++ tr2) = localFormatCalls tr1 ++ localFormatCalls tr2.
Proof. apply flat_map_app. Qed.

Lemma terminal_app tr1 tr2 : terminal (tr1 ++ tr2) = terminal tr1 ++ terminal tr2.
Proof.
  unfold terminal, notifications. rewrite flat_map_app. apply filter_app.
Qed.

Lemma failedAttempts_network cfg payload (n : nat) :
  forall attempt last,
    network (failedAttempts cfg payload attempt n ++ lastAttempt cfg payload last)
    = attemptsWithBackoff payload attempt n.
Proof.
  induction n as [| n IH]; intros attempt last.
  - reflexivity.
  - cbn [failedAttempts attemptsWithBackoff]. rewrite <- app_assoc, network_app.
    rewrite IH. reflexivity.
Qed.

Lemma failedAttempts_requests cfg payload (n : nat) :
  forall attempt last,
    requests (failedAttempts cfg payload attempt n ++ lastAttempt cfg payload last)
    = repeat payload (S n).
Proof.
  induction n as [| n IH]; intros attempt last.
  - reflexivity.
  - cbn [failedAttempts]. rewrite <- app_assoc, requests_app, IH. reflexivity.
Qed.


Lemma failedAttempts_quiet cfg payload (n : nat) :
  forall attempt last,
    terminal (failedAttempts cfg payload attempt n ++ lastAttempt cfg payload last) = []
    /\ localFormatCalls (failedAttempts cfg payload attempt n
                         ++ lastAttempt cfg payload last) = [].
Proof.
  induction n as [| n IH]; intros attempt last.
  - split; reflexivity.
  - cbn [failedAttempts]. rewrite <- app_assoc, terminal_app, localFormatCalls_app.
    destruct (IH (S attempt) last) as [H1 H2]. rewrite H1, H2. split; reflexivity.
Qed.

Lemma retryable_not_late cfg r : retryable cfg r = true -> timesOut cfg r = false.
Proof.
  unfold retryable. destruct (timesOut cfg r); [discriminate | reflexivity].
Qed.

Lemma malformed_retryable cfg r :
  timesOut cfg r = false -> malformed (result r) = true -> retryable cfg r = true.
Proof.
  unfold retryable, malformed, failsRetryably. intros -> H.
  destruct (result r) as [e | resp]; [discriminate |].
  destruct (ok resp); [| discriminate].
  destruct (json resp); [| discriminate]. exact H.
Qed.

(** ** The whole call on the two shapes of a run *)

Section Whole.

Variable cfg : Config.
Variables (element : ElementArg) (format : jsstring) (customPrompt : option jsstring).

Let payloadOf' (w : World) := payloadOn cfg element format customPrompt w.

(** [n] retryable failures, then a well-formed reply. *)
Lemma pipeline_succeeds (failures : list Reply) (r : Reply) (rest : list Reply)
      (w : World) :
  passesValidation cfg w = true ->
  isProcessing (editorState w) = false ->
  lookupThrows element (formatOf element format) w = None ->
  Forall (fun f => retryable cfg f = true) failures ->
  succeeds cfg r = true ->
  (S (List.length failures) <= RETRY_ATTEMPTS cfg)%nat ->
  exists w' v m,
    run (failures ++ r :: rest) (processWithAI cfg element format customPrompt) w
    = (Finished (Normal tt), w', rest)
    /\ trace w'
       = trace w
         ++ failedAttempts cfg (payloadOf' w) 1 (List.length failures)
         ++ lastAttempt cfg (payloadOf' w) (1 + List.length failures)
         ++ [InputDispatched v; Notified m Success]
    /\ editorValue w' = v
    /\ isProcessing (editorState w') = false.
Proof.
  intros Hvalid Hfree Hfound Hall Hok Hk.
  rewrite processWithAI_accepted by assumption. rewrite locked_run by assumption.
  destruct (retryLoop_succeeds
              cfg
              (buildPayload (trim (editorValue w))
                            (choosePrompt customPrompt (formatOf element format))
                            (formatOf element format)
                            (withEditorState (setIsProcessing true) w))
              (formatOf element format) (trim (editorValue w)) (now w)
              failures r rest (RETRY_ATTEMPTS cfg) 1 None
              (withEditorState (setIsProcessing true) w)
              Hall Hok ltac:(lia) ltac:(lia))
    as (w' & v & m & Hrun & Htrace & Hvalue & _).
  rewrite Hrun. exists (withEditorState (setIsProcessing false) w'), v, m.
  split; [reflexivity |]. split; [| split; [exact Hvalue | reflexivity]].
  exact Htrace.
Qed.

(** [n] retryable failures, then a request that times out, or that
    fails on the last attempt. *)
Lemma pipeline_gives_up (failures : list Reply) (r : Reply) (rest : list Reply)
      (w : World) :
  passesValidation cfg w = true ->
  isProcessing (editorState w) = false ->
  lookupThrows element (formatOf element format) w = None ->
  Forall (fun f => retryable cfg f = true) failures ->
  (S (List.length failures) <= RETRY_ATTEMPTS cfg)%nat ->
  timesOut cfg r = true
  \/ (retryable cfg r = true /\ S (List.length failures) = RETRY_ATTEMPTS cfg) ->
  exists e w',
    run (failures ++ r :: rest) (processWithAI cfg element format customPrompt) w
    = (Finished (Normal tt), w', rest)
    /\ trace w'
       = trace w
         ++ (failedAttempts cfg (payloadOf' w) 1 (List.length failures)
             ++ lastAttempt cfg (payloadOf' w) (1 + List.length failures))
         ++ Notified (userMessage e) Error :: fallbackEvents cfg (editorValue w)
    /\ (timesOut cfg r = true -> e = newError (timeoutMessage cfg))
    /\ (retryable cfg r = true -> isAbort e = false)
    /\ editorValue w'
       = match ENABLE_LOCAL_FALLBACK cfg with
         | Some false => editorValue w
         | _ => normalizeNewlines (localFormat (editorValue w))
         end
    /\ isProcessing (editorState w') = false.
Proof.
  intros Hvalid Hfree Hfound Hall Hk Hlast.
  rewrite processWithAI_accepted by assumption. rewrite locked_run by assumption.
  destruct (retryLoop_gives_up
              cfg
              (buildPayload (trim (editorValue w))
                            (choosePrompt customPrompt (formatOf element format))
                            (formatOf element format)
                            (withEditorState (setIsProcessing true) w))
              (formatOf element format) (trim (editorValue w)) (now w)
              failures r rest (RETRY_ATTEMPTS cfg) 1 None
              (withEditorState (setIsProcessing true) w)
              Hall ltac:(lia) ltac:(lia))
    as (e & w' & Hrun & (Htrace & Hflag & Hvalue) & Hlate & Hretry).
  { destruct Hlast as [Hl | [Hl Hfinal]]; [left; exact Hl | right].
    split; [exact Hl | lia]. }
  rewrite Hrun.
  destruct (onFailure_run cfg (formatOf element format) (trim (editorValue w))
                          (now w) e w')
    as (w2 & Hfail & Htrace2 & Hflag2 & Hvalue2).
  rewrite Hfail. cbn [snd].
  exists e, (withEditorState (setIsProcessing false) w2).
  split; [reflexivity |].
  split; [| split; [exact Hlate | split; [exact Hretry | split; [| reflexivity]]]].
  - cbn [trace withEditorState]. rewrite Htrace2, Htrace, Hvalue.
    cbn [trace withEditorState editorValue]. rewrite <- !app_assoc. reflexivity.
  - cbn [editorValue withEditorState]. rewrite Hvalue2, Hvalue. reflexivity.
Qed.

End Whole.

(* ================================================================== *)
(** * The retry loop, the timeout, the fallback and the lock *)
(* ================================================================== *)



Lemma fallbackEvents_projections cfg value :
  terminal (fallbackEvents cfg value) = []
  /\ network (fallbackEvents cfg value) = []
  /\ localFormatCalls (fallbackEvents cfg value)
     = match ENABLE_LOCAL_FALLBACK cfg with
       | Some false => []
       | _ => [value]
       end.
Proof.
  unfold fallbackEvents. destruct (ENABLE_LOCAL_FALLBACK cfg) as [[|] |];
    repeat split.
Qed.

(** The error thrown for a timeout mentions it, whatever [TIMEOUT_MS] is. *)
Lemma timeoutMessage_mentions_timeout cfg :
  includes (lit "timeout") (timeoutMessage cfg) = true.
Proof. reflexivity. Qed.

(** What the give-up path adds to the projections of the trace. *)
Lemma give_up_projections cfg payload n last e value tr :
  network (tr ++ (failedAttempts cfg payload 1 n ++ lastAttempt cfg payload last)
           ++ Notified (userMessage e) Error :: fallbackEvents cfg value)
  = network tr ++ attemptsWithBackoff payload 1 n
  /\ terminal (tr ++ (failedAttempts cfg payload 1 n ++ lastAttempt cfg payload last)
               ++ Notified (userMessage e) Error :: fallbackEvents cfg value)
     = terminal tr ++ [(userMessage e, Error)]
  /\ localFormatCalls
       (tr ++ (failedAttempts cfg payload 1 n ++ lastAttempt cfg payload last)
        ++ Notified (userMessage e) Error :: fallbackEvents cfg value)
     = localFormatCalls tr
       ++ match ENABLE_LOCAL_FALLBACK cfg with
          | Some false => []
          | _ => [value]
          end
  /\ requests (tr ++ (failedAttempts cfg payload 1 n ++ lastAttempt cfg payload last)
               ++ Notified (userMessage e) Error :: fallbackEvents cfg value)
     = requests tr ++ repeat payload (S n).
Proof.
  destruct (fallbackEvents_projections cfg value) as (Ht & Hn & Hl).
  destruct (failedAttempts_quiet cfg payload n 1 last) as (Hq1 & Hq2).
  change (Notified (userMessage e) Error :: fallbackEvents cfg value)
    with ([Notified (userMessage e) Error] ++ fallbackEvents cfg value).
  assert (Hr : requests (fallbackEvents cfg value) = []).
  { unfold fallbackEvents. destruct (ENABLE_LOCAL_FALLBACK cfg) as [[|] |]; reflexivity. }
  pose proof (failedAttempts_network cfg payload n 1 last) as Hnet.
  pose proof (failedAttempts_requests cfg payload n 1 last) as Hreq.
  remember (failedAttempts cfg payload 1 n ++ lastAttempt cfg payload last) as body.
  rewrite !network_app, !terminal_app, !localFormatCalls_app, !requests_app.
  rewrite Hnet, Hreq, Hq1, Hq2, Ht, Hn, Hl, Hr. cbn [network terminal notifications localFormatCalls requests
                   flat_map filter app snd].
  rewrite !app_nil_r. repeat split.
Qed.

(** C2, as stated, fails.  On the shipped configuration, the first
    request is still unanswered when its abort timer fires, and two
    attempts remain: no backoff and no second request follow; the timed
    out request is the only one, and the second reply is never asked
    for. *)
Lemma timeout_is_not_retried :
  timesOut CONFIG lateReply = true
  /\ (1 < RETRY_ATTEMPTS CONFIG)%nat
  /\ exists w',
      run [lateReply; okReply (lit "# Hello")]
          (processWithAI CONFIG (ElementString (lit "tutorial")) [] None)
          (pageWith (lit "Hello"))
      = (Finished (Normal tt), w', [okReply (lit "# Hello")])
      /\ List.length (requests (trace w')) = 1%nat
      /\ sleeps (trace w') = []
      /\ ~ (exists ms, In (Slept ms) (trace w')).
Proof.
  split; [reflexivity |]. split; [cbn; lia |].
  eexists. split; [vm_compute; reflexivity |].
  split; [reflexivity |]. split; [reflexivity |].
  intros [ms Hin]. cbn in Hin.
  repeat (destruct Hin as [Hin | Hin]; [discriminate |]). exact Hin.
Qed.

(** C2, amended.  A request that is not settled within [TIMEOUT_MS] is
    aborted, and the abort is not retried: whichever attempt it is, and
    whether or not attempts remain, the timed out request is the last
    event on the network (no backoff and no further attempt follow); the
    error thrown is the dedicated one, whose message mentions the timeout
    and is the one reported; the local fallback then runs and the lock is
    released. *)
Theorem timeout_ends_the_loop :
  forall (cfg : Config) (element : ElementArg) (format : jsstring)
         (customPrompt : option jsstring) (w : World)
         (failures : list Reply) (r : Reply) (rest : list Reply),
    passesValidation cfg w = true ->
    isProcessing (editorState w) = false ->
    lookupThrows element (formatOf element format) w = None ->
    Forall (fun f => retryable cfg f = true) failures ->
    timesOut cfg r = true ->
    (S (List.length failures) <= RETRY_ATTEMPTS cfg)%nat ->
    let payload := payloadOn cfg element format customPrompt w in
    exists w',
      run (failures ++ r :: rest) (processWithAI cfg element format customPrompt) w
      = (Finished (Normal tt), w', rest)
      /\ network (trace w')
         = network (trace w) ++ attemptsWithBackoff payload 1 (List.length failures)
      /\ terminal (trace w')
         = terminal (trace w) ++ [(userMessage (newError (timeoutMessage cfg)), Error)]
      /\ includes (lit "timeout") (timeoutMessage cfg) = true
      /\ localFormatCalls (trace w')
         = localFormatCalls (trace w)
           ++ match ENABLE_LOCAL_FALLBACK cfg with
              | Some false => []
              | _ => [editorValue w]
              end
      /\ isProcessing (editorState w') = false.
Proof.
  intros cfg element format customPrompt w failures r rest
         Hvalid Hfree Hfound Hall Hlate Hk payload.
  destruct (pipeline_gives_up cfg element format customPrompt failures r rest w
                              Hvalid Hfree Hfound Hall Hk (or_introl Hlate))
    as (e & w' & Hrun & Htrace & He & _ & _ & Hflag).
  specialize (He Hlate). subst e.
  exists w'. split; [exact Hrun |].
  fold payload in Htrace. rewrite Htrace.
  destruct (give_up_projections cfg payload (List.length failures)
              (1 + List.length failures) (newError (timeoutMessage cfg))
              (editorValue w) (trace w)) as (Hn & Ht & Hl & _).
  rewrite Hn, Ht, Hl.
  repeat split. exact Hflag.
Qed.

Lemma timeout_ends_the_loop_witness :
  passesValidation CONFIG (pageWith (lit "Hello")) = true
  /\ isProcessing (editorState (pageWith (lit "Hello"))) = false
  /\ lookupThrows (ElementString (lit "tutorial")) (lit "tutorial")
                  (pageWith (lit "Hello")) = None
  /\ Forall (fun f => retryable CONFIG f = true) [serverErrorReply]
  /\ timesOut CONFIG lateReply = true
  /\ (2 <= RETRY_ATTEMPTS CONFIG)%nat
  /\ exists w',
      run ([serverErrorReply] ++ lateReply :: [okReply (lit "# Hello")])
          (processWithAI CONFIG (ElementString (lit "tutorial")) [] None)
          (pageWith (lit "Hello"))
      = (Finished (Normal tt), w', [okReply (lit "# Hello")])
      /\ network (trace w')
         = [Requested (tutorialPayload (lit "Hello")); Slept 2000;
            Requested (tutorialPayload (lit "Hello"))]
      /\ terminal (trace w')
         = [([10060]%N
             ++ lit " Processing failed: Request timed out. The service may be busy, please try again.",
             Error)].
Proof.
  assert (Hvalid : passesValidation CONFIG (pageWith (lit "Hello")) = true)
    by reflexivity.
  assert (Hfree : isProcessing (editorState (pageWith (lit "Hello"))) = false)
    by reflexivity.
  assert (Hfound : lookupThrows (ElementString (lit "tutorial")) (lit "tutorial")
                                (pageWith (lit "Hello")) = None)
    by reflexivity.
  assert (Hall : Forall (fun f => retryable CONFIG f = true) [serverErrorReply])
    by (repeat constructor).
  assert (Hlate : timesOut CONFIG lateReply = true) by reflexivity.
  assert (Hk : (2 <= RETRY_ATTEMPTS CONFIG)%nat) by (cbn; lia).
  repeat (split; [assumption |]).
  destruct (timeout_ends_the_loop
              CONFIG (ElementString (lit "tutorial")) [] None (pageWith (lit "Hello"))
              [serverErrorReply] lateReply [okReply (lit "# Hello")]
              Hvalid Hfree Hfound Hall Hlate Hk)
    as (w' & Hrun & Hnet & Hterm & _).
  exists w'. split; [exact Hrun |]. split.
  - rewrite Hnet. reflexivity.
  - rewrite Hterm. vm_compute. reflexivity.
Defined.

(** C3, as stated, fails.  On the shipped configuration the first reply
    is [200 OK] with the body [{success: false}]: the call does not go
    to the fallback; it sleeps for two seconds, issues a second request
    and delivers its reply. *)
Lemma malformed_reply_does_not_exhaust :
  malformed (result malformedReply) = true
  /\ timesOut CONFIG malformedReply = false
  /\ exists w',
      run [malformedReply; okReply (lit "# Hello")]
          (processWithAI CONFIG (ElementString (lit "tutorial")) [] None)
          (pageWith (lit "Hello"))
      = (Finished (Normal tt), w', [])
      /\ network (trace w')
         = [Requested (tutorialPayload (lit "Hello")); Slept 2000;
            Requested (tutorialPayload (lit "Hello"))]
      /\ localFormatCalls (trace w') = []
      /\ editorValue w' = lit "# Hello".
Proof.
  split; [reflexivity |]. split; [reflexivity |].
  eexists. split; [vm_compute; reflexivity |].
  repeat split.
Qed.

(** C3, amended.  A 2xx response whose JSON body lacks the expected
    fields is a retryable failure like any other.  While attempts remain
    it is followed by the backoff and by the next attempt, and a later
    well-formed reply is delivered without any fallback; only when it
    answers the last attempt does the call go to the exhausted path, after
    [RETRY_ATTEMPTS] requests, where the local fallback runs. *)
Theorem malformed_reply_is_retried :
  forall (cfg : Config) (element : ElementArg) (format : jsstring)
         (customPrompt : option jsstring) (w : World)
         (bad : list Reply) (r : Reply) (rest : list Reply),
    passesValidation cfg w = true ->
    isProcessing (editorState w) = false ->
    lookupThrows element (formatOf element format) w = None ->
    Forall (fun f => timesOut cfg f = false /\ malformed (result f) = true) bad ->
    (S (List.length bad) <= RETRY_ATTEMPTS cfg)%nat ->
    let payload := payloadOn cfg element format customPrompt w in
    (succeeds cfg r = true ->
     exists w',
       run (bad ++ r :: rest) (processWithAI cfg element format customPrompt) w
       = (Finished (Normal tt), w', rest)
       /\ network (trace w')
          = network (trace w) ++ attemptsWithBackoff payload 1 (List.length bad)
       /\ localFormatCalls (trace w') = localFormatCalls (trace w))
    /\ (timesOut cfg r = false ->
        malformed (result r) = true ->
        S (List.length bad) = RETRY_ATTEMPTS cfg ->
        exists w',
          run (bad ++ r :: rest) (processWithAI cfg element format customPrompt) w
          = (Finished (Normal tt), w', rest)
          /\ requests (trace w')
             = requests (trace w) ++ repeat payload (RETRY_ATTEMPTS cfg)
          /\ network (trace w')
             = network (trace w) ++ attemptsWithBackoff payload 1 (List.length bad)
          /\ localFormatCalls (trace w')
             = localFormatCalls (trace w)
               ++ match ENABLE_LOCAL_FALLBACK cfg with
                  | Some false => []
                  | _ => [editorValue w]
                  end).
Proof.
  intros cfg element format customPrompt w bad r rest
         Hvalid Hfree Hfound Hbad Hk payload.
  assert (Hall : Forall (fun f => retryable cfg f = true) bad).
  { eapply Forall_impl; [| exact Hbad].
    intros f [Hin Hmal]. apply malformed_retryable; assumption. }
  split.
  - intros Hok.
    destruct (pipeline_succeeds cfg element format customPrompt bad r rest w
                                Hvalid Hfree Hfound Hall Hok Hk)
      as (w' & v & m & Hrun & Htrace & _ & _).
    exists w'. split; [exact Hrun |].
    fold payload in Htrace. rewrite Htrace.
    rewrite !app_assoc, <- (app_assoc (trace w)).
    rewrite network_app, localFormatCalls_app.
    rewrite network_app, localFormatCalls_app.
    rewrite failedAttempts_network.
    destruct (failedAttempts_quiet cfg payload (List.length bad) 1
                                   (1 + List.length bad)) as [_ Hq].
    rewrite Hq. cbn [network localFormatCalls flat_map filter app].
    rewrite !app_nil_r. split; reflexivity.
  - intros Hin Hmal Hfinal.
    pose proof (malformed_retryable cfg r Hin Hmal) as Hretry.
    destruct (pipeline_gives_up cfg element format customPrompt bad r rest w
                                Hvalid Hfree Hfound Hall Hk
                                (or_intror (conj Hretry Hfinal)))
      as (e & w' & Hrun & Htrace & _ & _ & _ & _).
    exists w'. split; [exact Hrun |].
    fold payload in Htrace. rewrite Htrace.
    destruct (give_up_projections cfg payload (List.length bad)
                (1 + List.length bad) e (editorValue w) (trace w))
      as (Hn & _ & Hl & Hr).
    rewrite Hn, Hl, Hr, Hfinal. repeat split.
Qed.

Lemma malformed_reply_is_retried_witness :
  passesValidation CONFIG (pageWith (lit "Hello")) = true
  /\ isProcessing (editorState (pageWith (lit "Hello"))) = false
  /\ lookupThrows (ElementString (lit "tutorial")) (lit "tutorial")
                  (pageWith (lit "Hello")) = None
  /\ Forall (fun f => timesOut CONFIG f = false /\ malformed (result f) = true)
            [malformedReply]
  /\ (2 <= RETRY_ATTEMPTS CONFIG)%nat
  /\ succeeds CONFIG (okReply (lit "# Hello")) = true
  /\ exists w',
      run ([malformedReply] ++ okReply (lit "# Hello") :: [])
          (processWithAI CONFIG (ElementString (lit "tutorial")) [] None)
          (pageWith (lit "Hello"))
      = (Finished (Normal tt), w', [])
      /\ network (trace w')
         = [Requested (tutorialPayload (lit "Hello")); Slept 2000;
            Requested (tutorialPayload (lit "Hello"))]
      /\ localFormatCalls (trace w') = [].
Proof.
  assert (Hvalid : passesValidation CONFIG (pageWith (lit "Hello")) = true)
    by reflexivity.
  assert (Hfree : isProcessing (editorState (pageWith (lit "Hello"))) = false)
    by reflexivity.
  assert (Hfound : lookupThrows (ElementString (lit "tutorial")) (lit "tutorial")
                                (pageWith (lit "Hello")) = None)
    by reflexivity.
  assert (Hbad : Forall (fun f => timesOut CONFIG f = false
                                  /\ malformed (result f) = true) [malformedReply])
    by (repeat constructor).
  assert (Hk : (2 <= RETRY_ATTEMPTS CONFIG)%nat) by (cbn; lia).
  assert (Hok : succeeds CONFIG (okReply (lit "# Hello")) = true) by reflexivity.
  repeat (split; [assumption |]).
  destruct (malformed_reply_is_retried
              CONFIG (ElementString (lit "tutorial")) [] None (pageWith (lit "Hello"))
              [malformedReply] (okReply (lit "# Hello")) []
              Hvalid Hfree Hfound Hbad Hk) as [Hretried _].
  destruct (Hretried Hok) as (w' & Hrun & Hnet & Hlocal).
  exists w'. split; [exact Hrun |]. split.
  - rewrite Hnet. reflexivity.
  - rewrite Hlocal. reflexivity.
Defined.

(** C6, as stated, fails.  While an earlier invocation holds the lock
    the editor is emptied and [processWithAI] is called again: the call
    leaves by the validation error, and [isProcessing] is [true] after
    it has returned. *)
Lemma validation_exit_leaves_lock_set :
  isProcessing (editorState (busyPageWith [])) = true
  /\ exists w',
      run [] (processWithAI CONFIG (ElementString (lit "tutorial")) [] None)
          (busyPageWith [])
      = (Finished (Normal tt), w', [])
      /\ terminal (trace w') = [(emptyMessage, Warning)]
      /\ isProcessing (editorState w') = true.
Proof.
  split; [reflexivity |].
  eexists. split; [vm_compute; reflexivity |]. split; reflexivity.
Qed.

(** C6, amended.  Take a call of [processWithAI] whose search for the
    button does not throw.  The call is pending only while a request
    waits for its reply; otherwise its promise is fulfilled, never
    rejected.  On every exit past the guards (success, exhausted failure
    with or without fallback) [isProcessing] is [false] when the call
    terminates and exactly one notification other than progress
    information has been shown.  The validation error shows one warning
    and, like the busy rejection, leaves [editorState] as it found it: so
    [isProcessing] is [false] after it unless another invocation holds
    the lock. *)
Theorem every_exit_settles_and_releases :
  forall (cfg : Config) (element : ElementArg) (format : jsstring)
         (customPrompt : option jsstring) (script : list Reply) (w : World),
    lookupThrows element (formatOf element format) w = None ->
    exists out w' rest,
      run script (processWithAI cfg element format customPrompt) w = (out, w', rest)
      /\ match out with
         | Pending => (List.length script < RETRY_ATTEMPTS cfg)%nat
         | Finished c =>
             c = Normal tt
             /\ (isProcessing (editorState w) = false ->
                 isProcessing (editorState w') = false)
             /\ (passesValidation cfg w = true ->
                 isProcessing (editorState w) = false ->
                 exists n, terminal (trace w') = terminal (trace w) ++ [n])
             /\ (passesValidation cfg w = false ->
                 editorState w' = editorState w
                 /\ exists m, terminal (trace w') = terminal (trace w) ++ [(m, Warning)])
             /\ (passesValidation cfg w = true ->
                 isProcessing (editorState w) = true ->
                 editorState w' = editorState w
                 /\ notifications (trace w')
                    = notifications (trace w) ++ [(busyMessage, Info)])
         end.
Proof.
  intros cfg element format customPrompt script w Hfound.
  destruct (passesValidation cfg w) eqn:Hvalid.
  - destruct (isProcessing (editorState w)) eqn:Hflag.
    + destruct (busy_call_returns cfg element format customPrompt script w
                                  Hvalid Hflag) as [Hrun _].
      rewrite Hrun. do 3 eexists. split; [reflexivity |].
      split; [reflexivity |]. split; [discriminate |]. split; [discriminate |].
      split; [discriminate |]. intros _ _. split; [reflexivity |].
      unfold notifications. cbn [trace showNotification emit].
      rewrite flat_map_app. reflexivity.
    + rewrite processWithAI_accepted by assumption.
      rewrite locked_run by assumption.
      destruct (retryLoop_general
                  cfg
                  (buildPayload (trim (editorValue w))
                                (choosePrompt customPrompt (formatOf element format))
                                (formatOf element format)
                                (withEditorState (setIsProcessing true) w))
                  (formatOf element format) (trim (editorValue w)) (now w)
                  (RETRY_ATTEMPTS cfg) 1 None script
                  (withEditorState (setIsProcessing true) w))
        as (out & w1 & rest & delta & Hrun & Htrace & _ & _ & Hout).
      rewrite Hrun. cbn [trace withEditorState] in Htrace.
      destruct out as [[[] | e] |].
      * destruct Hout as [m Hm]. do 3 eexists. split; [reflexivity |].
        split; [reflexivity |]. split; [reflexivity |].
        split; [| split; [discriminate | discriminate]].
        intros _ _. exists (m, Success). cbn [trace withEditorState].
        rewrite Htrace, terminal_app, Hm. reflexivity.
      * destruct Hout as [Hquiet _].
        destruct (onFailure_run cfg (formatOf element format) (trim (editorValue w))
                                (now w) e w1)
          as (w2 & Hfail & Htrace2 & _ & _).
        rewrite Hfail. cbn [snd]. do 3 eexists. split; [reflexivity |].
        split; [reflexivity |]. split; [reflexivity |].
        split; [| split; [discriminate | discriminate]].
        intros _ _. exists (userMessage e, Error). cbn [trace withEditorState].
        rewrite Htrace2, Htrace.
        change (Notified (userMessage e) Error :: fallbackEvents cfg (editorValue w1))
          with ([Notified (userMessage e) Error] ++ fallbackEvents cfg (editorValue w1)).
        rewrite !terminal_app, Hquiet.
        destruct (fallbackEvents_projections cfg (editorValue w1)) as (Ht & _).
        rewrite Ht, !app_nil_r. reflexivity.
      * destruct Hout as [_ Hshort]. do 3 eexists. split; [reflexivity |].
        exact Hshort.
  - destruct (invalid_text_returns cfg element format customPrompt script w
                                   (passesValidation_false cfg w Hvalid))
      as (Hrun & _ & _ & Hstate).
    rewrite Hrun. do 3 eexists. split; [reflexivity |].
    split; [reflexivity |].
    split; [intros Hfree; cbn [editorState showNotification emit]; exact Hfree |].
    split; [discriminate |]. split; [| discriminate].
    intros _. split; [reflexivity |].
    eexists. cbn [trace showNotification emit]. rewrite terminal_app. reflexivity.
Qed.

Lemma every_exit_settles_and_releases_witness :
  lookupThrows (ElementString (lit "tutorial")) (lit "tutorial")
               (pageWith (lit "Hello")) = None
  /\ exists out w' rest,
      run [okReply (lit "# Hello")]
          (processWithAI CONFIG (ElementString (lit "tutorial")) [] None)
          (pageWith (lit "Hello"))
      = (out, w', rest)
      /\ match out with
         | Pending => (1 < RETRY_ATTEMPTS CONFIG)%nat
         | Finished c =>
             c = Normal tt
             /\ (isProcessing (editorState (pageWith (lit "Hello"))) = false ->
                 isProcessing (editorState w') = false)
         end.
Proof.
  split; [reflexivity |].
  destruct (every_exit_settles_and_releases
              CONFIG (ElementString (lit "tutorial")) [] None
              [okReply (lit "# Hello")] (pageWith (lit "Hello")) eq_refl)
    as (out & w' & rest & Hrun & Hout).
  exists out, w', rest. split; [exact Hrun |].
  destruct out as [c |]; [| exact Hout].
  destruct Hout as (Hc & Hflag & _). split; assumption.
Defined.

(** Past the guards and outside the [try] block, a search for the
    button that throws rejects the call and leaves the lock set. *)
Lemma malformed_selector_leaves_lock_set :
  forall (cfg : Config) (element : ElementArg) (format : jsstring)
         (customPrompt : option jsstring) (script : list Reply) (w : World)
         (e : JsError),
    passesValidation cfg w = true ->
    isProcessing (editorState w) = false ->
    lookupThrows element (formatOf element format) w = Some e ->
    run script (processWithAI cfg element format customPrompt) w
    = (Finished (Thrown e), withEditorState (setIsProcessing true) w, script).
Proof.
  intros cfg element format customPrompt script w e Hvalid Hfree Hthrows.
  rewrite processWithAI_accepted by assumption.
  apply locked_run_lookup_throws. exact Hthrows.
Qed.

(** On exhaustion the local formatter is entered once, with the text of
    the editor, and its text is written back whether or not it differs
    from what it read; nothing but the network error is notified as more
    than progress information. *)
Lemma exhausted_runs_fallback_once :
  forall (cfg : Config) (element : ElementArg) (format : jsstring)
         (customPrompt : option jsstring) (w : World)
         (failures : list Reply) (r : Reply) (rest : list Reply),
    passesValidation cfg w = true ->
    isProcessing (editorState w) = false ->
    lookupThrows element (formatOf element format) w = None ->
    Forall (fun f => retryable cfg f = true) (failures ++ [r]) ->
    List.length (failures ++ [r]) = RETRY_ATTEMPTS cfg ->
    ENABLE_LOCAL_FALLBACK cfg <> Some false ->
    exists e w',
      run ((failures ++ [r]) ++ rest) (processWithAI cfg element format customPrompt) w
      = (Finished (Normal tt), w', rest)
      /\ requests (trace w')
         = requests (trace w)
           ++ repeat (payloadOn cfg element format customPrompt w) (RETRY_ATTEMPTS cfg)
      /\ localFormatCalls (trace w') = localFormatCalls (trace w) ++ [editorValue w]
      /\ editorValue w' = normalizeNewlines (localFormat (editorValue w))
      /\ terminal (trace w') = terminal (trace w) ++ [(userMessage e, Error)].
Proof.
  intros cfg element format customPrompt w failures r rest
         Hvalid Hfree Hfound Hall Hlen Hfb.
  apply Forall_app in Hall. destruct Hall as [Hall Hr].
  inversion Hr as [| ? ? Hretry _]; subst.
  rewrite length_app in Hlen. cbn [List.length] in Hlen.
  rewrite <- app_assoc. cbn [app].
  assert (Hk : (S (List.length failures) <= RETRY_ATTEMPTS cfg)%nat) by lia.
  assert (Hfinal : S (List.length failures) = RETRY_ATTEMPTS cfg) by lia.
  destruct (pipeline_gives_up cfg element format customPrompt failures r rest w
                              Hvalid Hfree Hfound Hall Hk
                              (or_intror (conj Hretry Hfinal)))
    as (e & w' & Hrun & Htrace & _ & _ & Hvalue & _).
  exists e, w'. split; [exact Hrun |]. rewrite Htrace.
  destruct (give_up_projections cfg (payloadOn cfg element format customPrompt w)
              (List.length failures) (1 + List.length failures) e
              (editorValue w) (trace w)) as (_ & Ht & Hl & Hq).
  rewrite Ht, Hl, Hq, Hvalue.
  replace (S (List.length failures)) with (RETRY_ATTEMPTS cfg) by lia.
  destruct (ENABLE_LOCAL_FALLBACK cfg) as [[|] |]; try contradiction;
    repeat split; congruence.
Qed.

(** C7.  On the shipped configuration the editor holds ["Hello world"]
    and the worker answers [500] to each of the three attempts.  The local
    formatter is entered once, on the editor text, and itself writes
    ["## Hello world"] to the editor with an information notice; its call
    evaluates to [undefined], so the test of line 746 fails and the
    success notification of line 749 is not shown, although the text
    differs from the input.  On ["- item"], which the formatter leaves
    as it is, the notifications are the same. *)
Theorem fallback_result_is_never_surfaced_as_success :
  (forall w, fst (autoFormatLocal w) = Normal VUndefined)
  /\ localFormat (lit "Hello world") = lit "## Hello world"
  /\ localFormat (lit "- item") = lit "- item"
  /\ (exists w',
        run (repeat serverErrorReply 3)
            (processWithAI CONFIG (ElementString (lit "tutorial")) [] None)
            (pageWith (lit "Hello world"))
        = (Finished (Normal tt), w', [])
        /\ List.length (requests (trace w')) = 3%nat
        /\ localFormatCalls (trace w') = [lit "Hello world"]
        /\ editorValue w' = lit "## Hello world"
        /\ map snd (notifications (trace w'))
           = [Info; Info; Info; Info; Info; Error; Info; Info]
        /\ last (notifications (trace w')) ([], Info) = (localAppliedMessage, Info)
        /\ ~ In (fallbackAppliedMessage, Success) (notifications (trace w')))
  /\ (exists w',
        run (repeat serverErrorReply 3)
            (processWithAI CONFIG (ElementString (lit "tutorial")) [] None)
            (pageWith (lit "- item"))
        = (Finished (Normal tt), w', [])
        /\ localFormatCalls (trace w') = [lit "- item"]
        /\ editorValue w' = lit "- item"
        /\ map snd (notifications (trace w'))
           = [Info; Info; Info; Info; Info; Error; Info; Info]
        /\ last (notifications (trace w')) ([], Info) = (localAppliedMessage, Info)).
Proof.
  split; [reflexivity |]. split; [reflexivity |]. split; [reflexivity |].
  split.
  - eexists. split; [vm_compute; reflexivity |].
    repeat (split; [reflexivity |]).
    cbn. intros H.
    repeat (destruct H as [H | H]; [discriminate |]). exact H.
  - eexists. split; [vm_compute; reflexivity |].
    repeat (split; [reflexivity |]). reflexivity.
Qed.

(* ================================================================== *)
(** * Concurrent calls *)
(* ================================================================== *)

Lemma keepsLock_bind {A B} (p : Proc A) (f : A -> Proc B) :
  keepsLock p -> (forall a, keepsLock (f a)) -> keepsLock (bind p f).
Proof.
  intros Hp Hf.
  induction p as [a | e | T g k IH | payload timeoutMs k IH | ms k IH | k IH];
    cbn [bind keepsLock] in *.
  - apply Hf.
  - exact I.
  - destruct Hp as [Hg Hk]. split; [exact Hg |]. intros t. apply IH, Hk.
  - intros r. apply IH, Hp.
  - apply IH, Hp.
  - apply IH, Hp.
Qed.

Lemma keepsLock_catch {A} (p : Proc A) (h : JsError -> Proc A) :
  keepsLock p -> (forall e, keepsLock (h e)) -> keepsLock (catch p h).
Proof.
  intros Hp Hh.
  induction p as [a | e | T g k IH | payload timeoutMs k IH | ms k IH | k IH];
    cbn [catch keepsLock] in *.
  - exact I.
  - apply Hh.
  - destruct Hp as [Hg Hk]. split; [exact Hg |]. intros t. apply IH, Hk.
  - intros r. apply IH, Hp.
  - apply IH, Hp.
  - apply IH, Hp.
Qed.

Lemma keepsLock_finally {A} (p : Proc A) (fin : World -> World) :
  keepsLock p ->
  (forall w, isProcessing (editorState (fin w)) = false) ->
  releasesAtEnd (finally p fin).
Proof.
  intros Hp Hfin.
  induction p as [a | e | T g k IH | payload timeoutMs k IH | ms k IH | k IH];
    cbn [finally releasesAtEnd keepsLock] in *.
  - right. split; [exact Hfin | reflexivity].
  - right. split; [exact Hfin | reflexivity].
  - destruct Hp as [Hg Hk]. left. split; [exact Hg |]. intros t. apply IH, Hk.
  - intros r. apply IH, Hp.
  - apply IH, Hp.
  - apply IH, Hp.
Qed.

Lemma keepsLock_act (f : World -> World) :
  (forall w, isProcessing (editorState (f w)) = isProcessing (editorState w)) ->
  keepsLock (act f).
Proof. intros H. cbn. split; [exact H | exact (fun _ => I)]. Qed.

Lemma keepsLock_ask {A} (f : World -> A) : keepsLock (ask f).
Proof. cbn. split; [reflexivity | exact (fun _ => I)]. Qed.

Lemma keepsLock_sync {A} (m : Sync A) :
  (forall w, isProcessing (editorState (snd (m w))) = isProcessing (editorState w)) ->
  keepsLock (sync m).
Proof.
  intros H. cbn. split; [exact H |]. intros [a | e]; exact I.
Qed.

Lemma keepsLock_await {A} (c : Completion A) : keepsLock (await c).
Proof. destruct c; exact I. Qed.

Create HintDb lock.
#[export] Hint Resolve keepsLock_ask keepsLock_await : lock.
#[export] Hint Extern 1 (keepsLock (act _)) =>
  apply keepsLock_act; reflexivity : lock.
#[export] Hint Extern 1 (keepsLock (sync (lift _))) =>
  apply keepsLock_sync; reflexivity : lock.
#[export] Hint Extern 1 (keepsLock (Ret _)) => exact I : lock.
#[export] Hint Extern 1 (keepsLock (Throw _)) => exact I : lock.

(** One statement of a sequence, then the rest. *)
Tactic Notation "keeps_then" ident(x) :=
  apply keepsLock_bind; [auto with lock | intros x].
Ltac keeps_skip := apply keepsLock_bind; [auto with lock | intros _].

Section LockKept.

Variable cfg : Config.

Lemma keepsLock_deliver processedText format content startTime attempt :
  keepsLock (deliver processedText format content startTime attempt).
Proof.
  unfold deliver.
  keeps_then t. keeps_then icons. keeps_then prefilled.
  apply keepsLock_bind; [| intros enrichedText].
  { apply keepsLock_sync. intros w.
    destruct (enrichContent_returns processedText format
                {| enableIcons := Some icons; enablePrefilled := Some prefilled |} w)
      as (v & w' & Heq & _ & _ & Hflag & _).
    rewrite Heq. exact Hflag. }
  do 4 keeps_skip. auto with lock.
Qed.

Lemma keepsLock_throwNoText result : keepsLock (throwNoText result).
Proof.
  unfold throwNoText. keeps_then e. auto with lock.
Qed.

Lemma keepsLock_attemptOnce payload format content startTime attempt :
  keepsLock (attemptOnce cfg payload format content startTime attempt).
Proof.
  unfold attemptOnce. keeps_skip.
  apply keepsLock_bind; [intros [e | resp]; exact I | intros response].
  destruct (negb (ok response)).
  - unfold throwHttpError. apply keepsLock_bind; [| auto with lock].
    apply keepsLock_catch; [| auto with lock].
    keeps_then errorData. keeps_then e. auto with lock.
  - keeps_then result. keeps_then s.
    destruct (truthyValue s); [| apply keepsLock_throwNoText].
    keeps_then t.
    destruct (truthyValue t);
      [apply keepsLock_deliver | apply keepsLock_throwNoText].
Qed.

Lemma keepsLock_retryLoop payload format content startTime (remaining : nat) :
  forall attempt lastError,
    keepsLock (retryLoop cfg payload format content startTime
                         remaining attempt lastError).
Proof.
  induction remaining as [| remaining IH]; intros attempt lastError.
  - exact I.
  - cbn [retryLoop]. apply keepsLock_catch; [apply keepsLock_attemptOnce |].
    intros e. destruct (JS.eqb (err_name e) (lit "AbortError")); [exact I |].
    destruct (attempt =? RETRY_ATTEMPTS cfg)%nat; [exact I |].
    keeps_skip.
    apply keepsLock_bind; [exact I | intros _]. apply IH.
Qed.

(** Under the lock the invocation releases it with its last step. *)
Lemma locked_body_releases format customPrompt content startTime :
  releasesAtEnd
    (finally
       (catch (guarded cfg format customPrompt content startTime)
              (fun e => sync (onFailure cfg format content startTime e)))
       (withEditorState (setIsProcessing false))).
Proof.
  apply keepsLock_finally; [| reflexivity].
  apply keepsLock_catch.
  - unfold guarded, ensureValidToken.
    keeps_then tokenValid. keeps_then payload.
    apply keepsLock_retryLoop.
  - intros e. apply keepsLock_sync. intros w.
    destruct (onFailure_run cfg format content startTime e w)
      as (w' & Heq & _ & Hflag & _).
    rewrite Heq. exact Hflag.
Qed.

End LockKept.

(** Running a lock holder up to its next suspension. *)
Lemma advance_releases (p : Proc unit) :
  forall w,
    releasesAtEnd p ->
    isProcessing (editorState w) = true ->
    (settled (fst (advance p w)) = true
     /\ isProcessing (editorState (snd (advance p w))) = false)
    \/ (settled (fst (advance p w)) = false
        /\ isProcessing (editorState (snd (advance p w))) = true
        /\ releasesAtEnd (fst (advance p w))).
Proof.
  induction p as [a | e | T g k IH | payload timeoutMs k IH | ms k IH | k IH];
    intros w Hrel Hflag; cbn [advance releasesAtEnd] in *.
  - contradiction.
  - contradiction.
  - destruct Hrel as [[Hkeep Hk] | [Hclear Hk]].
    + specialize (Hkeep w). destruct (g w) as [t w']. cbn [snd] in Hkeep.
      apply IH; [apply Hk | congruence].
    + specialize (Hclear w). destruct (g w) as [t w']. cbn [snd] in Hclear.
      left. specialize (Hk t).
      destruct (k t); try discriminate; cbn [advance fst snd settled]; auto.
  - right. cbn [fst snd settled releasesAtEnd]. auto.
  - right. cbn [fst snd settled releasesAtEnd]. auto.
  - right. cbn [fst snd settled releasesAtEnd]. auto.
Qed.

Lemma resumes_releases p p' : resumes p p' -> releasesAtEnd p -> releasesAtEnd p'.
Proof. intros H. destruct H; cbn [releasesAtEnd]; auto. Qed.

Section Invariant.

Variable cfg : Config.

(** A call on a page whose lock is set returns at once and does not
    write [editorState]. *)
Lemma call_while_locked element format customPrompt w :
  isProcessing (editorState w) = true ->
  exists m sev,
    advance (processWithAI cfg element format customPrompt) w
    = (Ret tt, showNotification m sev w).
Proof.
  intros Hflag. destruct (passesValidation cfg w) eqn:Hvalid.
  - destruct (busy_call_returns cfg element format customPrompt [] w Hvalid Hflag)
      as [_ H]. eauto.
  - destruct (invalid_text_returns cfg element format customPrompt [] w
                                   (passesValidation_false cfg w Hvalid))
      as (_ & H & _). eauto.
Qed.

(** A call either returns at once or is suspended with the lock set,
    which it will release. *)
Lemma call_from_any_page element format customPrompt w :
  settled (fst (advance (processWithAI cfg element format customPrompt) w)) = true
  \/ (settled (fst (advance (processWithAI cfg element format customPrompt) w)) = false
      /\ isProcessing
           (editorState (snd (advance (processWithAI cfg element format customPrompt) w)))
         = true
      /\ releasesAtEnd (fst (advance (processWithAI cfg element format customPrompt) w))).
Proof.
  destruct (isProcessing (editorState w)) eqn:Hflag.
  { destruct (call_while_locked element format customPrompt w Hflag)
      as (m & sev & H). rewrite H. left. reflexivity. }
  destruct (passesValidation cfg w) eqn:Hvalid.
  2:{ destruct (invalid_text_returns cfg element format customPrompt [] w
                                     (passesValidation_false cfg w Hvalid))
        as (_ & H & _). rewrite H. left. reflexivity. }
  unfold passesValidation in Hvalid.
  apply andb_true_iff in Hvalid. destruct Hvalid as [Hnonempty Hshort].
  apply Nat.leb_le in Hshort.
  assert (Hlen : (MAX_TEXT_LENGTH cfg <? List.length (trim (editorValue w)))%nat = false)
    by (apply Nat.ltb_ge; exact Hshort).
  unfold processWithAI. cbn [advance bind ask].
  rewrite Hnonempty. cbn [negb]. rewrite Hlen. cbn [advance bind ask].
  rewrite Hflag. unfold locked. cbn [advance bind ask act sync].
  unfold lookupButton.
  destruct (lookupThrows element (formatOf element format)
                         (withEditorState (setIsProcessing true) w)) as [e |].
  - left. reflexivity.
  - right. cbn [bind advance].
    pose proof (locked_body_releases cfg
                  (formatOf element format) customPrompt (trim (editorValue w))
                  (now (withEditorState (setIsProcessing true) w))) as Hrel.
    destruct (advance_releases _ (withEditorState (setIsProcessing true) w)
                               Hrel eq_refl) as [[Hs _] | H].
    + exfalso. revert Hs. unfold guarded, ensureValidToken, await.
      cbn [bind catch finally advance fst settled]. discriminate.
    + exact H.
Qed.

Lemma lockInvariant_enter (pw : Proc unit * World) :
  settled (fst pw) = true
  \/ (settled (fst pw) = false /\ isProcessing (editorState (snd pw)) = true
      /\ releasesAtEnd (fst pw)) ->
  lockInvariant (enter pw []).
Proof.
  unfold lockInvariant, enter. cbn [inflight page app].
  intros [Hs | (Hs & Hf & Hr)]; rewrite Hs; cbn [inflight]; auto.
Qed.

Lemma step_keeps_invariant s s' :
  lockInvariant s -> step cfg s s' -> lockInvariant s'.
Proof.
  intros Hinv Hstep. destruct Hstep as
      [element format customPrompt s
      | s before p after p' Hin Hres
      | s w Hflag].
  - unfold call. unfold lockInvariant in Hinv.
    destruct (inflight s) as [| p [| q l]] eqn:Hfl; [| | contradiction].
    + apply lockInvariant_enter, call_from_any_page.
    + destruct Hinv as (Hflag & Hs & Hrel).
      destruct (call_while_locked element format customPrompt (page s) Hflag)
        as (m & sev & H).
      rewrite H. unfold lockInvariant, enter. cbn [fst snd settled inflight page].
      auto.
  - unfold lockInvariant in Hinv. rewrite Hin in Hinv.
    destruct before as [| b before]; cbn [app] in Hinv.
    + destruct after as [| a after]; [| contradiction].
      destruct Hinv as (Hflag & _ & Hrel). cbn [app].
      apply lockInvariant_enter.
      destruct (advance_releases p' (page s)
                  (resumes_releases p p' Hres Hrel) Hflag) as [[Hs _] | H];
        [left; exact Hs | right; exact H].
    + destruct before; cbn [app] in Hinv; contradiction.
  - unfold lockInvariant in *. cbn [inflight page].
    destruct (inflight s) as [| p [| q l]]; [exact I | | contradiction].
    destruct Hinv as (H1 & H2 & H3). repeat split; congruence.
Qed.

Lemma reachable_invariant s : reachable cfg s -> lockInvariant s.
Proof.
  induction 1 as [w Hfree | s s' _ IH Hstep].
  - exact I.
  - eapply step_keeps_invariant; eassumption.
Qed.

Lemma invariant_one_payload s :
  lockInvariant s ->
  (List.length (inflight s) <= 1)%nat /\ (List.length (payloadsInFlight s) <= 1)%nat.
Proof.
  unfold lockInvariant, payloadsInFlight.
  destruct (inflight s) as [| p [| q l]]; cbn [List.length flat_map];
    intros H; try contradiction.
  - split; lia.
  - split; [lia |]. rewrite app_nil_r. destruct p; cbn; lia.
Qed.

End Invariant.

Lemma pageAfterFirstCall_reachable : reachable CONFIG pageAfterFirstCall.
Proof.
  unfold pageAfterFirstCall.
  apply (@reachable_step CONFIG {| page := pageWith (lit "Hello"); inflight := [] |} _).
  - apply reachable_start. reflexivity.
  - apply step_call.
Qed.

(** C5, as stated, fails.  A first call is suspended and holds the lock;
    the user empties the editor; a second call is then answered with the
    validation warning, not with the busy rejection. *)
Lemma locked_call_with_empty_text_is_not_busy :
  reachable CONFIG pageWhileProcessing
  /\ isProcessing (editorState (page pageWhileProcessing)) = true
  /\ page (call CONFIG (ElementString (lit "tutorial")) [] None pageWhileProcessing)
     = showNotification emptyMessage Warning (page pageWhileProcessing)
  /\ ~ In (busyMessage, Info)
          (notifications
             (trace (page (call CONFIG (ElementString (lit "tutorial")) [] None
                                pageWhileProcessing)))).
Proof.
  split.
  - eapply reachable_step; [exact pageAfterFirstCall_reachable |].
    apply (@step_page CONFIG pageAfterFirstCall
                      (dispatchInput (setEditorValue [] (page pageAfterFirstCall)))).
    reflexivity.
  - split; [reflexivity |]. split; [reflexivity |].
    cbn. intros H. repeat (destruct H as [H | H]; [discriminate |]). exact H.
Qed.

(** C5, amended.  A call made while an earlier invocation holds the
    lock returns at once with a notice and nothing else: it is not
    suspended, hence not queued; [editorState], and with it
    [isProcessing], is not written; the suspended invocation, with its
    payload and its loop counter, is the same as before.  The notice is
    the busy rejection when the text passes the validation, and the
    validation warning when it does not.  At any time at most one
    invocation is suspended, hence at most one payload is in flight. *)
Theorem busy_call_is_rejected_not_queued :
  forall (cfg : Config) (s : Sys) (element : ElementArg) (format : jsstring)
         (customPrompt : option jsstring),
    reachable cfg s ->
    isProcessing (editorState (page s)) = true ->
    let s' := call cfg element format customPrompt s in
    (exists m sev,
        advance (processWithAI cfg element format customPrompt) (page s)
        = (Ret tt, showNotification m sev (page s))
        /\ page s' = showNotification m sev (page s)
        /\ (passesValidation cfg (page s) = true -> m = busyMessage /\ sev = Info)
        /\ (passesValidation cfg (page s) = false -> sev = Warning))
    /\ editorState (page s') = editorState (page s)
    /\ inflight s' = inflight s
    /\ (List.length (payloadsInFlight s') <= 1)%nat
    /\ (forall s0, reachable cfg s0 -> (List.length (payloadsInFlight s0) <= 1)%nat).
Proof.
  intros cfg s element format customPrompt Hreach Hflag s'.
  pose proof (reachable_invariant cfg s Hreach) as Hinv.
  assert (Hcall : exists m sev,
             advance (processWithAI cfg element format customPrompt) (page s)
             = (Ret tt, showNotification m sev (page s))
             /\ (passesValidation cfg (page s) = true -> m = busyMessage /\ sev = Info)
             /\ (passesValidation cfg (page s) = false -> sev = Warning)).
  { destruct (passesValidation cfg (page s)) eqn:Hvalid.
    - destruct (busy_call_returns cfg element format customPrompt [] (page s)
                                  Hvalid Hflag) as [_ Hadv].
      exists busyMessage, Info. split; [exact Hadv |]. split; [auto | discriminate].
    - destruct (invalid_text_returns cfg element format customPrompt [] (page s)
                                     (passesValidation_false cfg (page s) Hvalid))
        as (_ & Hadv & _).
      eexists. exists Warning. split; [exact Hadv |]. split; [discriminate | auto]. }
  destruct Hcall as (m & sev & Hadv & Hbusy & Hwarn).
  assert (Hs' : s' = {| page := showNotification m sev (page s);
                        inflight := inflight s |}).
  { unfold s', call, enter. rewrite Hadv. reflexivity. }
  split.
  - exists m, sev. rewrite Hs'. repeat split; auto; apply Hbusy; assumption.
  - rewrite Hs'. cbn [page inflight].
    split; [reflexivity |]. split; [reflexivity |]. split.
    + unfold payloadsInFlight. cbn [inflight].
      apply (invariant_one_payload s Hinv).
    + intros s0 Hs0. apply invariant_one_payload, (reachable_invariant cfg), Hs0.
Qed.

Lemma busy_call_is_rejected_not_queued_witness :
  reachable CONFIG pageAfterFirstCall
  /\ isProcessing (editorState (page pageAfterFirstCall)) = true
  /\ page (call CONFIG (ElementString (lit "readme")) [] None pageAfterFirstCall)
     = showNotification busyMessage Info (page pageAfterFirstCall)
  /\ inflight (call CONFIG (ElementString (lit "readme")) [] None pageAfterFirstCall)
     = inflight pageAfterFirstCall.
Proof.
  assert (Hreach : reachable CONFIG pageAfterFirstCall).
  { unfold pageAfterFirstCall.
    apply (@reachable_step CONFIG {| page := pageWith (lit "Hello"); inflight := [] |} _).
    - apply reachable_start. reflexivity.
    - apply step_call. }
  assert (Hflag : isProcessing (editorState (page pageAfterFirstCall)) = true)
    by reflexivity.
  repeat (split; [assumption |]).
  destruct (busy_call_is_rejected_not_queued
              CONFIG pageAfterFirstCall (ElementString (lit "readme")) [] None
              Hreach Hflag)
    as ((m & sev & _ & Hpage & Hbusy & _) & _ & Hqueue & _).
  destruct (Hbusy eq_refl) as [-> ->].
  split; [exact Hpage | exact Hqueue].
Defined.

(* ================================================================== *)
(** * Scenarios *)
(* ================================================================== *)

(** The editor holds ["Hello"], the format is [tutorial] and the worker
    answers [{success: true, processedText: "# Step 1: Hello"}]: one
    request, and the editor receives exactly that text. *)
Example tutorial_scenario :
  exists w',
    run [okReply (lit "# Step 1: Hello")]
        (processWithAI CONFIG (ElementString (lit "tutorial")) [] None)
        (pageWith (lit "Hello"))
    = (Finished (Normal tt), w', [])
    /\ requests (trace w') = [tutorialPayload (lit "Hello")]
    /\ sleeps (trace w') = []
    /\ editorValue w' = lit "# Step 1: Hello"
    /\ isProcessing (editorState w') = false
    /\ List.length (errors (editorState w')) = 1%nat.
Proof.
  eexists. split; [vm_compute; reflexivity |]. repeat split.
Qed.

(** A text of 1001 letters is refused without any request. *)
Example too_long_scenario :
  run [okReply (lit "unused")]
      (processWithAI CONFIG (ElementString (lit "tutorial")) [] None)
      (pageWith (repeat 97%N 1001))
  = (Finished (Normal tt),
     showNotification
       ([9888; 65039]%N
        ++ lit " Text is too long. Please limit to 1000 characters. Current: 1001")
       Warning (pageWith (repeat 97%N 1001)),
     [okReply (lit "unused")]).
Proof. vm_compute. reflexivity. Qed.

(** A number in the place of the processed text: the twitter enrichment
    throws at [content.split], the [catch] clause logs the error and the
    number comes back unchanged. *)
Example enrichContent_catches :
  exists w',
    enrichContent (VNumber 42) (lit "twitter-post")
                  {| enableIcons := Some true; enablePrefilled := Some true |}
                  (pageWith [])
    = (Normal (VNumber 42), w')
    /\ option_map info_error (lastError (editorState w'))
       = Some (Some (lit "content.split is not a function")).
Proof.
  eexists. split; [vm_compute; reflexivity |]. reflexivity.
Qed.

(** Icons are stripped by code point and long dashes replaced when the
    icons setting is off. *)
Example enrichContent_strips_icons :
  fst (enrichContent (VString (lit "Ship it " ++ [55357; 56960; 8212]%N ++ lit "now"))
                     (lit "tutorial")
                     {| enableIcons := Some false; enablePrefilled := Some true |}
                     (pageWith []))
  = Normal (VString (lit "Ship it -now")).
Proof. vm_compute. reflexivity. Qed.

(* ================================================================== *)
(** * More of the page *)
(* ================================================================== *)

(** ** Facts on the string primitives *)

Lemma eqb_eq (a b : jsstring) : JS.eqb a b = true <-> a = b.
Proof.
  revert b. induction a as [| x a IH]; intros [| y b].
  - split; reflexivity.
  - split; discriminate.
  - split; discriminate.
  - change (JS.eqb (x :: a) (y :: b)) with (N.eqb x y && JS.eqb a b).
    rewrite andb_true_iff, N.eqb_eq, IH. split.
    + intros [-> ->]. reflexivity.
    + intros H. injection H. auto.
Qed.

Lemma eqb_refl (a : jsstring) : JS.eqb a a = true.
Proof. apply eqb_eq. reflexivity. Qed.

Lemma startsWith_spec (p s : jsstring) :
  startsWith p s = true <-> exists t, s = p ++ t.
Proof.
  revert s. induction p as [| x p IH]; intros s; cbn [startsWith].
  - split; [intros _; exists s; reflexivity | reflexivity].
  - destruct s as [| y s].
    + split; [discriminate | intros [t H]; discriminate].
    + rewrite andb_true_iff, N.eqb_eq, IH. split.
      * intros [-> [t ->]]. exists t. reflexivity.
      * intros [t H]. injection H as -> ->. split; [reflexivity | exists t; reflexivity].
Qed.

Lemma startsWith_app (p s : jsstring) : startsWith p (p ++ s) = true.
Proof. apply startsWith_spec. exists s. reflexivity. Qed.

Lemma includes_unfold (p s : jsstring) :
  includes p s
  = startsWith p s || match s with [] => false | _ :: t => includes p t end.
Proof. destruct s; reflexivity. Qed.

Lemma includes_spec (p s : jsstring) :
  includes p s = true <-> exists a b, s = a ++ p ++ b.
Proof.
  induction s as [| c s IH]; rewrite includes_unfold, orb_true_iff.
  - rewrite startsWith_spec. split.
    + intros [[t H] | H]; [| discriminate]. exists [], t. exact H.
    + intros (a & b & H). left. destruct a; [exists b; exact H | discriminate].
  - rewrite startsWith_spec, IH. split.
    + intros [[t H] | (a & b & H)].
      * exists [], t. exact H.
      * exists (c :: a), b. rewrite H. reflexivity.
    + intros (a & b & H). destruct a as [| x a].
      * left. exists b. exact H.
      * right. injection H as _ H. exists a, b. exact H.
Qed.

Lemma includes_app_r (p a s : jsstring) :
  includes p s = true -> includes p (a ++ s) = true.
Proof.
  rewrite !includes_spec. intros (x & y & ->).
  exists (a ++ x), y. rewrite app_assoc. reflexivity.
Qed.

Lemma includes_app_l (p s b : jsstring) :
  includes p s = true -> includes p (s ++ b) = true.
Proof.
  rewrite !includes_spec. intros (x & y & ->).
  exists x, (y ++ b). rewrite <- !app_assoc. reflexivity.
Qed.

Lemma includes_self (p : jsstring) : includes p p = true.
Proof. apply includes_spec. exists [], []. rewrite app_nil_r. reflexivity. Qed.

(** *** [split] and [join] *)

Lemma split_not_nil (sep : N) (s : jsstring) : split sep s <> [].
Proof.
  induction s as [| c s IH]; cbn [split]; [discriminate |].
  destruct (N.eqb c sep); [discriminate |].
  destruct (split sep s); discriminate.
Qed.

Lemma join_cons (sep x : jsstring) (rest : list jsstring) :
  rest <> [] -> join sep (x :: rest) = x ++ sep ++ join sep rest.
Proof. destruct rest; [congruence | reflexivity]. Qed.

Lemma split_cons_other (sep c : N) (s : jsstring) :
  N.eqb c sep = false ->
  exists l ls, split sep s = l :: ls /\ split sep (c :: s) = (c :: l) :: ls.
Proof.
  intros H. cbn [split]. rewrite H.
  destruct (split sep s) as [| l ls] eqn:E; [destruct (split_not_nil sep s E) |].
  exists l, ls. split; reflexivity.
Qed.

(** Joining the lines of a text gives the text back. *)
Lemma join_split (s : jsstring) : join [LF] (split LF s) = s.
Proof.
  induction s as [| c s IH]; [reflexivity |].
  destruct (N.eqb c LF) eqn:E.
  - cbn [split]. rewrite E. rewrite join_cons by apply split_not_nil.
    rewrite IH. apply N.eqb_eq in E. subst c. reflexivity.
  - destruct (split_cons_other LF c s E) as (l & ls & H1 & H2).
    rewrite H2. rewrite H1 in IH.
    destruct ls as [| l' ls].
    + cbn [join] in *. congruence.
    + rewrite join_cons in IH by discriminate. rewrite join_cons by discriminate.
      rewrite <- IH. reflexivity.
Qed.

Lemma split_no_sep (s : jsstring) : Forall (fun l => ~ In LF l) (split LF s).
Proof.
  induction s as [| c s IH]; cbn [split].
  - constructor; [intros [] | constructor].
  - destruct (N.eqb c LF) eqn:E.
    + constructor; [intros [] | exact IH].
    + destruct (split LF s) as [| l ls]; [constructor; [| constructor] |].
      * intros [H | []]. subst c. rewrite N.eqb_refl in E. discriminate.
      * inversion IH as [| ? ? Hl Hls]; subst. constructor; [| exact Hls].
        intros [H | H]; [| exact (Hl H)].
        subst c. rewrite N.eqb_refl in E. discriminate.
Qed.

Lemma split_line (l : jsstring) : ~ In LF l -> split LF l = [l].
Proof.
  induction l as [| c l IH]; intros H; [reflexivity |].
  cbn [split]. destruct (N.eqb c LF) eqn:E.
  - apply N.eqb_eq in E. subst c. exfalso. apply H. left. reflexivity.
  - rewrite IH; [reflexivity |]. intros Hin. apply H. right. exact Hin.
Qed.

Lemma split_app_line (l s : jsstring) :
  ~ In LF l -> split LF (l ++ LF :: s) = l :: split LF s.
Proof.
  induction l as [| c l IH]; intros H.
  - cbn [app split]. rewrite N.eqb_refl. reflexivity.
  - cbn [app split]. destruct (N.eqb c LF) eqn:E.
    + apply N.eqb_eq in E. subst c. exfalso. apply H. left. reflexivity.
    + rewrite IH; [reflexivity |]. intros Hin. apply H. right. exact Hin.
Qed.

(** Splitting the join of lines that hold no line feed gives the lines
    back. *)
Lemma split_join (ls : list jsstring) :
  ls <> [] -> Forall (fun l => ~ In LF l) ls -> split LF (join [LF] ls) = ls.
Proof.
  induction ls as [| l ls IH]; intros Hne Hall; [congruence |].
  inversion Hall as [| ? ? Hl Hls]; subst.
  destruct ls as [| l' ls].
  - cbn [join]. apply split_line. exact Hl.
  - rewrite join_cons by discriminate. cbn [app].
    rewrite split_app_line by exact Hl. rewrite IH; [reflexivity | discriminate | exact Hls].
Qed.

Lemma split_length (s : jsstring) :
  List.length (split LF s) = S (count_occ N.eq_dec s LF).
Proof.
  induction s as [| c s IH]; [reflexivity |].
  cbn [split count_occ]. destruct (N.eqb c LF) eqn:E.
  - apply N.eqb_eq in E. subst c. destruct (N.eq_dec LF LF); [| congruence].
    cbn [List.length]. rewrite IH. reflexivity.
  - destruct (N.eq_dec c LF) as [-> |]; [rewrite N.eqb_refl in E; discriminate |].
    destruct (split LF s); cbn [List.length] in *; lia.
Qed.

Lemma join_app (sep : jsstring) (a b : list jsstring) :
  a <> [] -> b <> [] -> join sep (a ++ b) = join sep a ++ sep ++ join sep b.
Proof.
  induction a as [| x a IH]; intros Ha Hb; [congruence |].
  destruct a as [| y a].
  - cbn [app]. rewrite join_cons by exact Hb. reflexivity.
  - cbn [app] in *. rewrite (join_cons sep x) by discriminate.
    rewrite (join_cons sep x) by discriminate.
    rewrite IH by (try discriminate; exact Hb). rewrite <- !app_assoc. reflexivity.
Qed.

Lemma join_snoc (sep : jsstring) (a : list jsstring) (x : jsstring) :
  a <> [] -> join sep (a ++ [x]) = join sep a ++ sep ++ x.
Proof. intros Ha. rewrite join_app by (try discriminate; exact Ha). reflexivity. Qed.

(** *** Decimal numerals *)

Lemma digits_of_uint (d : Decimal.uint) :
  Forall (fun c => Re.isDigit c = true) (lit (NilEmpty.string_of_uint d)).
Proof.
  unfold lit.
  induction d; cbn [NilEmpty.string_of_uint list_ascii_of_string map];
    constructor; solve [reflexivity | assumption].
Qed.

Lemma ofNat_digits (n : nat) : Forall (fun c => Re.isDigit c = true) (ofNat n).
Proof.
  unfold ofNat, NilZero.string_of_uint.
  destruct (Nat.to_uint n) eqn:E; try (rewrite <- E; apply digits_of_uint).
  repeat constructor.
Qed.

Lemma ofNat_not_nil (n : nat) : ofNat n <> [].
Proof.
  unfold ofNat, NilZero.string_of_uint, lit.
  destruct (Nat.to_uint n); cbn; discriminate.
Qed.

Lemma ofNat_no_LF (n : nat) : ~ In LF (ofNat n).
Proof.
  intros H. pose proof (ofNat_digits n) as D.
  rewrite Forall_forall in D. specialize (D LF H). discriminate.
Qed.

(** *** What a replacement keeps *)

Lemma In_skipn {A} (x : A) (n : nat) (l : list A) : In x (skipn n l) -> In x l.
Proof.
  intros H. rewrite <- (firstn_skipn n l). apply in_or_app. right. exact H.
Qed.

Lemma In_firstn {A} (x : A) (n : nat) (l : list A) : In x (firstn n l) -> In x l.
Proof.
  intros H. rewrite <- (firstn_skipn n l). apply in_or_app. left. exact H.
Qed.

(** A replacement by the empty text adds no code unit. *)
Lemma replaceFirst_erasing (m : matcher) (s : jsstring) (x : N) :
  (forall u len rep, m u = Some (len, rep) -> rep = []) ->
  In x (replaceFirst m s) -> In x s.
Proof.
  intros Hm. induction s as [| c s IH]; cbn [replaceFirst]; [tauto |].
  destruct (m (c :: s)) as [[len rep] |] eqn:E.
  - rewrite (Hm _ _ _ E). cbn [app]. apply In_skipn.
  - intros [H | H]; [left; exact H | right; exact (IH H)].
Qed.

Lemma stepLabel_erases (u : jsstring) (len : nat) (rep : jsstring) :
  Re.stepLabel u = Some (len, rep) -> rep = [].
Proof.
  unfold Re.stepLabel.
  destruct (startsWith (lit "step") (map lowerAscii (firstn 4 u))); [| discriminate].
  intros H. injection H as _ H. symmetry. exact H.
Qed.

(** ** The local formatters *)

(** *** [formatAsTutorial] *)

Lemma tutorialStep_other (formatted : list jsstring) (stepCounter : nat)
      (line : jsstring) :
  isStepLine line = false ->
  tutorialStep (formatted, stepCounter) line = (formatted ++ [line], stepCounter).
Proof. unfold tutorialStep, isStepLine. intros ->. reflexivity. Qed.

Lemma heading_not_step (n : nat) (rest : jsstring) :
  isStepLine (lit "## Step " ++ ofNat n ++ lit ": " ++ rest) = false.
Proof.
  unfold isStepLine.
  replace (lit "## Step ") with (lit "#" ++ lit "# Step ") by reflexivity.
  rewrite <- app_assoc, startsWith_app. apply andb_false_r.
Qed.

Lemma heading_no_LF (n : nat) (line : jsstring) :
  ~ In LF line ->
  ~ In LF (lit "## Step " ++ ofNat n ++ lit ": " ++ replaceFirst Re.stepLabel line).
Proof.
  intros Hline H.
  apply in_app_or in H. destruct H as [H | H].
  { revert H. vm_compute. intuition discriminate. }
  apply in_app_or in H. destruct H as [H | H]; [exact (ofNat_no_LF n H) |].
  apply in_app_or in H. destruct H as [H | H].
  { revert H. vm_compute. intuition discriminate. }
  apply Hline. eapply replaceFirst_erasing; [exact stepLabel_erases | exact H].
Qed.

(** The loop pushes one line for each line it reads, none of which is
    taken for a step again. *)
Lemma tutorial_loop (lines : list jsstring) :
  forall (formatted : list jsstring) (stepCounter : nat),
  exists (pushed : list jsstring) (stepCounter' : nat),
    fold_left tutorialStep lines (formatted, stepCounter)
    = (formatted ++ pushed, stepCounter')
    /\ Forall (fun l => isStepLine l = false) pushed
    /\ (Forall (fun l => ~ In LF l) lines -> Forall (fun l => ~ In LF l) pushed)
    /\ List.length pushed = List.length lines.
Proof.
  induction lines as [| line lines IH]; intros formatted stepCounter.
  - exists [], stepCounter. rewrite app_nil_r. repeat split; constructor.
  - cbn [fold_left]. destruct (isStepLine line) eqn:E.
    + unfold tutorialStep at 2. fold (isStepLine line). rewrite E.
      destruct (IH (formatted
                    ++ [lit "## Step " ++ ofNat stepCounter ++ lit ": "
                        ++ replaceFirst Re.stepLabel line]) (S stepCounter))
        as (pushed & n' & H & Hst & Hlf & Hlen).
      eexists (_ :: pushed), n'. rewrite H, <- app_assoc. split; [reflexivity |].
      split; [constructor; [apply heading_not_step | exact Hst] |].
      split; [| cbn [List.length]; congruence].
      intros Hall. inversion Hall as [| ? ? Hl Hls]; subst.
      constructor; [apply heading_no_LF; exact Hl | exact (Hlf Hls)].
    + rewrite tutorialStep_other by exact E.
      destruct (IH (formatted ++ [line]) stepCounter)
        as (pushed & n' & H & Hst & Hlf & Hlen).
      exists (line :: pushed), n'. rewrite H, <- app_assoc. split; [reflexivity |].
      split; [constructor; assumption |].
      split; [| cbn [List.length]; congruence].
      intros Hall. inversion Hall as [| ? ? Hl Hls]; subst.
      constructor; [exact Hl | exact (Hlf Hls)].
Qed.

Lemma tutorial_loop_stable (lines : list jsstring) :
  Forall (fun l => isStepLine l = false) lines ->
  forall (formatted : list jsstring) (stepCounter : nat),
    fold_left tutorialStep lines (formatted, stepCounter)
    = (formatted ++ lines, stepCounter).
Proof.
  induction 1 as [| line lines Hline _ IH]; intros formatted stepCounter.
  - rewrite app_nil_r. reflexivity.
  - cbn [fold_left]. rewrite tutorialStep_other by exact Hline.
    rewrite IH, <- app_assoc. reflexivity.
Qed.

Lemma length_not_nil {A} (l l' : list A) :
  List.length l = List.length l' -> l' <> [] -> l <> [].
Proof. destruct l, l'; cbn; congruence. Qed.

(** X1. [formatAsTutorial] is idempotent: the headings it writes start
    with [#], so that a second pass numbers no line again and returns
    the text of the first. *)
Theorem formatAsTutorial_idempotent :
  forall content : jsstring,
    formatAsTutorial (formatAsTutorial content) = formatAsTutorial content.
Proof.
  intros content. unfold formatAsTutorial.
  destruct (tutorial_loop (split LF content) [] 1)
    as (pushed & n' & H & Hst & Hlf & Hlen).
  rewrite H. cbn [app fst].
  rewrite split_join.
  - rewrite (tutorial_loop_stable pushed Hst). reflexivity.
  - exact (length_not_nil _ _ Hlen (split_not_nil LF content)).
  - apply Hlf, split_no_sep.
Qed.

(** *** [formatAsArticle] *)

Lemma articleLine_cases (line : jsstring) :
  articleLine line = line \/ articleLine line = lit "## " ++ line.
Proof.
  unfold articleLine.
  destruct ((0 <? List.length line)%nat && negb (startsWith (lit "#") line)
            && negb (startsWith (lit "-") line) && negb (startsWith (lit "*") line));
    [| left; reflexivity].
  destruct ((List.length line <? 60)%nat && negb (includes (lit ".") line)
            && negb (includes (lit ",") line)); [right | left]; reflexivity.
Qed.

Lemma articleLine_heading (line : jsstring) :
  articleLine (lit "## " ++ line) = lit "## " ++ line.
Proof.
  unfold articleLine.
  replace (lit "## ") with (lit "#" ++ lit "# ") by reflexivity.
  rewrite <- app_assoc, startsWith_app. cbn [negb]. rewrite andb_false_r.
  reflexivity.
Qed.

Lemma articleLine_idempotent (line : jsstring) :
  articleLine (articleLine line) = articleLine line.
Proof.
  destruct (articleLine_cases line) as [H | H].
  - rewrite H. exact H.
  - rewrite H. apply articleLine_heading.
Qed.

Lemma articleLine_no_LF (line : jsstring) : ~ In LF line -> ~ In LF (articleLine line).
Proof.
  intros Hline. destruct (articleLine_cases line) as [-> | ->]; [exact Hline |].
  intros H. apply in_app_or in H. destruct H as [H | H]; [| exact (Hline H)].
  revert H. vm_compute. intuition discriminate.
Qed.

(** X2. [formatAsArticle] is idempotent: a line it has turned into a
    heading starts with [#] and is left alone by a second pass, and a
    line it has left alone is left alone again. *)
Theorem formatAsArticle_idempotent :
  forall content : jsstring,
    formatAsArticle (formatAsArticle content) = formatAsArticle content.
Proof.
  intros content. unfold formatAsArticle.
  rewrite split_join.
  - rewrite map_map. f_equal. apply map_ext. intros line. apply articleLine_idempotent.
  - intros H. apply map_eq_nil in H. exact (split_not_nil LF content H).
  - pose proof (split_no_sep content) as Hall. induction Hall; constructor.
    + apply articleLine_no_LF. assumption.
    + assumption.
Qed.

(** *** [formatAsCode] *)

Lemma code_loop_plain (lines : list jsstring) :
  Forall (fun l => startsWithKeyword l = false) lines ->
  forall formatted : list jsstring,
    fold_left codeStep lines (formatted, false) = (formatted ++ lines, false).
Proof.
  induction 1 as [| line lines Hline _ IH]; intros formatted.
  - rewrite app_nil_r. reflexivity.
  - cbn [fold_left]. unfold codeStep at 2. rewrite Hline. cbn [andb].
    rewrite IH, <- app_assoc. reflexivity.
Qed.

(** X3. A text that mentions [function], [const] or [class] is handed
    to [formatAsCode] by the local formatter; when none of its lines
    starts with one of the seven keywords, the text comes back as it
    was, and [autoFormatLocal] writes back what it read. *)
Theorem localFormat_without_keyword_line :
  forall content : jsstring,
    includes (lit "function") content || includes (lit "const") content
    || includes (lit "class") content = true ->
    Forall (fun line => startsWithKeyword line = false) (split LF content) ->
    localFormat content = content
    /\ formatAsCode content = content.
Proof.
  intros content Hcode Hplain.
  assert (H : formatAsCode content = content).
  { unfold formatAsCode. rewrite (code_loop_plain _ Hplain). cbn [app].
    apply join_split. }
  split; [| exact H].
  unfold localFormat. rewrite Hcode. exact H.
Qed.

Lemma localFormat_without_keyword_line_witness :
  (includes (lit "function") (lit "call the function twice")
   || includes (lit "const") (lit "call the function twice")
   || includes (lit "class") (lit "call the function twice") = true)
  /\ Forall (fun line => startsWithKeyword line = false)
            (split LF (lit "call the function twice"))
  /\ localFormat (lit "call the function twice") = lit "call the function twice".
Proof.
  assert (H1 : includes (lit "function") (lit "call the function twice")
               || includes (lit "const") (lit "call the function twice")
               || includes (lit "class") (lit "call the function twice") = true)
    by (vm_compute; reflexivity).
  assert (H2 : Forall (fun line => startsWithKeyword line = false)
                      (split LF (lit "call the function twice")))
    by (vm_compute; repeat constructor).
  split; [exact H1 |]. split; [exact H2 |].
  exact (proj1 (localFormat_without_keyword_line _ H1 H2)).
Defined.

(** Fences *)

Lemma countLines_app (l : jsstring) (a b : list jsstring) :
  countLines l (a ++ b) = (countLines l a + countLines l b)%nat.
Proof. unfold countLines. rewrite filter_app, length_app. reflexivity. Qed.

Lemma countLines_other (l x : jsstring) : x <> l -> countLines l [x] = 0%nat.
Proof.
  intros H. unfold countLines. cbn [filter].
  destruct (JS.eqb l x) eqn:E; [| reflexivity].
  apply eqb_eq in E. congruence.
Qed.

Lemma countLines_same (l : jsstring) : countLines l [l] = 1%nat.
Proof. unfold countLines. cbn [filter]. rewrite eqb_refl. reflexivity. Qed.

(** One turn of the loop keeps the count: the opening fences pushed
    are the closing ones, plus the one of the block that is open. *)
Lemma codeStep_fences (formatted : list jsstring) (inCodeBlock : bool)
      (line : jsstring) :
  noFence line -> ~ In LF line ->
  countLines openingFence formatted
  = (countLines closingFence formatted + (if inCodeBlock then 1 else 0))%nat ->
  Forall (fun l => ~ In LF l) formatted ->
  countLines openingFence (fst (codeStep (formatted, inCodeBlock) line))
  = (countLines closingFence (fst (codeStep (formatted, inCodeBlock) line))
     + (if snd (codeStep (formatted, inCodeBlock) line) then 1 else 0))%nat
  /\ Forall (fun l => ~ In LF l) (fst (codeStep (formatted, inCodeBlock) line)).
Proof.
  assert (Hoc : openingFence <> closingFence) by (vm_compute; discriminate).
  assert (Heo : [] <> openingFence) by (vm_compute; discriminate).
  assert (Hec : [] <> closingFence) by (vm_compute; discriminate).
  assert (Hfo : ~ In LF openingFence) by (vm_compute; intuition discriminate).
  assert (Hfc : ~ In LF closingFence) by (vm_compute; intuition discriminate).
  intros [Hlo Hlc] Hline Hinv Hfree.
  unfold codeStep. fold openingFence. fold closingFence.
  destruct (startsWithKeyword line);
    [destruct inCodeBlock
    | destruct (inCodeBlock && JS.eqb (trim line) []); [| destruct inCodeBlock]];
    cbn [fst snd].
  - split.
    + rewrite !countLines_app, !countLines_other by assumption. lia.
    + apply Forall_app. split; [exact Hfree | repeat constructor; exact Hline].
  - split.
    + rewrite !countLines_app, countLines_same,
        (countLines_other closingFence openingFence Hoc),
        !countLines_other by assumption.
      lia.
    + rewrite !Forall_app. repeat split; try assumption; repeat constructor; assumption.
  - split.
    + rewrite !countLines_app, !countLines_other by assumption. lia.
    + apply Forall_app. split; [exact Hfree | repeat constructor; exact Hline].
  - split.
    + change [closingFence; []; line] with ([closingFence] ++ [[]] ++ [line]).
      rewrite !countLines_app, countLines_same,
        (countLines_other openingFence closingFence (not_eq_sym Hoc)),
        !countLines_other by assumption.
      lia.
    + apply Forall_app. split; [exact Hfree |].
      repeat constructor; try assumption. intros [].
  - split.
    + rewrite !countLines_app, !countLines_other by assumption. lia.
    + apply Forall_app. split; [exact Hfree | repeat constructor; exact Hline].
Qed.

Lemma code_loop_fences (lines : list jsstring) :
  Forall noFence lines ->
  Forall (fun l => ~ In LF l) lines ->
  forall st : list jsstring * bool,
    countLines openingFence (fst st)
    = (countLines closingFence (fst st) + (if snd st then 1 else 0))%nat ->
    Forall (fun l => ~ In LF l) (fst st) ->
    countLines openingFence (fst (fold_left codeStep lines st))
    = (countLines closingFence (fst (fold_left codeStep lines st))
       + (if snd (fold_left codeStep lines st) then 1 else 0))%nat
    /\ Forall (fun l => ~ In LF l) (fst (fold_left codeStep lines st)).
Proof.
  induction 1 as [| line lines Hno _ IH]; intros Hlines [formatted inCodeBlock] Hinv Hfree.
  - split; assumption.
  - inversion Hlines as [| ? ? Hline Hrest]; subst. cbn [fold_left].
    destruct (codeStep_fences formatted inCodeBlock line Hno Hline Hinv Hfree)
      as [Hinv' Hfree'].
    apply IH; assumption.
Qed.

Lemma codeStep_grows (line : jsstring) (st : list jsstring * bool) :
  fst (codeStep st line) <> [].
Proof.
  destruct st as [formatted inCodeBlock]. unfold codeStep.
  destruct (startsWithKeyword line);
    [destruct inCodeBlock
    | destruct (inCodeBlock && JS.eqb (trim line) []); [| destruct inCodeBlock]];
    cbn [fst]; intros H; apply app_eq_nil in H; destruct H as [H1 H2];
    discriminate.
Qed.

Lemma code_loop_grows (lines : list jsstring) :
  forall st : list jsstring * bool,
    fst st <> [] -> fst (fold_left codeStep lines st) <> [].
Proof.
  induction lines as [| line lines IH]; intros st Hst; [exact Hst |].
  cbn [fold_left]. apply IH, codeStep_grows.
Qed.

(** X4. The fences that [formatAsCode] writes are balanced: when no
    line of the text is itself a fence, its result has as many lines
    [```javascript] as lines [```]; a block still open at the last line
    is closed. *)
Theorem formatAsCode_balances_fences :
  forall content : jsstring,
    Forall noFence (split LF content) ->
    countLines openingFence (split LF (formatAsCode content))
    = countLines closingFence (split LF (formatAsCode content)).
Proof.
  intros content Hno.
  assert (Hoc : openingFence <> closingFence) by (vm_compute; discriminate).
  assert (Hfc : ~ In LF closingFence) by (vm_compute; intuition discriminate).
  unfold formatAsCode.
  destruct (code_loop_fences (split LF content) Hno (split_no_sep content)
                             ([], false) eq_refl (Forall_nil _))
    as [Hcount Hfree].
  assert (Hformatted : fst (fold_left codeStep (split LF content) ([], false)) <> []).
  { destruct (split LF content) as [| l ls] eqn:E;
      [destruct (split_not_nil LF content E) |].
    cbn [fold_left]. apply code_loop_grows, codeStep_grows. }
  destruct (fold_left codeStep (split LF content) ([], false))
    as [formatted inCodeBlock].
  cbn [fst snd] in *.
  destruct inCodeBlock.
  - change (lit "```") with closingFence. rewrite split_join.
    + rewrite !countLines_app, countLines_same,
        (countLines_other openingFence closingFence (not_eq_sym Hoc)).
      lia.
    + intros H. apply app_eq_nil in H. destruct H as [_ H]. discriminate.
    + apply Forall_app. split; [exact Hfree | repeat constructor; exact Hfc].
  - rewrite split_join by assumption. lia.
Qed.

Lemma formatAsCode_balances_fences_witness :
  Forall noFence (split LF (lit "const a = 1;" ++ [LF] ++ lit "done"))
  /\ countLines openingFence
       (split LF (formatAsCode (lit "const a = 1;" ++ [LF] ++ lit "done"))) = 1%nat
  /\ countLines closingFence
       (split LF (formatAsCode (lit "const a = 1;" ++ [LF] ++ lit "done"))) = 1%nat.
Proof.
  assert (H : Forall noFence (split LF (lit "const a = 1;" ++ [LF] ++ lit "done"))).
  { vm_compute. repeat constructor; discriminate. }
  split; [exact H |].
  pose proof (formatAsCode_balances_fences _ H) as E.
  split; [vm_compute; reflexivity |].
  rewrite <- E. vm_compute. reflexivity.
Defined.

(** ** More on the enrichment *)

(** *** Twitter *)

(** X5. Before they are numbered, the tweets of [enrichTwitterContent]
    have at most 280 code units each, whatever the text is; a thread of
    one tweet is returned without a number, as that tweet. *)
Theorem tweet_bodies_fit :
  forall content : jsstring,
    Forall (fun tweet => List.length tweet <= 280)%nat
           (segmentTweets (nonBlankLines content))
    /\ (forall tweet,
           segmentTweets (nonBlankLines content) = [tweet] ->
           enrichTwitterString content = tweet
           /\ (List.length (enrichTwitterString content) <= 280)%nat).
Proof.
  intros content.
  pose proof (segmentTweets_bounded (nonBlankLines content)) as Hfit.
  split; [exact Hfit |].
  intros tweet H.
  assert (E : enrichTwitterString content = tweet).
  { unfold enrichTwitterString, emittedTweets. fold (nonBlankLines content).
    rewrite H. reflexivity. }
  split; [exact E |].
  rewrite E. rewrite H in Hfit. inversion Hfit. assumption.
Qed.

Lemma tweet_bodies_fit_witness :
  segmentTweets (nonBlankLines (lit "one line")) = [lit "one line"]
  /\ enrichTwitterString (lit "one line") = lit "one line".
Proof.
  assert (H : segmentTweets (nonBlankLines (lit "one line")) = [lit "one line"])
    by (vm_compute; reflexivity).
  split; [exact H |].
  exact (proj1 (proj2 (tweet_bodies_fit (lit "one line")) (lit "one line") H)).
Defined.

Lemma join_snoc_glued (sep x y : jsstring) (a : list jsstring) :
  join sep (a ++ [x ++ sep ++ y]) = join sep (a ++ [x]) ++ sep ++ y.
Proof.
  destruct a as [| z a].
  - reflexivity.
  - rewrite !join_snoc by discriminate. rewrite <- !app_assoc. reflexivity.
Qed.

Lemma truthy_true (s : jsstring) : s <> [] -> truthy s = true.
Proof. destruct s; [congruence | reflexivity]. Qed.

Lemma tweetStep_keeps (st : list jsstring * jsstring) (done : list jsstring)
      (line : jsstring) :
  line <> [] -> (List.length line <= 280)%nat ->
  tweetsKeep st done -> tweetsKeep (tweetStep st line) (done ++ [line]).
Proof.
  intros Hne Hfit [[-> ->] | (Hdone & Hcur & Hjoin)]; right.
  - split; [discriminate |]. unfold tweetStep. cbn [truthy app].
    apply Nat.leb_le in Hfit. rewrite Hfit.
    destruct (List.length (LF :: line) <=? 280)%nat; cbn [fst snd app];
      split; try assumption; reflexivity.
  - destruct st as [tweets currentTweet]. cbn [fst snd] in *.
    split; [intros H; apply app_eq_nil in H; destruct H; discriminate |].
    unfold tweetStep. rewrite (truthy_true currentTweet Hcur).
    apply Nat.leb_le in Hfit. rewrite Hfit.
    destruct (List.length (currentTweet ++ [LF] ++ line) <=? 280)%nat;
      cbn [fst snd].
    + split; [intros H; apply app_eq_nil in H; destruct H; discriminate |].
      rewrite join_snoc_glued, Hjoin, join_snoc by exact Hdone. reflexivity.
    + split; [exact Hne |].
      rewrite join_snoc, Hjoin, join_snoc; try assumption; try reflexivity.
      intros H. apply app_eq_nil in H. destruct H; discriminate.
Qed.

Lemma tweet_loop_keeps (lines : list jsstring) :
  Forall (fun line => line <> [] /\ (List.length line <= 280)%nat) lines ->
  forall (st : list jsstring * jsstring) (done : list jsstring),
    tweetsKeep st done ->
    tweetsKeep (fold_left tweetStep lines st) (done ++ lines).
Proof.
  induction 1 as [| line lines [Hne Hfit] _ IH]; intros st done Hst.
  - rewrite app_nil_r. exact Hst.
  - cbn [fold_left].
    replace (done ++ line :: lines) with ((done ++ [line]) ++ lines)
      by (rewrite <- app_assoc; reflexivity).
    apply IH, tweetStep_keeps; assumption.
Qed.

Lemma nonBlank_not_nil (content : jsstring) :
  Forall (fun line => line <> []) (nonBlankLines content).
Proof.
  unfold nonBlankLines. apply Forall_forall. intros line H.
  apply filter_In in H. destruct H as [_ H]. intros ->. discriminate.
Qed.

(** X6. When every non-blank line of the text fits in a tweet, the
    segmentation loses nothing: the tweets, put together again line by
    line, are the non-blank lines of the text.  Tweets are cut at line
    ends only, and only blank lines disappear. *)
Theorem tweets_keep_the_text :
  forall content : jsstring,
    Forall (fun line => List.length line <= 280)%nat (nonBlankLines content) ->
    join [LF] (segmentTweets (nonBlankLines content))
    = join [LF] (nonBlankLines content).
Proof.
  intros content Hfit.
  assert (Hall : Forall (fun line => line <> [] /\ (List.length line <= 280)%nat)
                        (nonBlankLines content)).
  { pose proof (nonBlank_not_nil content) as Hne.
    rewrite Forall_forall in *. intros line H. split; auto. }
  pose proof (tweet_loop_keeps _ Hall ([], []) [] (or_introl (conj eq_refl eq_refl)))
    as Hkeep.
  cbn [app] in Hkeep. unfold segmentTweets.
  destruct (fold_left tweetStep (nonBlankLines content) ([], []))
    as [tweets currentTweet].
  destruct Hkeep as [[-> H] | (_ & Hcur & Hjoin)].
  - injection H as -> ->. reflexivity.
  - cbn [fst snd] in *. rewrite (truthy_true currentTweet Hcur). exact Hjoin.
Qed.

Lemma tweets_keep_the_text_witness :
  Forall (fun line => List.length line <= 280)%nat
         (nonBlankLines (repeat 97%N 200 ++ [LF; LF] ++ repeat 98%N 200))
  /\ segmentTweets (nonBlankLines (repeat 97%N 200 ++ [LF; LF] ++ repeat 98%N 200))
     = [repeat 97%N 200; repeat 98%N 200]
  /\ join [LF] (segmentTweets
                  (nonBlankLines (repeat 97%N 200 ++ [LF; LF] ++ repeat 98%N 200)))
     = join [LF] (nonBlankLines (repeat 97%N 200 ++ [LF; LF] ++ repeat 98%N 200)).
Proof.
  assert (H : Forall (fun line => List.length line <= 280)%nat
                     (nonBlankLines (repeat 97%N 200 ++ [LF; LF] ++ repeat 98%N 200))).
  { vm_compute. repeat constructor. }
  split; [exact H |]. split; [vm_compute; reflexivity |].
  exact (tweets_keep_the_text _ H).
Defined.

(** *** Runs of line feeds *)

Lemma replaceAllFrom_skip (m : matcher) (s : jsstring) :
  forall k : nat,
    (k <= List.length s)%nat ->
    replaceAllFrom m s k = replaceAllFrom m (skipn k s) 0.
Proof.
  induction s as [| c s IH]; intros k Hk.
  - destruct k; [reflexivity | cbn in Hk; lia].
  - destruct k as [| k]; [reflexivity |].
    cbn [replaceAllFrom skipn]. apply IH. cbn in Hk. lia.
Qed.

Lemma skipn_takeWhile (p : N -> bool) (s : jsstring) :
  skipn (List.length (takeWhile p s)) s = dropWhile p s.
Proof.
  induction s as [| c s IH]; [reflexivity |].
  cbn [takeWhile dropWhile]. destruct (p c); [exact IH | reflexivity].
Qed.

Lemma takeWhile_length (p : N -> bool) (s : jsstring) :
  (List.length (takeWhile p s) <= List.length s)%nat.
Proof.
  induction s as [| c s IH]; [apply Nat.le_refl |].
  cbn [takeWhile]. destruct (p c); cbn [List.length]; lia.
Qed.

Lemma dropWhile_length (p : N -> bool) (s : jsstring) :
  (List.length (dropWhile p s) <= List.length s)%nat.
Proof.
  induction s as [| c s IH]; [apply Nat.le_refl |].
  cbn [dropWhile]. destruct (p c); cbn [List.length]; lia.
Qed.

Lemma takeWhile_dropWhile (p : N -> bool) (s : jsstring) :
  takeWhile p (dropWhile p s) = [].
Proof.
  induction s as [| c s IH]; [reflexivity |].
  cbn [dropWhile]. destruct (p c) eqn:E; [exact IH |].
  cbn [takeWhile]. rewrite E. reflexivity.
Qed.

Lemma includes_tripleLF_cons (c : N) (s : jsstring) :
  includes tripleLF (c :: s)
  = (N.eqb LF c && (2 <=? leadingLF s)%nat) || includes tripleLF s.
Proof.
  rewrite includes_unfold. f_equal.
  unfold tripleLF, leadingLF. cbn [startsWith].
  destruct (N.eqb LF c); [| reflexivity]. cbn [andb].
  destruct s as [| d s]; [reflexivity |].
  cbn [takeWhile]. destruct (N.eqb LF d); [| reflexivity]. cbn [andb List.length].
  destruct s as [| e s]; [reflexivity |].
  cbn [takeWhile]. destruct (N.eqb LF e); reflexivity.
Qed.

(** Collapsing the runs of three line feeds and more leaves no such run,
    and at most two line feeds at the head. *)
Lemma newlines3_collapses (n : nat) :
  forall s : jsstring,
    (List.length s <= n)%nat ->
    includes tripleLF (replaceAll Re.newlines3 s) = false
    /\ leadingLF (replaceAll Re.newlines3 s) = Nat.min 2 (leadingLF s).
Proof.
  induction n as [| n IH]; intros s Hn.
  { destruct s; [split; reflexivity | cbn in Hn; lia]. }
  destruct s as [| c t]; [split; reflexivity |].
  cbn [List.length] in Hn.
  unfold replaceAll. cbn [replaceAllFrom].
  replace (Re.newlines3 (c :: t))
    with (if (3 <=? leadingLF (c :: t))%nat
          then Some (leadingLF (c :: t), [LF; LF]) else None) by reflexivity.
  destruct (N.eqb LF c) eqn:Ec.
  - assert (Hlead : leadingLF (c :: t) = S (leadingLF t)).
    { unfold leadingLF. cbn [takeWhile]. rewrite Ec. reflexivity. }
    rewrite Hlead. apply N.eqb_eq in Ec. subst c.
    destruct (3 <=? S (leadingLF t))%nat eqn:E3.
    + apply Nat.leb_le in E3. cbn [pred app].
      assert (Hrest : replaceAllFrom Re.newlines3 t (leadingLF t)
                      = replaceAll Re.newlines3 (dropWhile (N.eqb LF) t)).
      { unfold leadingLF. rewrite replaceAllFrom_skip by apply takeWhile_length.
        rewrite skipn_takeWhile. reflexivity. }
      rewrite Hrest. clear Hrest.
      destruct (IH (dropWhile (N.eqb LF) t)) as [Hno Hhead].
      { pose proof (dropWhile_length (N.eqb LF) t). lia. }
      unfold leadingLF at 2 in Hhead. rewrite takeWhile_dropWhile in Hhead.
      cbn [List.length Nat.min] in Hhead.
      set (rest := replaceAll Re.newlines3 (dropWhile (N.eqb LF) t)) in *.
      clearbody rest.
      assert (Hlf : leadingLF (LF :: rest) = 1%nat).
      { unfold leadingLF in *. cbn [takeWhile]. rewrite N.eqb_refl.
        cbn [List.length]. rewrite Hhead. reflexivity. }
      split.
      * rewrite !includes_tripleLF_cons, Hlf, Hhead, Hno. reflexivity.
      * unfold leadingLF in *. cbn [takeWhile]. rewrite !N.eqb_refl.
        cbn [List.length]. rewrite Hhead. lia.
    + apply Nat.leb_gt in E3.
      fold (replaceAll Re.newlines3 t).
      destruct (IH t) as [Hno Hhead]; [lia |].
      assert (Hsmall : leadingLF (replaceAll Re.newlines3 t) = leadingLF t) by lia.
      split.
      * rewrite includes_tripleLF_cons, Hno, Hsmall, N.eqb_refl.
        destruct (2 <=? leadingLF t)%nat eqn:E2; [| reflexivity].
        apply Nat.leb_le in E2. lia.
      * unfold leadingLF at 1. cbn [takeWhile]. rewrite N.eqb_refl.
        cbn [List.length]. fold (leadingLF (replaceAll Re.newlines3 t)). lia.
  - assert (Hlead : leadingLF (c :: t) = 0%nat).
    { unfold leadingLF. cbn [takeWhile]. rewrite Ec. reflexivity. }
    rewrite Hlead. cbn [Nat.leb].
    fold (replaceAll Re.newlines3 t).
    destruct (IH t) as [Hno _]; [lia |].
    split.
    + rewrite includes_tripleLF_cons, Ec, Hno. reflexivity.
    + unfold leadingLF. cbn [takeWhile]. rewrite Ec. reflexivity.
Qed.

(** X7. The LinkedIn enrichment and the enrichment of the formats that
    have none of their own never leave three line feeds in a row,
    whatever the text is: blank lines come one at a time. *)
Theorem enrichment_collapses_blank_lines :
  forall content : jsstring,
    includes tripleLF (enrichLinkedInString content) = false
    /\ includes tripleLF (enrichGenericString content) = false.
Proof.
  intros content. unfold enrichLinkedInString, enrichGenericString.
  split; eapply newlines3_collapses; apply Nat.le_refl.
Qed.

(** *** Peerlist *)

Lemma includes_join (p sep x : jsstring) (l : list jsstring) :
  In x l -> includes p x = true -> includes p (join sep l) = true.
Proof.
  induction l as [| y l IH]; intros Hin Hp; [destruct Hin |].
  destruct l as [| z l].
  - destruct Hin as [-> | []]. exact Hp.
  - rewrite join_cons by discriminate. destruct Hin as [-> | Hin].
    + apply includes_app_l. exact Hp.
    + apply includes_app_r, includes_app_r, IH; assumption.
Qed.

(** X8. [enrichPeerlistContent] is idempotent on strings: once the key
    takeaway is in the text the guard of line 1416 keeps a second one
    out, and a text of at most three lines comes back unchanged. *)
Theorem enrichPeerlist_idempotent :
  forall content : jsstring,
    enrichPeerlistString (enrichPeerlistString content) = enrichPeerlistString content
    /\ ((List.length (split LF content) <= 3)%nat ->
        enrichPeerlistString content = content).
Proof.
  intros content.
  assert (Hshort : (List.length (split LF content) <= 3)%nat ->
                   enrichPeerlistString content = content).
  { intros H. unfold enrichPeerlistString.
    destruct (negb (includes (lit "Key takeaway") content)
              && negb (includes (lit "Lesson learned") content)); [| reflexivity].
    apply Nat.ltb_ge in H. rewrite H. apply join_split. }
  split; [| exact Hshort].
  destruct (Nat.le_gt_cases (List.length (split LF content)) 3) as [H | H].
  { rewrite (Hshort H). exact (Hshort H). }
  destruct (negb (includes (lit "Key takeaway") content)
            && negb (includes (lit "Lesson learned") content)) eqn:G.
  - set (result := join [LF] (spliceBeforeLast peerlistTakeaway (split LF content))).
    assert (Hres : enrichPeerlistString content = result).
    { unfold enrichPeerlistString. rewrite G.
      apply Nat.ltb_lt in H. rewrite H. reflexivity. }
    assert (Hin : includes (lit "Key takeaway") result = true).
    { apply includes_join with (x := peerlistTakeaway).
      - unfold spliceBeforeLast. apply in_or_app. right. left. reflexivity.
      - vm_compute. reflexivity. }
    rewrite Hres. unfold enrichPeerlistString. rewrite Hin. reflexivity.
  - assert (Hres : enrichPeerlistString content = content).
    { unfold enrichPeerlistString. rewrite G. reflexivity. }
    rewrite !Hres. reflexivity.
Qed.

Lemma enrichPeerlist_idempotent_witness :
  (List.length (split LF (lit "one" ++ [LF] ++ lit "two")) <= 3)%nat
  /\ enrichPeerlistString (lit "one" ++ [LF] ++ lit "two")
     = lit "one" ++ [LF] ++ lit "two".
Proof.
  assert (H : (List.length (split LF (lit "one" ++ [LF] ++ lit "two")) <= 3)%nat)
    by (vm_compute; repeat constructor).
  split; [exact H |].
  exact (proj2 (enrichPeerlist_idempotent (lit "one" ++ [LF] ++ lit "two")) H).
Defined.

(** *** Daily.dev *)

(** X9. After the Daily.dev enrichment a text always mentions
    [Happy coding] or [developer]: the sign-off is appended unless the
    text has one of them already, and it holds the first. *)
Theorem enrichDailyDev_signs_off :
  forall (content : jsstring) (settings : Settings),
  exists enriched : jsstring,
    enrichDailyDevContent (VString content) settings = Normal (VString enriched)
    /\ (includes (lit "Happy coding") enriched = true
        \/ includes (lit "developer") enriched = true).
Proof.
  intros content settings. eexists. split; [reflexivity |].
  unfold enrichDailyDevString.
  set (body := if includes (lit "function") content || includes (lit "const") content
                  || includes (lit "code") content
               then replaceAll Re.bareFence content else content).
  destruct (includes (lit "Happy coding") body) eqn:H1; cbn [negb andb].
  - left. exact H1.
  - destruct (includes (lit "developer") body) eqn:H2; cbn [negb].
    + right. exact H2.
    + left. apply includes_app_r. vm_compute. reflexivity.
Qed.

(** ** More on [processWithAI] *)

(** *** How many requests a call can issue *)





Section LoopNetwork.

Variable cfg : Config.
Variables (payload : Payload) (format content : jsstring) (startTime : Z).


End LoopNetwork.


(** *** The lock after a failed search for the button *)

(** A call that is accepted on a page whose selector is malformed ends
    at line 579, with the lock set. *)
Lemma advance_lookup_throws (cfg : Config) (element : ElementArg) (format : jsstring)
      (customPrompt : option jsstring) (w : World) (e : JsError) :
  passesValidation cfg w = true ->
  isProcessing (editorState w) = false ->
  lookupThrows element (formatOf element format) w = Some e ->
  advance (processWithAI cfg element format customPrompt) w
  = (Throw e, withEditorState (setIsProcessing true) w).
Proof.
  intros Hvalid Hflag Hthrows.
  unfold passesValidation in Hvalid.
  apply andb_true_iff in Hvalid. destruct Hvalid as [Hnonempty Hshort].
  apply Nat.leb_le in Hshort.
  assert (Hlen : (MAX_TEXT_LENGTH cfg <? List.length (trim (editorValue w)))%nat = false)
    by (apply Nat.ltb_ge; exact Hshort).
  unfold processWithAI. cbn [advance bind ask].
  rewrite Hnonempty. cbn [negb]. rewrite Hlen. cbn [advance bind ask].
  rewrite Hflag. unfold locked. cbn [advance bind ask act sync].
  unfold lookupButton.
  replace (lookupThrows element (formatOf element format)
                        (withEditorState (setIsProcessing true) w))
    with (lookupThrows element (formatOf element format) w)
    by (destruct element; reflexivity).
  rewrite Hthrows. reflexivity.
Qed.

(** With the lock set and no invocation suspended, no step of the page
    changes either. *)
Lemma stuck_step (cfg : Config) (s s' : Sys) :
  isProcessing (editorState (page s)) = true -> inflight s = [] ->
  step cfg s s' ->
  isProcessing (editorState (page s')) = true /\ inflight s' = [].
Proof.
  intros Hflag Hnone Hstep.
  destruct Hstep as
      [element format customPrompt s
      | s before p after p' Hin Hres
      | s w Hsame].
  - destruct (call_while_locked cfg element format customPrompt (page s) Hflag)
      as (m & sev & H).
    unfold call, enter. rewrite H, Hnone. cbn. split; [exact Hflag | reflexivity].
  - rewrite Hnone in Hin. destruct before; discriminate.
  - cbn [page inflight]. split; [congruence | exact Hnone].
Qed.

Lemma stuck_for_good (cfg : Config) (s s' : Sys) :
  evolves cfg s s' ->
  isProcessing (editorState (page s)) = true -> inflight s = [] ->
  isProcessing (editorState (page s')) = true /\ inflight s' = [].
Proof.
  induction 1 as [| s1 s2 s3 _ IH Hstep]; intros Hset Hnone.
  - split; assumption.
  - destruct (IH Hset Hnone) as [H1 H2]. exact (stuck_step cfg s2 s3 H1 H2 Hstep).
Qed.

(** X11. When the search for the button of the format throws (line 579,
    after the lock is taken and before the [try] block), the lock is
    never released: whatever happens on the page afterwards,
    [isProcessing] stays set, no invocation is suspended, no request
    is in flight, and every later call returns at once without a
    request. *)
Theorem selector_error_locks_the_page_for_good :
  forall (cfg : Config) (element : ElementArg) (format : jsstring)
         (customPrompt : option jsstring) (w : World) (e : JsError) (s' : Sys),
    passesValidation cfg w = true ->
    isProcessing (editorState w) = false ->
    lookupThrows element (formatOf element format) w = Some e ->
    evolves cfg (call cfg element format customPrompt {| page := w; inflight := [] |}) s' ->
    isProcessing (editorState (page s')) = true
    /\ inflight s' = []
    /\ payloadsInFlight s' = []
    /\ (forall element' format' customPrompt',
           inflight (call cfg element' format' customPrompt' s') = []
           /\ requests (trace (page (call cfg element' format' customPrompt' s')))
              = requests (trace (page s'))).
Proof.
  intros cfg element format customPrompt w e s' Hvalid Hflag Hthrows Hev.
  assert (Hstuck : isProcessing (editorState (page s')) = true /\ inflight s' = []).
  { apply (stuck_for_good cfg _ _ Hev);
      unfold call, enter; cbn [page inflight];
      rewrite (advance_lookup_throws cfg element format customPrompt w e
                                     Hvalid Hflag Hthrows);
      reflexivity. }
  destruct Hstuck as [Hset Hnone].
  split; [exact Hset |]. split; [exact Hnone |].
  split; [unfold payloadsInFlight; rewrite Hnone; reflexivity |].
  intros element' format' customPrompt'.
  destruct (call_while_locked cfg element' format' customPrompt' (page s') Hset)
    as (m & sev & H).
  unfold call, enter. rewrite H, Hnone. cbn [fst snd settled page inflight].
  split; [reflexivity |].
  cbn [trace showNotification emit]. rewrite requests_app. cbn. apply app_nil_r.
Qed.

Lemma selector_error_locks_the_page_for_good_witness :
  passesValidation CONFIG (pageWithSelectors (lit "Hello")) = true
  /\ isProcessing (editorState (pageWithSelectors (lit "Hello"))) = false
  /\ lookupThrows (ElementString [34%N]) (formatOf (ElementString [34%N]) [])
                  (pageWithSelectors (lit "Hello"))
     = Some selectorSyntaxError
  /\ isProcessing
       (editorState
          (page (call CONFIG (ElementString (lit "tutorial")) [] None
                      (call CONFIG (ElementString [34%N]) [] None
                            {| page := pageWithSelectors (lit "Hello");
                               inflight := [] |}))))
     = true
  /\ inflight (call CONFIG (ElementString (lit "tutorial")) [] None
                    (call CONFIG (ElementString [34%N]) [] None
                          {| page := pageWithSelectors (lit "Hello");
                             inflight := [] |}))
     = [].
Proof.
  assert (H1 : passesValidation CONFIG (pageWithSelectors (lit "Hello")) = true)
    by reflexivity.
  assert (H2 : isProcessing (editorState (pageWithSelectors (lit "Hello"))) = false)
    by reflexivity.
  assert (H3 : lookupThrows (ElementString [34%N]) (formatOf (ElementString [34%N]) [])
                            (pageWithSelectors (lit "Hello"))
               = Some selectorSyntaxError) by reflexivity.
  split; [exact H1 |]. split; [exact H2 |]. split; [exact H3 |].
  assert (Hev : evolves CONFIG
                        (call CONFIG (ElementString [34%N]) [] None
                              {| page := pageWithSelectors (lit "Hello");
                                 inflight := [] |})
                        (call CONFIG (ElementString (lit "tutorial")) [] None
                              (call CONFIG (ElementString [34%N]) [] None
                                    {| page := pageWithSelectors (lit "Hello");
                                       inflight := [] |}))).
  { eapply evolves_step; [apply evolves_refl | apply step_call]. }
  destruct (selector_error_locks_the_page_for_good
              CONFIG (ElementString [34%N]) [] None (pageWithSelectors (lit "Hello"))
              selectorSyntaxError _ H1 H2 H3 Hev) as (Hset & Hnone & _).
  split; [exact Hset | exact Hnone].
Defined.

(** *** How long a call can wait *)



Section LoopClock.

Variable cfg : Config.
Variables (payload : Payload) (format content : jsstring) (startTime : Z).

Hypothesis timeout_not_negative : (0 <= TIMEOUT_MS cfg)%Z.


End LoopClock.



(** ** Preview and statistics *)

(** *** Replacements that leave the text alone *)

Lemma replaceAll_no_match (m : matcher) (s : jsstring) :
  (forall a t, s = a ++ t -> m t = None) -> replaceAll m s = s.
Proof.
  unfold replaceAll. induction s as [| c s IH]; intros Hm; [reflexivity |].
  cbn [replaceAllFrom]. rewrite (Hm [] (c :: s) eq_refl). f_equal.
  apply IH. intros a t ->. apply (Hm (c :: a) t). reflexivity.
Qed.

Lemma replaceAtLineStarts_no_match (m : matcher) (s : jsstring) :
  forall atStart : bool,
    (forall a t, s = a ++ t -> m t = None) ->
    replaceAtLineStartsFrom m s 0 atStart = s.
Proof.
  induction s as [| c s IH]; intros atStart Hm; [reflexivity |].
  cbn [replaceAtLineStartsFrom]. rewrite (Hm [] (c :: s) eq_refl).
  destruct atStart; f_equal; apply IH; intros a t ->;
    apply (Hm (c :: a) t); reflexivity.
Qed.

(** A replacement whose text is the text it replaces. *)
Lemma replaceAllFrom_same (m : matcher) :
  (forall u len rep,
      m u = Some (len, rep) -> (1 <= len)%nat /\ rep = firstn len u) ->
  forall (s : jsstring) (k : nat), replaceAllFrom m s k = skipn k s.
Proof.
  intros Hm. induction s as [| c s IH]; intros k.
  - destruct k; reflexivity.
  - destruct k as [| k]; cbn [replaceAllFrom skipn]; [| apply IH].
    destruct (m (c :: s)) as [[len rep] |] eqn:E.
    + destruct (Hm _ _ _ E) as [Hlen ->]. rewrite IH.
      destruct len as [| len]; [lia |]. cbn [pred firstn app].
      f_equal. apply firstn_skipn.
    + rewrite IH. reflexivity.
Qed.

Lemma firstn_takeWhile (p : N -> bool) (s : jsstring) :
  firstn (List.length (takeWhile p s)) s = takeWhile p s.
Proof.
  induction s as [| c s IH]; [reflexivity |].
  cbn [takeWhile]. destruct (p c); [| reflexivity].
  cbn [List.length firstn]. f_equal. exact IH.
Qed.

(** *** [convertBasicMarkdown] *)

Lemma replaceAll_lineFeed (s : jsstring) :
  replaceAll Md.lineFeed s
  = flat_map (fun c => if (c =? LF)%N then lit "<br>" else [c]) s.
Proof.
  unfold replaceAll. induction s as [| c s IH]; [reflexivity |].
  cbn [replaceAllFrom Md.lineFeed flat_map].
  destruct (c =? LF)%N; cbn [pred]; rewrite IH; reflexivity.
Qed.

(** X12. The HTML that [convertBasicMarkdown] returns holds no line
    feed, whatever the text is: the last replacement turns each one into
    [<br>], and no replacement text has one. *)
Theorem convertBasicMarkdown_has_no_line_feed :
  forall content : jsstring, ~ In LF (convertBasicMarkdown content).
Proof.
  intros content. unfold convertBasicMarkdown. rewrite replaceAll_lineFeed.
  intros H. apply in_flat_map in H. destruct H as (c & _ & H).
  destruct (c =? LF)%N eqn:E.
  - revert H. vm_compute. intuition discriminate.
  - destruct H as [H | []]. subst c. rewrite N.eqb_refl in E. discriminate.
Qed.

Lemma delimited_none (d : N) (rest : jsstring) (tag : string) (t : jsstring) :
  Forall (fun c => c <> d) t -> Md.delimited (d :: rest) tag t = None.
Proof.
  intros H. unfold Md.delimited. destruct t as [| c t]; [reflexivity |].
  cbn [startsWith]. inversion H as [| ? ? Hc _]; subst.
  destruct (N.eqb d c) eqn:E; [| reflexivity].
  apply N.eqb_eq in E. congruence.
Qed.

Lemma Forall_suffix {A} (P : A -> Prop) (s a t : list A) :
  Forall P s -> s = a ++ t -> Forall P t.
Proof. intros H ->. apply Forall_app in H. tauto. Qed.

Lemma hasLineMarker_suffix (s : jsstring) :
  forall atStart : bool,
    hasLineMarker atStart s = false ->
    forall a t marker,
      s = a ++ t ->
      In marker ["### "; "## "; "# "; "> "; "- "]%string ->
      (match a with [] => atStart | _ => isLineTerminator (last a 0%N) end) = true ->
      startsWith (lit marker) t = false.
Proof.
  induction s as [| c s IH]; intros atStart Hno a t marker Hs Hin Hstart.
  - destruct a; [| discriminate]. cbn [app] in Hs. subst t.
    destruct Hin as [<- | [<- | [<- | [<- | [<- | []]]]]]; reflexivity.
  - cbn [hasLineMarker] in Hno. apply orb_false_iff in Hno.
    destruct Hno as [Hhere Hrest].
    destruct a as [| x a].
    + cbn [app] in Hs. subst t. rewrite Hstart in Hhere. cbn [andb] in Hhere.
      destruct (startsWith (lit marker) (c :: s)) eqn:E; [| reflexivity].
      rewrite <- Hhere. symmetry. apply existsb_exists.
      exists marker. split; assumption.
    + injection Hs as -> ->.
      apply (IH (isLineTerminator x) Hrest a t marker eq_refl Hin).
      destruct a as [| y a]; [exact Hstart |].
      exact Hstart.
Qed.

Lemma replaceAtLineStarts_prefixed (s : jsstring) (marker tag : string) :
  hasLineMarker true s = false ->
  In marker ["### "; "## "; "# "; "> "; "- "]%string ->
  replaceAtLineStarts (Md.prefixed (lit marker) tag) s = s.
Proof.
  intros Hno Hin. unfold replaceAtLineStarts.
  assert (H : forall (u : jsstring) (atStart : bool) (a : jsstring),
             s = a ++ u ->
             (atStart = true ->
              (match a with [] => true | _ => isLineTerminator (last a 0%N) end) = true) ->
             replaceAtLineStartsFrom (Md.prefixed (lit marker) tag) u 0 atStart = u).
  { induction u as [| c u IH]; intros atStart a Hs Hat; [reflexivity |].
    cbn [replaceAtLineStartsFrom].
    assert (Hnone : (if atStart then Md.prefixed (lit marker) tag (c :: u) else None)
                    = None).
    { destruct atStart; [| reflexivity].
      unfold Md.prefixed.
      rewrite (hasLineMarker_suffix s true Hno a (c :: u) marker Hs Hin (Hat eq_refl)).
      reflexivity. }
    rewrite Hnone. f_equal.
    apply (IH (isLineTerminator c) (a ++ [c])).
    - rewrite Hs, <- app_assoc. reflexivity.
    - intros Hc. destruct (a ++ [c]) as [| x l] eqn:E.
      + reflexivity.
      + rewrite <- E, last_last. exact Hc. }
  apply (H s true []); [reflexivity | reflexivity].
Qed.

(** X13. A text without asterisk and backtick, none of whose lines
    starts with a marker ([### ], [## ], [# ], [> ] or [- ]), reaches the
    preview as it is, with [<br>] in the place of its line feeds: no
    other code unit is changed, so that markup of HTML in the text is
    not escaped. *)
Theorem convertBasicMarkdown_plain_text :
  forall content : jsstring,
    noInlineMarkup content ->
    hasLineMarker true content = false ->
    convertBasicMarkdown content
    = flat_map (fun c => if (c =? LF)%N then lit "<br>" else [c]) content.
Proof.
  intros content Hinline Hlines. unfold convertBasicMarkdown.
  assert (Hstar : Forall (fun c => c <> 42%N) content)
    by (eapply Forall_impl; [| exact Hinline]; cbn; tauto).
  assert (Htick : Forall (fun c => c <> 96%N) content)
    by (eapply Forall_impl; [| exact Hinline]; cbn; tauto).
  assert (Hstrong : replaceAll Md.strong content = content).
  { apply replaceAll_no_match. intros a t Hs.
    apply (delimited_none 42%N). exact (Forall_suffix _ _ _ _ Hstar Hs). }
  assert (Hem : replaceAll Md.em content = content).
  { apply replaceAll_no_match. intros a t Hs.
    apply (delimited_none 42%N). exact (Forall_suffix _ _ _ _ Hstar Hs). }
  assert (Hcode : replaceAll Md.code content = content).
  { apply replaceAll_no_match. intros a t Hs.
    apply (delimited_none 96%N). exact (Forall_suffix _ _ _ _ Htick Hs). }
  rewrite Hstrong, Hem, Hcode.
  rewrite (replaceAtLineStarts_prefixed content "### " "h3" Hlines) by (cbn; auto 10).
  rewrite (replaceAtLineStarts_prefixed content "## " "h2" Hlines) by (cbn; auto 10).
  rewrite (replaceAtLineStarts_prefixed content "# " "h1" Hlines) by (cbn; auto 10).
  rewrite (replaceAtLineStarts_prefixed content "> " "blockquote" Hlines)
    by (cbn; auto 10).
  rewrite (replaceAtLineStarts_prefixed content "- " "li" Hlines) by (cbn; auto 10).
  apply replaceAll_lineFeed.
Qed.

Lemma convertBasicMarkdown_plain_text_witness :
  noInlineMarkup (lit "<b>bold</b> & more" ++ [LF] ++ lit "2 > 1")
  /\ hasLineMarker true (lit "<b>bold</b> & more" ++ [LF] ++ lit "2 > 1") = false
  /\ convertBasicMarkdown (lit "<b>bold</b> & more" ++ [LF] ++ lit "2 > 1")
     = lit "<b>bold</b> & more<br>2 > 1".
Proof.
  assert (H1 : noInlineMarkup (lit "<b>bold</b> & more" ++ [LF] ++ lit "2 > 1")).
  { unfold noInlineMarkup. vm_compute. repeat constructor; discriminate. }
  assert (H2 : hasLineMarker true (lit "<b>bold</b> & more" ++ [LF] ++ lit "2 > 1")
               = false) by (vm_compute; reflexivity).
  split; [exact H1 |]. split; [exact H2 |].
  rewrite (convertBasicMarkdown_plain_text _ H1 H2). vm_compute. reflexivity.
Defined.

(** *** [trim] *)

Lemma takeWhile_dropWhile_app (p : N -> bool) (s : jsstring) :
  takeWhile p s ++ dropWhile p s = s.
Proof.
  induction s as [| c s IH]; [reflexivity |].
  cbn [takeWhile dropWhile]. destruct (p c); [cbn [app]; f_equal; exact IH | reflexivity].
Qed.

Lemma takeWhile_all (p : N -> bool) (s : jsstring) :
  Forall (fun c => p c = true) (takeWhile p s).
Proof.
  induction s as [| c s IH]; [constructor |].
  cbn [takeWhile]. destruct (p c) eqn:E; constructor; assumption.
Qed.

Lemma dropWhile_head (p : N -> bool) (s : jsstring) :
  match dropWhile p s with
  | [] => True
  | c :: _ => p c = false
  end.
Proof.
  induction s as [| c s IH]; [exact I |].
  cbn [dropWhile]. destruct (p c) eqn:E; [exact IH | exact E].
Qed.

(** What [trimEnd] cuts off is white space, and what it leaves does not
    end in white space. *)
Lemma trimEnd_spec (s : jsstring) :
  exists tail : jsstring,
    s = trimEnd s ++ tail
    /\ Forall (fun c => isWhiteSpace c = true) tail
    /\ endsInWord true (trimEnd s) = true.
Proof.
  unfold trimEnd. exists (rev (takeWhile isWhiteSpace (rev s))). split; [| split].
  - rewrite <- rev_app_distr, takeWhile_dropWhile_app, rev_involutive. reflexivity.
  - apply Forall_rev, takeWhile_all.
  - pose proof (dropWhile_head isWhiteSpace (rev s)) as H.
    destruct (dropWhile isWhiteSpace (rev s)) as [| c l]; [reflexivity |].
    cbn [rev]. clear - H. revert H. generalize (rev l) as x. intros x H.
    assert (G : forall b, endsInWord b (x ++ [c]) = true).
    { induction x as [| y x IH]; intros b; cbn [app endsInWord].
      - rewrite H. reflexivity.
      - apply IH. }
    apply G.
Qed.

Lemma trimStart_spec (s : jsstring) :
  exists head : jsstring,
    s = head ++ trimStart s
    /\ Forall (fun c => isWhiteSpace c = true) head
    /\ match trimStart s with [] => True | c :: _ => isWhiteSpace c = false end.
Proof.
  unfold trimStart. exists (takeWhile isWhiteSpace s). split; [| split].
  - symmetry. apply takeWhile_dropWhile_app.
  - apply takeWhile_all.
  - apply dropWhile_head.
Qed.

(** *** Words and lines *)

Lemma countWordsFrom_leading (head s : jsstring) :
  Forall (fun c => isWhiteSpace c = true) head ->
  forall inWord : bool,
    head <> [] \/ inWord = false ->
    countWordsFrom inWord (head ++ s) = countWordsFrom false s.
Proof.
  induction 1 as [| c head Hc _ IH]; intros inWord Hne.
  - destruct Hne as [Hne | ->]; [congruence | reflexivity].
  - cbn [app countWordsFrom]. rewrite Hc. apply IH. right. reflexivity.
Qed.

Lemma countWordsFrom_trailing (s tail : jsstring) :
  Forall (fun c => isWhiteSpace c = true) tail ->
  forall inWord : bool,
    countWordsFrom inWord (s ++ tail) = countWordsFrom inWord s.
Proof.
  intros Htail. induction s as [| c s IH]; intros inWord.
  - cbn [app]. clear - Htail. revert inWord.
    induction Htail as [| c tail Hc _ IH]; intros inWord; [reflexivity |].
    cbn [countWordsFrom]. rewrite Hc. apply IH.
  - cbn [app countWordsFrom]. destruct (isWhiteSpace c); rewrite IH; reflexivity.
Qed.

Lemma countWords_trim (s : jsstring) : countWords (trim s) = countWords s.
Proof.
  unfold countWords, trim.
  destruct (trimStart_spec s) as (head & Hs & Hhead & _).
  destruct (trimEnd_spec (trimStart s)) as (tail & Ht & Htail & _).
  rewrite Hs at 2. rewrite countWordsFrom_leading by (auto; right; reflexivity).
  rewrite Ht at 2. rewrite countWordsFrom_trailing by exact Htail. reflexivity.
Qed.

(** The pieces that [split(/\s+/)] makes of a text, counted: one more
    than the words that start after white space, and one more when the
    text ends in white space. *)
Lemma splitWhiteSpace_length (s : jsstring) :
  List.length (splitWhiteSpaceFrom false s)
  = (countWordsFrom true s + 1 + (if endsInWord true s then 0 else 1))%nat
  /\ List.length (splitWhiteSpaceFrom true s)
     = (countWordsFrom false s + (if endsInWord false s then 0 else 1))%nat.
Proof.
  induction s as [| c s [IH1 IH2]]; [split; reflexivity |].
  cbn [splitWhiteSpaceFrom countWordsFrom endsInWord].
  destruct (isWhiteSpace c); cbn [negb].
  - split; [cbn [List.length]; rewrite IH2; lia | exact IH2].
  - assert (H : forall l : list jsstring,
               List.length (match l with
                            | [] => [[c]]
                            | x :: ls => (c :: x) :: ls
                            end) = Nat.max 1 (List.length l)).
    { intros [| x ls]; cbn; reflexivity. }
    rewrite H, IH1. split; lia.
Qed.

Lemma trim_endsInWord (s : jsstring) : endsInWord true (trim s) = true.
Proof.
  unfold trim. destruct (trimEnd_spec (trimStart s)) as (_ & _ & _ & H). exact H.
Qed.

Lemma trim_head (s : jsstring) :
  match trim s with [] => True | c :: _ => isWhiteSpace c = false end.
Proof.
  unfold trim.
  destruct (trimStart_spec s) as (_ & _ & _ & Hhead).
  destruct (trimEnd_spec (trimStart s)) as (tail & Ht & Htail & _).
  destruct (trimEnd (trimStart s)) as [| c l]; [exact I |].
  rewrite Ht in Hhead. exact Hhead.
Qed.

Lemma trim_nil_countWords (s : jsstring) : trim s = [] -> countWords s = 0%nat.
Proof. intros H. rewrite <- countWords_trim, H. reflexivity. Qed.

(** X14. The statistics line counts what it says: its number of words
    is the number of maximal runs of code units that are not white
    space, its number of characters the number of UTF-16 code units,
    and its number of lines one more than the number of line feeds.
    The warning that follows is absent exactly when 100 characters or
    more remain. *)
Theorem updateStats_counts :
  forall (cfg : Config) (content : jsstring),
  exists status : jsstring,
    textContent (updateStats cfg content)
    = lit "Words: " ++ ofNat (countWords content)
      ++ lit " | Characters: " ++ ofNat (List.length content)
      ++ lit " | Lines: " ++ ofNat (S (count_occ N.eq_dec content LF))
      ++ status
    /\ (status = [] <-> (List.length content + 100 <= MAX_TEXT_LENGTH cfg)%nat).
Proof.
  intros cfg content. unfold updateStats. cbn [textContent].
  rewrite split_length.
  assert (Hwords : (if truthy (trim content)
                    then List.length (splitWhiteSpace (trim content))
                    else 0%nat) = countWords content).
  { destruct (trim content) as [| c t] eqn:E.
    - cbn [truthy]. symmetry. apply trim_nil_countWords. exact E.
    - cbn [truthy]. rewrite <- countWords_trim, E.
      pose proof (trim_head content) as Hc. rewrite E in Hc.
      pose proof (trim_endsInWord content) as He. rewrite E in He.
      unfold splitWhiteSpace, countWords.
      cbn [splitWhiteSpaceFrom countWordsFrom endsInWord] in *.
      rewrite Hc in *. cbn [negb] in He.
      destruct (splitWhiteSpace_length t) as [H1 _].
      assert (H : forall l : list jsstring,
                 List.length (match l with
                              | [] => [[c]]
                              | x :: ls => (c :: x) :: ls
                              end) = Nat.max 1 (List.length l)).
      { intros [| x ls]; cbn; reflexivity. }
      rewrite H, H1, He. lia. }
  rewrite Hwords.
  eexists. split.
  - rewrite <- !app_assoc. reflexivity.
  - destruct (Z.of_nat (MAX_TEXT_LENGTH cfg) - Z.of_nat (List.length content) <? 0)%Z
      eqn:E1.
    + apply Z.ltb_lt in E1. split; [discriminate | lia].
    + apply Z.ltb_ge in E1.
      destruct (Z.of_nat (MAX_TEXT_LENGTH cfg) - Z.of_nat (List.length content) <? 100)%Z
        eqn:E2.
      * apply Z.ltb_lt in E2. split; [discriminate | lia].
      * apply Z.ltb_ge in E2. split; [lia | reflexivity].
Qed.

(** *** Bold text and headings *)

Lemma replaceAllFrom_skip_all (m : matcher) (s : jsstring) :
  forall k : nat, (List.length s <= k)%nat -> replaceAllFrom m s k = [].
Proof.
  induction s as [| c s IH]; intros k Hk; [destruct k; reflexivity |].
  destruct k as [| k]; [cbn in Hk; lia |].
  cbn [replaceAllFrom]. apply IH. cbn in Hk. lia.
Qed.

Lemma replaceAtLineStartsFrom_skip_all (m : matcher) (s : jsstring) :
  forall (k : nat) (atStart : bool),
    (List.length s <= k)%nat -> replaceAtLineStartsFrom m s k atStart = [].
Proof.
  induction s as [| c s IH]; intros k atStart Hk; [destruct k; reflexivity |].
  destruct k as [| k]; [cbn in Hk; lia |].
  cbn [replaceAtLineStartsFrom]. apply IH. cbn in Hk. lia.
Qed.

Lemma replaceAll_match (m : matcher) (c : N) (t : jsstring) (len : nat)
      (rep : jsstring) :
  m (c :: t) = Some (len, rep) ->
  replaceAll m (c :: t) = rep ++ replaceAllFrom m t (pred len).
Proof. intros H. unfold replaceAll. cbn [replaceAllFrom]. rewrite H. reflexivity. Qed.

Lemma replaceAtLineStarts_match (m : matcher) (c : N) (t : jsstring) (len : nat)
      (rep : jsstring) :
  m (c :: t) = Some (len, rep) ->
  replaceAtLineStarts m (c :: t)
  = rep ++ replaceAtLineStartsFrom m t (pred len) (isLineTerminator c).
Proof.
  intros H. unfold replaceAtLineStarts. cbn [replaceAtLineStartsFrom].
  rewrite H. reflexivity.
Qed.

Lemma replaceAtLineStarts_miss (m : matcher) (c : N) (t : jsstring) :
  m (c :: t) = None ->
  replaceAtLineStarts m (c :: t)
  = c :: replaceAtLineStartsFrom m t 0 (isLineTerminator c).
Proof.
  intros H. unfold replaceAtLineStarts. cbn [replaceAtLineStartsFrom].
  rewrite H. reflexivity.
Qed.

Lemma replaceAtLineStartsFrom_inside (m : matcher) (s : jsstring) :
  Forall (fun c => isLineTerminator c = false) s ->
  replaceAtLineStartsFrom m s 0 false = s.
Proof.
  induction 1 as [| c s Hc _ IH]; [reflexivity |].
  cbn [replaceAtLineStartsFrom]. rewrite Hc, IH. reflexivity.
Qed.

Lemma startsWith_refl (p : jsstring) : startsWith p p = true.
Proof. apply startsWith_spec. exists []. symmetry. apply app_nil_r. Qed.

Lemma lazyUntil_plain (d : N) (delim t : jsstring) :
  Forall (fun c => c <> d /\ isLineTerminator c = false) t ->
  Md.lazyUntil (d :: delim) (t ++ d :: delim) = Some t.
Proof.
  induction 1 as [| c t [Hc Hterm] _ IH].
  - cbn [app Md.lazyUntil]. rewrite (startsWith_refl (d :: delim)). reflexivity.
  - cbn [app Md.lazyUntil startsWith].
    destruct (N.eqb d c) eqn:E; [apply N.eqb_eq in E; congruence |].
    cbn [andb]. rewrite Hterm, IH. reflexivity.
Qed.

Lemma takeWhile_all_true (p : N -> bool) (s : jsstring) :
  Forall (fun c => p c = true) s -> takeWhile p s = s.
Proof.
  induction 1 as [| c s Hc _ IH]; [reflexivity |].
  cbn [takeWhile]. rewrite Hc, IH. reflexivity.
Qed.

Lemma hasLineMarker_inside (s : jsstring) :
  Forall (fun c => isLineTerminator c = false) s -> hasLineMarker false s = false.
Proof.
  induction 1 as [| c s Hc _ IH]; [reflexivity |].
  cbn [hasLineMarker andb orb]. rewrite Hc. exact IH.
Qed.

(** A text of one line that starts with the opening of a tag has no
    line marker. *)
Lemma hasLineMarker_tag (s : jsstring) :
  Forall (fun c => isLineTerminator c = false) s ->
  hasLineMarker true (60%N :: s) = false.
Proof.
  intros H. cbn [hasLineMarker]. change (isLineTerminator 60) with false.
  rewrite (hasLineMarker_inside s H). reflexivity.
Qed.

Lemma plainLine_parts (t : jsstring) :
  plainLine t ->
  Forall (fun c => c <> 42%N) t /\ Forall (fun c => c <> 96%N) t
  /\ Forall (fun c => isLineTerminator c = false) t.
Proof.
  unfold plainLine. intros H. repeat split;
    (eapply Forall_impl; [| exact H]); cbn; tauto.
Qed.

(** What is left to do to a text in which the inline replacements find
    nothing and no line starts with a marker. *)
Lemma convert_rest (s : jsstring) :
  Forall (fun c => c <> 42%N) s -> Forall (fun c => c <> 96%N) s ->
  hasLineMarker true s = false ->
  ~ In LF s ->
  replaceAll Md.lineFeed
    (replaceAtLineStarts (Md.prefixed (lit "- ") "li")
       (replaceAtLineStarts (Md.prefixed (lit "> ") "blockquote")
          (replaceAtLineStarts (Md.prefixed (lit "# ") "h1")
             (replaceAtLineStarts (Md.prefixed (lit "## ") "h2")
                (replaceAtLineStarts (Md.prefixed (lit "### ") "h3")
                   (replaceAll Md.code (replaceAll Md.em s)))))))
  = s.
Proof.
  intros Hstar Htick Hlines Hlf.
  assert (Hem : replaceAll Md.em s = s).
  { apply replaceAll_no_match. intros a t Hs.
    apply (delimited_none 42%N). exact (Forall_suffix _ _ _ _ Hstar Hs). }
  assert (Hcode : replaceAll Md.code s = s).
  { apply replaceAll_no_match. intros a t Hs.
    apply (delimited_none 96%N). exact (Forall_suffix _ _ _ _ Htick Hs). }
  rewrite Hem, Hcode.
  rewrite (replaceAtLineStarts_prefixed s "### " "h3" Hlines) by (cbn; auto 10).
  rewrite (replaceAtLineStarts_prefixed s "## " "h2" Hlines) by (cbn; auto 10).
  rewrite (replaceAtLineStarts_prefixed s "# " "h1" Hlines) by (cbn; auto 10).
  rewrite (replaceAtLineStarts_prefixed s "> " "blockquote" Hlines) by (cbn; auto 10).
  rewrite (replaceAtLineStarts_prefixed s "- " "li" Hlines) by (cbn; auto 10).
  rewrite replaceAll_lineFeed.
  clear - Hlf. induction s as [| c s IH]; [reflexivity |].
  cbn [flat_map]. destruct (c =? LF)%N eqn:E.
  - apply N.eqb_eq in E. subst c. exfalso. apply Hlf. left. reflexivity.
  - cbn [app]. f_equal. apply IH. intros H. apply Hlf. right. exact H.
Qed.

(** X28. [convertBasicMarkdown] renders bold text and headings of the
    first level: for a text [t] of one line without asterisk and
    backtick, [**t**] becomes [<strong>t</strong>] and [# t] becomes
    [<h1>t</h1>]. *)
Theorem convertBasicMarkdown_bold_and_heading :
  forall t : jsstring,
    plainLine t ->
    convertBasicMarkdown (lit "**" ++ t ++ lit "**") = Md.element "strong" t
    /\ convertBasicMarkdown (lit "# " ++ t) = Md.element "h1" t.
Proof.
  intros t Hplain.
  destruct (plainLine_parts t Hplain) as (Hstar & Htick & Hterm).
  assert (Hclosed : forall tag : string,
             In tag ["strong"; "h1"]%string ->
             Forall (fun c => c <> 42%N) (Md.element tag t)
             /\ Forall (fun c => c <> 96%N) (Md.element tag t)
             /\ Forall (fun c => isLineTerminator c = false) (Md.element tag t)
             /\ exists rest, Md.element tag t = 60%N :: rest
                             /\ Forall (fun c => isLineTerminator c = false) rest).
  { intros tag Htag.
    assert (Hparts : forall (P : N -> Prop),
               P 60%N -> P 62%N -> P 47%N ->
               Forall P (lit tag) -> Forall P t ->
               Forall P (Md.element tag t)
               /\ exists rest, Md.element tag t = 60%N :: rest /\ Forall P rest).
    { intros P H60 H62 H47 Htg Ht. unfold Md.element.
      change (lit "<") with [60%N]. change (lit ">") with [62%N].
      change (lit "</") with [60%N; 47%N]. cbn [app].
      assert (Hrest : Forall P (lit tag ++ 62%N :: t ++ 60%N :: 47%N :: lit tag ++ [62%N])).
      { rewrite Forall_app. split; [exact Htg |]. constructor; [exact H62 |].
        rewrite Forall_app. split; [exact Ht |].
        constructor; [exact H60 |]. constructor; [exact H47 |].
        rewrite Forall_app. split; [exact Htg | repeat constructor; exact H62]. }
      split; [constructor; assumption |]. eexists. split; [reflexivity | exact Hrest]. }
    assert (Htagchars : forall P : N -> Prop,
               (forall c, (97 <= c <= 122)%N \/ (48 <= c <= 57)%N -> P c) ->
               Forall P (lit tag)).
    { intros P HP. destruct Htag as [<- | [<- | []]];
        repeat constructor; apply HP; cbv;
        first [left; split; discriminate | right; split; discriminate]. }
    split; [| split; [| split]].
    - apply Hparts; try discriminate; [| exact Hstar].
      apply Htagchars. intros c Hc. lia.
    - apply Hparts; try discriminate; [| exact Htick].
      apply Htagchars. intros c Hc. lia.
    - apply Hparts; try reflexivity; [| exact Hterm].
      apply Htagchars. intros c [Hc | Hc]; unfold isLineTerminator;
        repeat (rewrite (proj2 (N.eqb_neq _ _)) by lia); reflexivity.
    - destruct (Hparts (fun c => isLineTerminator c = false)) as [_ H];
        try reflexivity; [| exact Hterm | exact H].
      apply Htagchars. intros c [Hc | Hc]; unfold isLineTerminator;
        repeat (rewrite (proj2 (N.eqb_neq _ _)) by lia); reflexivity. }
  assert (Hdone : forall tag : string,
             In tag ["strong"; "h1"]%string ->
             replaceAll Md.lineFeed
               (replaceAtLineStarts (Md.prefixed (lit "- ") "li")
                  (replaceAtLineStarts (Md.prefixed (lit "> ") "blockquote")
                     (replaceAtLineStarts (Md.prefixed (lit "# ") "h1")
                        (replaceAtLineStarts (Md.prefixed (lit "## ") "h2")
                           (replaceAtLineStarts (Md.prefixed (lit "### ") "h3")
                              (replaceAll Md.code
                                 (replaceAll Md.em (Md.element tag t))))))))
             = Md.element tag t).
  { intros tag Htag.
    destruct (Hclosed tag Htag) as (H1 & H2 & H3 & rest & Hrest & Hrest').
    apply convert_rest; [exact H1 | exact H2 | |].
    - rewrite Hrest. apply hasLineMarker_tag. exact Hrest'.
    - intros Hin. rewrite Forall_forall in H3. specialize (H3 LF Hin). discriminate. }
  split.
  - unfold convertBasicMarkdown.
    assert (Hstrong : replaceAll Md.strong (lit "**" ++ t ++ lit "**")
                      = Md.element "strong" t).
    { change (lit "**" ++ t ++ lit "**")
        with (42%N :: 42%N :: t ++ [42%N; 42%N]).
      assert (Hm : Md.strong (42%N :: 42%N :: t ++ [42%N; 42%N])
                   = Some (2 + List.length t + 2, Md.element "strong" t)%nat).
      { unfold Md.strong, Md.delimited.
        change (lit "**") with [42%N; 42%N]. cbn [startsWith N.eqb Pos.eqb andb].
        cbn [List.length skipn].
        rewrite (lazyUntil_plain 42%N [42%N] t); [reflexivity |].
        eapply Forall_impl; [| exact Hplain]. cbn. tauto. }
      rewrite (replaceAll_match _ _ _ _ _ Hm).
      rewrite replaceAllFrom_skip_all; [apply app_nil_r |].
      cbn [List.length]. rewrite length_app. cbn [List.length pred Nat.add]. lia. }
    rewrite Hstrong. apply Hdone. left. reflexivity.
  - unfold convertBasicMarkdown.
    assert (Hinline : forall s : jsstring,
               Forall (fun c => c <> 42%N) s -> Forall (fun c => c <> 96%N) s ->
               replaceAll Md.code (replaceAll Md.em (replaceAll Md.strong s)) = s).
    { intros s Hs Hk.
      assert (H1 : replaceAll Md.strong s = s).
      { apply replaceAll_no_match. intros a u Hu.
        apply (delimited_none 42%N). exact (Forall_suffix _ _ _ _ Hs Hu). }
      assert (H2 : replaceAll Md.em s = s).
      { apply replaceAll_no_match. intros a u Hu.
        apply (delimited_none 42%N). exact (Forall_suffix _ _ _ _ Hs Hu). }
      assert (H3 : replaceAll Md.code s = s).
      { apply replaceAll_no_match. intros a u Hu.
        apply (delimited_none 96%N). exact (Forall_suffix _ _ _ _ Hk Hu). }
      rewrite H1, H2, H3. reflexivity. }
    rewrite Hinline.
    2:{ apply Forall_app. split; [repeat constructor; discriminate | exact Hstar]. }
    2:{ apply Forall_app. split; [repeat constructor; discriminate | exact Htick]. }
    change (lit "# " ++ t) with (35%N :: 32%N :: t).
    assert (Hnot : forall (marker tag : string),
               In marker ["### "; "## "]%string ->
               replaceAtLineStarts (Md.prefixed (lit marker) tag) (35%N :: 32%N :: t)
               = 35%N :: 32%N :: t).
    { intros marker tag Hm.
      assert (Hnone : Md.prefixed (lit marker) tag (35%N :: 32%N :: t) = None).
      { destruct Hm as [<- | [<- | []]]; reflexivity. }
      rewrite (replaceAtLineStarts_miss _ _ _ Hnone). f_equal.
      change (isLineTerminator 35) with false.
      apply replaceAtLineStartsFrom_inside.
      constructor; [reflexivity | exact Hterm]. }
    rewrite (Hnot "### " "h3")%string by (cbn; auto).
    rewrite (Hnot "## " "h2")%string by (cbn; auto).
    assert (Hh1 : replaceAtLineStarts (Md.prefixed (lit "# ") "h1") (35%N :: 32%N :: t)
                  = Md.element "h1" t).
    { assert (Hm : Md.prefixed (lit "# ") "h1" (35%N :: 32%N :: t)
                   = Some (2 + List.length t, Md.element "h1" t)%nat).
      { unfold Md.prefixed. change (lit "# ") with [35%N; 32%N].
        cbn [startsWith N.eqb Pos.eqb andb List.length skipn].
        rewrite takeWhile_all_true; [reflexivity |].
        eapply Forall_impl; [| exact Hterm]. cbn. intros c ->. reflexivity. }
      rewrite (replaceAtLineStarts_match _ _ _ _ _ Hm).
      rewrite replaceAtLineStartsFrom_skip_all; [apply app_nil_r |].
      cbn [List.length pred Nat.add]. lia. }
    rewrite Hh1.
    destruct (Hclosed "h1"%string) as (H1 & H2 & H3 & rest & Hrest & Hrest');
      [cbn; auto |].
    assert (Hlines : hasLineMarker true (Md.element "h1" t) = false)
      by (rewrite Hrest; apply hasLineMarker_tag; exact Hrest').
    rewrite (replaceAtLineStarts_prefixed _ "> " "blockquote" Hlines) by (cbn; auto 10).
    rewrite (replaceAtLineStarts_prefixed _ "- " "li" Hlines) by (cbn; auto 10).
    rewrite replaceAll_lineFeed.
    assert (Hlf : ~ In LF (Md.element "h1" t)).
    { intros Hin. rewrite Forall_forall in H3. specialize (H3 LF Hin). discriminate. }
    clear - Hlf. induction (Md.element "h1" t) as [| c s IH]; [reflexivity |].
    cbn [flat_map]. destruct (c =? LF)%N eqn:E.
    + apply N.eqb_eq in E. subst c. exfalso. apply Hlf. left. reflexivity.
    + cbn [app]. f_equal. apply IH. intros H. apply Hlf. right. exact H.
Qed.

Lemma convertBasicMarkdown_bold_and_heading_witness :
  plainLine (lit "Hello")
  /\ convertBasicMarkdown (lit "**Hello**") = lit "<strong>Hello</strong>"
  /\ convertBasicMarkdown (lit "# Hello") = lit "<h1>Hello</h1>".
Proof.
  assert (H : plainLine (lit "Hello")).
  { unfold plainLine. vm_compute. repeat constructor; discriminate. }
  split; [exact H |].
  destruct (convertBasicMarkdown_bold_and_heading (lit "Hello") H) as [H1 H2].
  split; [exact H1 | exact H2].
Defined.

(** ** The toolbar *)

(** *** Newlines of the text control *)

Lemma normalizeNewlines_unfold (c : N) (t : jsstring) :
  normalizeNewlines (c :: t)
  = if N.eqb c 13 then
      LF :: match t with
            | d :: t' => if N.eqb d LF then normalizeNewlines t' else normalizeNewlines t
            | [] => []
            end
    else c :: normalizeNewlines t.
Proof. reflexivity. Qed.

Lemma normalizeNewlines_noCR (s : jsstring) : noCR s -> normalizeNewlines s = s.
Proof.
  unfold noCR. induction s as [| c s IH]; intros H; [reflexivity |].
  rewrite normalizeNewlines_unfold.
  destruct (N.eqb c 13) eqn:E.
  - apply N.eqb_eq in E. subst c. exfalso. apply H. left. reflexivity.
  - f_equal. apply IH. intros Hin. apply H. right. exact Hin.
Qed.

Lemma normalizeNewlines_length (n : nat) :
  forall s : jsstring,
    (List.length s <= n)%nat ->
    (List.length (normalizeNewlines s) <= List.length s)%nat.
Proof.
  induction n as [| n IH]; intros s Hn.
  { destruct s; [apply Nat.le_refl | cbn in Hn; lia]. }
  destruct s as [| c t]; [apply Nat.le_refl |].
  rewrite normalizeNewlines_unfold. cbn [List.length] in *.
  destruct (N.eqb c 13).
  - destruct t as [| d t']; [cbn; lia |].
    cbn [List.length] in *.
    destruct (N.eqb d LF).
    + pose proof (IH t' ltac:(lia)). lia.
    + pose proof (IH (d :: t') ltac:(cbn [List.length]; lia)) as H.
      cbn [List.length] in H. lia.
  - pose proof (IH t ltac:(lia)). cbn [List.length]. lia.
Qed.

Lemma noCR_app (a b : jsstring) : noCR (a ++ b) <-> noCR a /\ noCR b.
Proof.
  unfold noCR. split.
  - intros H. split; intros Hin; apply H, in_or_app; [left | right]; exact Hin.
  - intros [Ha Hb] Hin. apply in_app_or in Hin. tauto.
Qed.

(** *** [optimizeForDevTo] *)

Lemma fenceWithLanguage_same (u : jsstring) (len : nat) (rep : jsstring) :
  fenceWithLanguage u = Some (len, rep) -> (1 <= len)%nat /\ rep = firstn len u.
Proof.
  unfold fenceWithLanguage.
  destruct (startsWith (lit "```") u) eqn:E; [| discriminate].
  apply startsWith_spec in E. destruct E as [t ->].
  change (skipn 3 (lit "```" ++ t)) with t.
  destruct (takeWhile isWordChar t) as [| c word] eqn:Ew; [discriminate |].
  intros H. injection H as <- <-. split; [lia |].
  transitivity (lit "```" ++ firstn (List.length (takeWhile isWordChar t)) t).
  - rewrite firstn_takeWhile, Ew. reflexivity.
  - rewrite Ew. reflexivity.
Qed.

(** X15. The replacement of [optimizeForDevTo] that is meant to
    optimize the code blocks replaces each fence by itself and changes
    nothing: the text written back is the text read, with the front
    matter in front of it unless it holds [---] already.  A second
    click therefore adds no second front matter. *)
Theorem optimizeForDevTo_adds_front_matter_once :
  forall content : jsstring,
    devToText content
    = (if includes (lit "---") content then content else frontMatter ++ content)
    /\ devToText (devToText content) = devToText content.
Proof.
  intros content.
  assert (Hid : forall s, replaceAll fenceWithLanguage s = s).
  { intros s. unfold replaceAll.
    rewrite (replaceAllFrom_same fenceWithLanguage fenceWithLanguage_same).
    reflexivity. }
  assert (Hshape : forall s,
             devToText s
             = (if includes (lit "---") s then s else frontMatter ++ s)).
  { intros s. unfold devToText. rewrite Hid. destruct (includes (lit "---") s); reflexivity. }
  split; [apply Hshape |].
  rewrite (Hshape content).
  destruct (includes (lit "---") content) eqn:E.
  - rewrite Hshape, E. reflexivity.
  - rewrite Hshape.
    assert (Hin : includes (lit "---") (frontMatter ++ content) = true).
    { apply includes_app_l. vm_compute. reflexivity. }
    rewrite Hin. reflexivity.
Qed.

(** *** [optimizeForChatGPT] *)

Lemma chatGPTLine_cases (line : jsstring) :
  chatGPTLine line = line
  \/ chatGPTLine line = lit "**" ++ line ++ lit "**"
  \/ chatGPTLine line = lit "> " ++ line.
Proof.
  unfold chatGPTLine.
  destruct (startsWith (lit "Q:") line || startsWith (lit "Question:") line);
    [right; left; reflexivity |].
  destruct (startsWith (lit "A:") line || startsWith (lit "Answer:") line);
    [right; left; reflexivity |].
  destruct (includes (lit "please") line || includes (lit "can you") line);
    [right; right; reflexivity | left; reflexivity].
Qed.

Lemma chatGPTLine_clean (line : jsstring) (c : N) :
  c = LF \/ c = 13%N -> ~ In c line -> ~ In c (chatGPTLine line).
Proof.
  intros Hc Hline H.
  destruct (chatGPTLine_cases line) as [E | [E | E]]; rewrite E in H.
  - exact (Hline H).
  - apply in_app_or in H. destruct H as [H | H].
    { revert H. destruct Hc as [-> | ->]; vm_compute; intuition discriminate. }
    apply in_app_or in H. destruct H as [H | H]; [exact (Hline H) |].
    revert H. destruct Hc as [-> | ->]; vm_compute; intuition discriminate.
  - apply in_app_or in H. destruct H as [H | H]; [| exact (Hline H)].
    revert H. destruct Hc as [-> | ->]; vm_compute; intuition discriminate.
Qed.

Lemma In_join (c : N) (sep : jsstring) (l : list jsstring) :
  In c (join sep l) -> In c sep \/ exists x, In x l /\ In c x.
Proof.
  induction l as [| x l IH]; [intros [] |].
  destruct l as [| y l].
  - cbn [join]. intros H. right. exists x. split; [left; reflexivity | exact H].
  - rewrite join_cons by discriminate. intros H.
    apply in_app_or in H. destruct H as [H | H].
    { right. exists x. split; [left; reflexivity | exact H]. }
    apply in_app_or in H. destruct H as [H | H]; [left; exact H |].
    destruct (IH H) as [Hs | (z & Hz & Hc)]; [left; exact Hs |].
    right. exists z. split; [right; exact Hz | exact Hc].
Qed.

Lemma In_split (c : N) (s : jsstring) (x : jsstring) :
  In x (split LF s) -> In c x -> In c s.
Proof.
  intros Hx Hc. rewrite <- (join_split s).
  clear - Hx Hc. induction (split LF s) as [| y l IH]; [destruct Hx |].
  destruct l as [| z l].
  - destruct Hx as [-> | []]. exact Hc.
  - rewrite join_cons by discriminate. destruct Hx as [-> | Hx].
    + apply in_or_app. left. exact Hc.
    + apply in_or_app. right. apply in_or_app. right. apply IH. exact Hx.
Qed.

(** X16. [optimizeForChatGPT] keeps the lines of the editor: as many
    lines come back, in the same order, and each one is the line that
    was there, as it is, between two pairs of asterisks, or after [> ].
    Nothing of the text is dropped. *)
Theorem optimizeForChatGPT_keeps_lines :
  forall w : World,
    noCR (editorValue w) ->
    Forall2 (fun before after =>
               after = before
               \/ after = lit "**" ++ before ++ lit "**"
               \/ after = lit "> " ++ before)
            (split LF (editorValue w))
            (split LF (editorValue (optimizeForChatGPT w))).
Proof.
  intros w Hcr. unfold optimizeForChatGPT.
  cbn [editorValue dispatchInput emit withEditorState setEditorValue].
  assert (Hlines : Forall (fun l => ~ In LF l) (map chatGPTLine (split LF (editorValue w)))).
  { pose proof (split_no_sep (editorValue w)) as Hall.
    induction Hall as [| l ls Hl _ IH]; constructor; [| exact IH].
    apply chatGPTLine_clean; [left; reflexivity | exact Hl]. }
  rewrite normalizeNewlines_noCR.
  - rewrite split_join; [| | exact Hlines].
    + clear. induction (split LF (editorValue w)) as [| l ls IH]; constructor;
        [apply chatGPTLine_cases | exact IH].
    + intros H. apply map_eq_nil in H. exact (split_not_nil LF _ H).
  - intros Hin. apply In_join in Hin. destruct Hin as [Hin | (x & Hx & Hin)].
    + destruct Hin as [H | []]. discriminate.
    + apply in_map_iff in Hx. destruct Hx as (line & <- & Hline).
      revert Hin. apply chatGPTLine_clean; [right; reflexivity |].
      intros Hc. apply Hcr. exact (In_split 13%N _ _ Hline Hc).
Qed.

Lemma optimizeForChatGPT_keeps_lines_witness :
  noCR (editorValue (pageWith (lit "Q: why?" ++ [LF] ++ lit "tell me please")))
  /\ Forall2 (fun before after =>
                after = before
                \/ after = lit "**" ++ before ++ lit "**"
                \/ after = lit "> " ++ before)
             (split LF (editorValue
                          (pageWith (lit "Q: why?" ++ [LF] ++ lit "tell me please"))))
             (split LF (editorValue
                          (optimizeForChatGPT
                             (pageWith (lit "Q: why?" ++ [LF]
                                        ++ lit "tell me please"))))).
Proof.
  assert (H : noCR (editorValue (pageWith (lit "Q: why?" ++ [LF]
                                           ++ lit "tell me please")))).
  { unfold noCR. vm_compute. intuition discriminate. }
  split; [exact H |].
  exact (optimizeForChatGPT_keeps_lines _ H).
Defined.

(** *** The welcome text *)

Lemma welcomeText_shape (cfg : Config) :
  welcomeText cfg
  = welcomeHead ++ (ofNat (MAX_TEXT_LENGTH cfg) ++ lit " characters)") ++ welcomeTail.
Proof.
  unfold welcomeText, welcomeHead, welcomeTail.
  generalize (ofNat (MAX_TEXT_LENGTH cfg)). intros limit.
  vm_compute. reflexivity.
Qed.

Lemma trim_between (c d : N) (mid : jsstring) :
  isWhiteSpace c = false -> isWhiteSpace d = false ->
  trim (c :: mid ++ [d]) = c :: mid ++ [d].
Proof.
  intros Hc Hd. unfold trim, trimStart, trimEnd. cbn [dropWhile]. rewrite Hc.
  change (c :: mid ++ [d]) with ((c :: mid) ++ [d]).
  rewrite (rev_app_distr (c :: mid) [d]).
  change (rev [d] ++ rev (c :: mid)) with (d :: rev (c :: mid)).
  cbn [dropWhile]. rewrite Hd.
  change (d :: rev (c :: mid)) with ([d] ++ rev (c :: mid)).
  rewrite (rev_app_distr [d] (rev (c :: mid))), rev_involutive. reflexivity.
Qed.

Lemma welcomeText_trim (cfg : Config) : trim (welcomeText cfg) = welcomeText cfg.
Proof.
  rewrite welcomeText_shape.
  assert (Hhead : welcomeHead = 35%N :: tl welcomeHead) by (vm_compute; reflexivity).
  assert (Htail : welcomeTail = removelast welcomeTail ++ [42%N])
    by (vm_compute; reflexivity).
  rewrite Hhead, Htail.
  replace ((35%N :: tl welcomeHead)
           ++ (ofNat (MAX_TEXT_LENGTH cfg) ++ lit " characters)")
           ++ removelast welcomeTail ++ [42%N])
    with (35%N :: (tl welcomeHead
                   ++ (ofNat (MAX_TEXT_LENGTH cfg) ++ lit " characters)")
                   ++ removelast welcomeTail) ++ [42%N])
    by (cbn [app]; rewrite <- !app_assoc; reflexivity).
  apply trim_between; reflexivity.
Qed.

Lemma welcomeText_phrase (cfg : Config) :
  includes welcomePhrase (welcomeText cfg) = true.
Proof.
  rewrite welcomeText_shape. apply includes_app_l. vm_compute. reflexivity.
Qed.

Lemma welcomeText_length (cfg : Config) :
  List.length (welcomeText cfg)
  = (1218 + List.length (ofNat (MAX_TEXT_LENGTH cfg)))%nat.
Proof.
  rewrite welcomeText_shape, !length_app.
  replace (List.length welcomeHead) with 636%nat by (vm_compute; reflexivity).
  replace (List.length welcomeTail) with 570%nat by (vm_compute; reflexivity).
  replace (List.length (lit " characters)")) with 12%nat by (vm_compute; reflexivity).
  lia.
Qed.

(** X17. The page cannot process its own welcome text: for every limit
    up to 1218 the text that the editor starts with is longer than
    [MAX_TEXT_LENGTH] (it has 1218 code units and the digits of the
    limit), so that [processWithAI] refuses it as too long, without a
    request.  The shipped limit is 1000. *)
Theorem welcome_text_is_refused :
  forall (cfg : Config) (element : ElementArg) (format : jsstring)
         (customPrompt : option jsstring) (script : list Reply) (w : World),
    (MAX_TEXT_LENGTH cfg <= 1218)%nat ->
    editorValue w = welcomeText cfg ->
    run script (processWithAI cfg element format customPrompt) w
    = (Finished (Normal tt),
       showNotification (tooLongMessage cfg (List.length (welcomeText cfg))) Warning w,
       script).
Proof.
  intros cfg element format customPrompt script w Hmax Hvalue.
  assert (Htrim : trim (editorValue w) = welcomeText cfg)
    by (rewrite Hvalue; apply welcomeText_trim).
  assert (Hlong : (MAX_TEXT_LENGTH cfg < List.length (trim (editorValue w)))%nat).
  { rewrite Htrim, welcomeText_length.
    pose proof (ofNat_not_nil (MAX_TEXT_LENGTH cfg)) as Hne.
    destruct (ofNat (MAX_TEXT_LENGTH cfg)); [congruence | cbn [List.length]; lia]. }
  destruct (invalid_text_returns cfg element format customPrompt script w
                                 (or_intror Hlong)) as (Hrun & _).
  rewrite Hrun, Htrim.
  destruct (welcomeText cfg) as [| c t] eqn:E; [| reflexivity].
  rewrite Htrim in Hlong. cbn in Hlong. lia.
Qed.

Lemma welcome_text_is_refused_witness :
  (MAX_TEXT_LENGTH CONFIG <= 1218)%nat
  /\ editorValue (pageWith (welcomeText CONFIG)) = welcomeText CONFIG
  /\ run [okReply (lit "unused")] (processWithAI CONFIG ElementNode (lit "readme") None)
         (pageWith (welcomeText CONFIG))
     = (Finished (Normal tt),
        showNotification (tooLongMessage CONFIG (List.length (welcomeText CONFIG)))
                         Warning (pageWith (welcomeText CONFIG)),
        [okReply (lit "unused")]).
Proof.
  assert (H1 : (MAX_TEXT_LENGTH CONFIG <= 1218)%nat) by (cbn; lia).
  assert (H2 : editorValue (pageWith (welcomeText CONFIG)) = welcomeText CONFIG)
    by reflexivity.
  split; [exact H1 |]. split; [exact H2 |].
  exact (welcome_text_is_refused CONFIG ElementNode (lit "readme") None
                                 [okReply (lit "unused")]
                                 (pageWith (welcomeText CONFIG)) H1 H2).
Defined.

(** *** Clearing the editor *)

Lemma default_is_no_user_text (cfg : Config) (w : World) (current : jsstring) :
  truthy current = true ->
  includes welcomePhrase current = false ->
  JS.eqb current (trim (getDefaultContent cfg w)) || includes welcomePhrase current
  = false.
Proof.
  intros Hne Hphrase. rewrite Hphrase, orb_false_r.
  destruct (JS.eqb current (trim (getDefaultContent cfg w))) eqn:E; [| reflexivity].
  apply eqb_eq in E. unfold getDefaultContent in E.
  destruct (checked (enablePrefilledBox w)).
  - rewrite welcomeText_trim in E. rewrite E, welcomeText_phrase in Hphrase.
    discriminate.
  - rewrite E in Hne. discriminate.
Qed.

(** X18. Text of the user is never cleared without their consent: when
    the editor holds something that is not blank and does not mention
    [Welcome to MarkdownGPT], and the user declines every question,
    neither [clearEditor] nor [clearPrefilled] nor the box of the
    prefilled text, checked or unchecked, changes the editor. *)
Theorem user_text_is_cleared_only_on_consent :
  forall (cfg : Config) (w : World) (checkedNow : bool),
    truthy (trim (editorValue w)) = true ->
    includes welcomePhrase (trim (editorValue w)) = false ->
    clearEditor cfg declines w = w
    /\ clearPrefilled cfg declines w = w
    /\ editorValue (prefilledChanged cfg checkedNow w) = editorValue w
    /\ content (editorState (prefilledChanged cfg checkedNow w))
       = content (editorState w).
Proof.
  intros cfg w checkedNow Hne Hphrase.
  split; [reflexivity |]. split.
  - unfold clearPrefilled.
    rewrite (default_is_no_user_text cfg w _ Hne Hphrase). reflexivity.
  - unfold prefilledChanged.
    set (w1 := setPrefilledBox (Some checkedNow) w).
    change (editorValue w1) with (editorValue w).
    destruct checkedNow; cbn [negb].
    + rewrite Hne. cbn [negb]. split; reflexivity.
    + rewrite (default_is_no_user_text cfg w1 _ Hne Hphrase). split; reflexivity.
Qed.

Lemma user_text_is_cleared_only_on_consent_witness :
  truthy (trim (editorValue (pageWith (lit "my notes")))) = true
  /\ includes welcomePhrase (trim (editorValue (pageWith (lit "my notes")))) = false
  /\ clearPrefilled CONFIG declines (pageWith (lit "my notes")) = pageWith (lit "my notes")
  /\ editorValue (prefilledChanged CONFIG false (pageWith (lit "my notes")))
     = lit "my notes".
Proof.
  assert (H1 : truthy (trim (editorValue (pageWith (lit "my notes")))) = true)
    by (vm_compute; reflexivity).
  assert (H2 : includes welcomePhrase (trim (editorValue (pageWith (lit "my notes"))))
               = false) by (vm_compute; reflexivity).
  split; [exact H1 |]. split; [exact H2 |].
  destruct (user_text_is_cleared_only_on_consent CONFIG (pageWith (lit "my notes"))
                                                 false H1 H2)
    as (_ & Hclear & Hbox & _).
  split; [exact Hclear | exact Hbox].
Defined.

(** *** The paste listener *)

(** X19. Once the paste listener has run, the editor holds at most
    [MAX_TEXT_LENGTH] code units, whatever was pasted; a text within
    the limit is left alone.  The cut is notified, but no input event
    is dispatched for it: [editorState.content] keeps what it had. *)
Theorem afterPaste_truncates :
  forall (cfg : Config) (w : World),
    (List.length (editorValue (afterPaste cfg w)) <= MAX_TEXT_LENGTH cfg)%nat
    /\ editorValue (afterPaste cfg w)
       = (if (MAX_TEXT_LENGTH cfg <? List.length (editorValue w))%nat
          then normalizeNewlines (firstn (MAX_TEXT_LENGTH cfg) (editorValue w))
          else editorValue w)
    /\ trace (afterPaste cfg w)
       = trace w
         ++ (if (MAX_TEXT_LENGTH cfg <? List.length (editorValue w))%nat
             then [Notified (truncatedMessage cfg) Warning] else [])
    /\ editorState (afterPaste cfg w) = editorState w.
Proof.
  intros cfg w. unfold afterPaste.
  destruct (MAX_TEXT_LENGTH cfg <? List.length (editorValue w))%nat eqn:E.
  - cbn [editorValue trace editorState showNotification emit setEditorValue].
    unfold substring0. repeat split.
    pose proof (normalizeNewlines_length _ (firstn (MAX_TEXT_LENGTH cfg) (editorValue w))
                                         (Nat.le_refl _)) as H.
    rewrite length_firstn in H. lia.
  - apply Nat.ltb_ge in E. rewrite app_nil_r. repeat split. exact E.
Qed.

(** *** [insertFormat] *)

Lemma substring_caret (p : nat) (s : jsstring) : substring p p s = [].
Proof.
  unfold substring. rewrite Nat.max_id, Nat.min_id, Nat.sub_diag. reflexivity.
Qed.

Lemma substring_ordered (a b : nat) (s : jsstring) :
  (a <= b <= List.length s)%nat -> substring a b s = firstn (b - a) (skipn a s).
Proof.
  intros H. unfold substring.
  rewrite (Nat.min_l a), (Nat.min_l b), Nat.max_r, Nat.min_l by lia. reflexivity.
Qed.

(** X20. [insertFormat] never pushes the editor over the limit: for a
    selection inside the text, either the editor holds at most
    [MAX_TEXT_LENGTH] code units afterwards, or the insertion is refused
    with a warning and editor and selection are as they were. *)
Theorem insertFormat_respects_the_limit :
  forall (cfg : Config) (before after placeholder : jsstring)
         (sel : Selection) (w : World),
    (selectionStart sel <= selectionEnd sel <= List.length (editorValue w))%nat ->
    (List.length (editorValue (snd (insertFormat cfg before after placeholder sel w)))
     <= MAX_TEXT_LENGTH cfg)%nat
    \/ insertFormat cfg before after placeholder sel w
       = (sel, showNotification exceedMessage Warning w).
Proof.
  intros cfg before after placeholder sel w Hsel. unfold insertFormat. cbv zeta.
  match goal with
  | |- context [Z.ltb ?a ?b] => destruct (Z.ltb a b) eqn:E
  end; [right; reflexivity | left].
  apply Z.ltb_ge in E.
  cbn [snd editorValue dispatchInput emit withEditorState setEditorValue].
  rewrite (substring_ordered 0 (selectionStart sel)) by lia.
  unfold substringFrom. cbn [skipn].
  match goal with
  | |- (List.length (normalizeNewlines ?v) <= _)%nat =>
      pose proof (normalizeNewlines_length _ v (Nat.le_refl _)) as H
  end.
  rewrite !length_app, length_firstn, length_skipn in H.
  rewrite !length_app in E. lia.
Qed.

Lemma insertFormat_respects_the_limit_witness :
  (selectionStart {| selectionStart := 0; selectionEnd := 5 |}
   <= selectionEnd {| selectionStart := 0; selectionEnd := 5 |}
   <= List.length (editorValue (pageWith (lit "Hello world"))))%nat
  /\ ((List.length
         (editorValue
            (snd (insertFormat CONFIG (lit "**") (lit "**") (lit "bold text")
                               {| selectionStart := 0; selectionEnd := 5 |}
                               (pageWith (lit "Hello world")))))
       <= MAX_TEXT_LENGTH CONFIG)%nat
      \/ insertFormat CONFIG (lit "**") (lit "**") (lit "bold text")
                      {| selectionStart := 0; selectionEnd := 5 |}
                      (pageWith (lit "Hello world"))
         = ({| selectionStart := 0; selectionEnd := 5 |},
            showNotification exceedMessage Warning (pageWith (lit "Hello world")))).
Proof.
  assert (H : (selectionStart {| selectionStart := 0; selectionEnd := 5 |}
               <= selectionEnd {| selectionStart := 0; selectionEnd := 5 |}
               <= List.length (editorValue (pageWith (lit "Hello world"))))%nat).
  { vm_compute. split; repeat constructor. }
  split; [exact H |].
  exact (insertFormat_respects_the_limit CONFIG (lit "**") (lit "**") (lit "bold text")
                                         {| selectionStart := 0; selectionEnd := 5 |}
                                         (pageWith (lit "Hello world")) H).
Defined.

(** X21. With nothing selected, [insertFormat] puts the two markers
    with the placeholder between them at the caret, and selects the
    placeholder, so that typing replaces it; the input event brings
    [editorState.content] up to date. *)
Theorem insertFormat_selects_the_placeholder :
  forall (cfg : Config) (before after placeholder : jsstring)
         (caret : nat) (w : World),
    (caret <= List.length (editorValue w))%nat ->
    (List.length (editorValue w) + List.length before + List.length placeholder
     + List.length after <= MAX_TEXT_LENGTH cfg)%nat ->
    noCR (editorValue w) -> noCR before -> noCR placeholder -> noCR after ->
    let result := insertFormat cfg before after placeholder
                               {| selectionStart := caret; selectionEnd := caret |} w in
    editorValue (snd result)
    = firstn caret (editorValue w) ++ before ++ placeholder ++ after
      ++ skipn caret (editorValue w)
    /\ substring (selectionStart (fst result)) (selectionEnd (fst result))
                 (editorValue (snd result))
       = placeholder
    /\ content (editorState (snd result)) = editorValue (snd result).
Proof.
  intros cfg before after placeholder caret w Hcaret Hfits Hv Hb Hp Ha result.
  subst result. unfold insertFormat. cbv zeta. cbn [selectionStart selectionEnd].
  rewrite substring_caret. cbn [truthy negb].
  assert (Htest : (Z.of_nat (MAX_TEXT_LENGTH cfg)
                   <? Z.of_nat (List.length (editorValue w))
                      - (Z.of_nat caret - Z.of_nat caret)
                      + Z.of_nat (List.length (before ++ placeholder ++ after)))%Z
                  = false).
  { apply Z.ltb_ge. rewrite !length_app. lia. }
  rewrite Htest.
  assert (Hsub : substring 0 caret (editorValue w) = firstn caret (editorValue w)).
  { rewrite substring_ordered by lia. rewrite Nat.sub_0_r. reflexivity. }
  rewrite Hsub. unfold substringFrom.
  set (value := firstn caret (editorValue w) ++ (before ++ placeholder ++ after)
                ++ skipn caret (editorValue w)).
  assert (Hnorm : normalizeNewlines value = value).
  { apply normalizeNewlines_noCR. subst value. rewrite !noCR_app.
    unfold noCR in *. repeat split; try assumption.
    - intros H. apply Hv. exact (In_firstn _ _ _ H).
    - intros H. apply Hv. exact (In_skipn _ _ _ H). }
  cbn [fst snd editorValue editorState dispatchInput emit withEditorState
       setEditorValue setContent content].
  rewrite Hnorm.
  assert (Hlen : List.length (firstn caret (editorValue w)) = caret)
    by (rewrite length_firstn; lia).
  split.
  { subst value. rewrite <- !app_assoc. reflexivity. }
  split; [| reflexivity].
  unfold setSelectionRange. cbn [selectionStart selectionEnd].
  assert (Hvalue : (caret + List.length before + List.length placeholder
                    <= List.length value)%nat).
  { subst value. rewrite !length_app, Hlen. lia. }
  rewrite substring_ordered.
  2:{ split; [apply Nat.le_min_r | apply Nat.le_min_r]. }
  rewrite !Nat.min_l by lia.
  replace (caret + List.length before + List.length placeholder
           - (caret + List.length before))%nat
    with (List.length placeholder) by lia.
  subst value.
  replace (caret + List.length before)%nat
    with (List.length (firstn caret (editorValue w) ++ before))
    by (rewrite length_app, Hlen; reflexivity).
  replace (firstn caret (editorValue w) ++ (before ++ placeholder ++ after)
           ++ skipn caret (editorValue w))
    with ((firstn caret (editorValue w) ++ before)
          ++ placeholder ++ after ++ skipn caret (editorValue w))
    by (rewrite <- !app_assoc; reflexivity).
  rewrite skipn_app, skipn_all, Nat.sub_diag. cbn [skipn app].
  rewrite firstn_app, firstn_all, Nat.sub_diag. cbn [firstn]. apply app_nil_r.
Qed.

Lemma insertFormat_selects_the_placeholder_witness :
  (3 <= List.length (editorValue (pageWith (lit "abcdef"))))%nat
  /\ (List.length (editorValue (pageWith (lit "abcdef"))) + List.length (lit "**")
      + List.length (lit "bold text") + List.length (lit "**")
      <= MAX_TEXT_LENGTH CONFIG)%nat
  /\ noCR (editorValue (pageWith (lit "abcdef")))
  /\ noCR (lit "**") /\ noCR (lit "bold text")
  /\ editorValue
       (snd (insertFormat CONFIG (lit "**") (lit "**") (lit "bold text")
                          {| selectionStart := 3; selectionEnd := 3 |}
                          (pageWith (lit "abcdef"))))
     = lit "abc**bold text**def"
  /\ fst (insertFormat CONFIG (lit "**") (lit "**") (lit "bold text")
                       {| selectionStart := 3; selectionEnd := 3 |}
                       (pageWith (lit "abcdef")))
     = {| selectionStart := 5; selectionEnd := 14 |}.
Proof.
  assert (H1 : (3 <= List.length (editorValue (pageWith (lit "abcdef"))))%nat)
    by (vm_compute; repeat constructor).
  assert (H2 : (List.length (editorValue (pageWith (lit "abcdef")))
                + List.length (lit "**") + List.length (lit "bold text")
                + List.length (lit "**") <= MAX_TEXT_LENGTH CONFIG)%nat)
    by (apply Nat.leb_le; vm_compute; reflexivity).
  assert (H3 : noCR (editorValue (pageWith (lit "abcdef"))))
    by (unfold noCR; vm_compute; intuition discriminate).
  assert (H4 : noCR (lit "**")) by (unfold noCR; vm_compute; intuition discriminate).
  assert (H5 : noCR (lit "bold text"))
    by (unfold noCR; vm_compute; intuition discriminate).
  split; [exact H1 |]. split; [exact H2 |]. split; [exact H3 |].
  split; [exact H4 |]. split; [exact H5 |].
  destruct (insertFormat_selects_the_placeholder
              CONFIG (lit "**") (lit "**") (lit "bold text") 3
              (pageWith (lit "abcdef")) H1 H2 H3 H4 H5 H4) as (Hvalue & _ & _).
  split; [rewrite Hvalue; vm_compute; reflexivity | vm_compute; reflexivity].
Defined.

(** *** Copying to the clipboard *)

(** X22. Whatever the clipboard does, [copyToClipboard] shows exactly
    one notification and leaves the editor alone: a warning exactly
    when the editor is blank, and then no copy is tried; the success
    message when one of the two ways of copying has worked; an error,
    with the failure of the fallback in the error log, when none has. *)
Theorem copyToClipboard_notifies_once :
  forall (env : Clipboard) (w : World),
  exists (message : jsstring) (type : Severity),
    trace (copyToClipboard env w) = trace w ++ [Notified message type]
    /\ editorValue (copyToClipboard env w) = editorValue w
    /\ (type = Warning <-> trim (editorValue w) = [])
    /\ (type = Success -> message = copiedMessage)
    /\ (type = Error ->
        option_map info_message (lastError (editorState (copyToClipboard env w)))
        = Some (lit "Fallback copy failed")).
Proof.
  intros env w.
  assert (Hfallback : forall w0,
             trace w0 = trace w -> editorValue w0 = editorValue w ->
             exists (message : jsstring) (type : Severity),
               trace (fallbackCopyToClipboard env (editorValue w) w0)
               = trace w ++ [Notified message type]
               /\ editorValue (fallbackCopyToClipboard env (editorValue w) w0)
                  = editorValue w
               /\ type <> Warning
               /\ (type = Success -> message = copiedMessage)
               /\ (type = Error ->
                   option_map info_message
                              (lastError (editorState
                                            (fallbackCopyToClipboard env (editorValue w) w0)))
                   = Some (lit "Fallback copy failed"))).
  { intros w0 Ht Hv. unfold fallbackCopyToClipboard.
    destruct (execCommandCopy env (editorValue w)) as [[|] | e].
    - exists copiedMessage, Success. cbn. rewrite Ht, Hv.
      repeat split; try discriminate.
    - exists copyFailedMessage, Error. cbn. rewrite Ht, Hv.
      repeat split; try discriminate.
    - exists copyFailedMessage, Error. cbn. rewrite Ht, Hv.
      repeat split; try discriminate. }
  unfold copyToClipboard.
  destruct (trim (editorValue w)) as [| c t] eqn:E; cbn [truthy negb].
  - exists nothingToCopyMessage, Warning. cbn.
    repeat split; try discriminate.
  - assert (Hnot : forall type : Severity,
               type <> Warning -> (type = Warning <-> c :: t = [])).
    { intros type H. split; [intros G; congruence | discriminate]. }
    destruct (writeText env) as [write |].
    + destruct (write (editorValue w)) as [[] | e].
      * exists copiedMessage, Success. cbn.
        repeat split; try discriminate.
      * destruct (Hfallback (logError (lit "Clipboard API failed") (Some e) [] w)
                            eq_refl eq_refl)
          as (m & ty & H1 & H2 & H3 & H4 & H5).
        exists m, ty. repeat split; try assumption; try (apply (Hnot ty H3)).
    + destruct (Hfallback w eq_refl eq_refl) as (m & ty & H1 & H2 & H3 & H4 & H5).
      exists m, ty. repeat split; try assumption; try (apply (Hnot ty H3)).
Qed.

(** *** [applyFormat] and the templates *)




(** The format [Med-Article] has a prompt of its own and no template. *)
Example med_article_has_no_template :
  templateOf (lit "Med-Article") = None
  /\ choosePrompt None (lit "Med-Article")
     <> lit "Improve the formatting and structure of this text.".
Proof. split; [reflexivity | vm_compute; discriminate]. Qed.

(** *** Icons and dashes *)

Lemma plainText_closed (s : jsstring) : forallb plainUnit s = true -> plainText s.
Proof. intros H. apply Forall_forall. apply forallb_forall. exact H. Qed.

(** What a global replacement emits: the code units it does not
    replace, and the replacement texts. *)
Lemma replaceAllFrom_Forall (m : matcher) (P0 P : N -> Prop) :
  (forall u len rep, Forall P0 u -> m u = Some (len, rep) -> Forall P rep) ->
  (forall c t, Forall P0 (c :: t) -> m (c :: t) = None -> P c) ->
  forall (s : jsstring) (k : nat), Forall P0 s -> Forall P (replaceAllFrom m s k).
Proof.
  intros Hsome Hnone. induction s as [| c s IH]; intros k Hs; [constructor |].
  inversion Hs as [| ? ? Hc Hrest]; subst.
  destruct k as [| k]; cbn [replaceAllFrom]; [| apply IH; exact Hrest].
  destruct (m (c :: s)) as [[len rep] |] eqn:E.
  - apply Forall_app. split; [exact (Hsome _ _ _ Hs E) | apply IH; exact Hrest].
  - constructor; [exact (Hnone _ _ Hs E) | apply IH; exact Hrest].
Qed.

Lemma surrogate_is_no_icon (c : N) : Re.isHighSurrogate c = true -> Re.isIcon c = false.
Proof.
  unfold Re.isHighSurrogate, Re.isIcon. intros H.
  apply andb_true_iff in H. destruct H as [H1 H2].
  apply N.leb_le in H1. apply N.leb_le in H2.
  repeat match goal with
         | |- context [(?a <=? ?b)%N] =>
             destruct (N.leb_spec a b)
         end; try reflexivity; lia.
Qed.

Lemma icons_removed (s : jsstring) :
  Forall (fun c => Re.isIcon c = false) (replaceAll Re.icons s).
Proof.
  unfold replaceAll.
  apply (replaceAllFrom_Forall Re.icons (fun _ => True)); [| | apply Forall_forall; auto].
  - intros u len rep _ H. unfold Re.icons in H.
    destruct u as [| hi [| lo u]]; [discriminate | |].
    + destruct (Re.isIcon hi); [injection H as _ <-; constructor | discriminate].
    + destruct (Re.isHighSurrogate hi && Re.isLowSurrogate lo).
      * destruct (Re.isIcon (Re.codePoint hi lo));
          [injection H as _ <-; constructor | discriminate].
      * destruct (Re.isIcon hi); [injection H as _ <-; constructor | discriminate].
  - intros c t _ H. unfold Re.icons in H.
    destruct t as [| lo t].
    + destruct (Re.isIcon c); [discriminate | reflexivity].
    + destruct (Re.isHighSurrogate c && Re.isLowSurrogate lo) eqn:E.
      * apply andb_true_iff in E. destruct E as [E _].
        apply surrogate_is_no_icon. exact E.
      * destruct (Re.isIcon c); [discriminate | reflexivity].
Qed.

Lemma dashes_replaced (s : jsstring) :
  Forall (fun c => Re.isIcon c = false) s -> plainText (replaceAll Re.dashes s).
Proof.
  unfold replaceAll, plainText.
  apply (replaceAllFrom_Forall Re.dashes).
  - intros u len rep _ H. unfold Re.dashes in H.
    destruct u as [| c u]; [discriminate |].
    destruct ((c =? 8212) || (c =? 8211))%N; [| discriminate].
    injection H as _ <-. repeat constructor.
  - intros c t Hs H. unfold Re.dashes in H. inversion Hs as [| ? ? Hc _]; subst.
    unfold plainUnit. rewrite Hc.
    destruct ((c =? 8212) || (c =? 8211))%N; [discriminate | reflexivity].
Qed.

(** A replacement whose texts are plain keeps a plain text plain. *)
Lemma replaceAll_plain (m : matcher) (s : jsstring) :
  (forall u len rep, plainText u -> m u = Some (len, rep) -> plainText rep) ->
  plainText s -> plainText (replaceAll m s).
Proof.
  intros Hm Hs. unfold replaceAll, plainText.
  apply (replaceAllFrom_Forall m (fun c => plainUnit c = true)); [exact Hm | | exact Hs].
  intros c t H _. inversion H. assumption.
Qed.

Lemma newlines3_plain (u : jsstring) (len : nat) (rep : jsstring) :
  plainText u -> Re.newlines3 u = Some (len, rep) -> plainText rep.
Proof.
  intros _ H. unfold Re.newlines3 in H.
  destruct (3 <=? List.length (takeWhile (N.eqb LF) u))%nat; [| discriminate].
  injection H as _ <-. repeat constructor.
Qed.

Lemma In_dropWhile (p : N -> bool) (x : N) (s : jsstring) :
  In x (dropWhile p s) -> In x s.
Proof.
  induction s as [| c s IH]; [tauto |].
  cbn [dropWhile]. destruct (p c); [intros H; right; exact (IH H) | tauto].
Qed.

Lemma sentenceGap_plain (u : jsstring) (len : nat) (rep : jsstring) :
  plainText u -> Re.sentenceGap u = Some (len, rep) -> plainText rep.
Proof.
  intros Hu H. unfold Re.sentenceGap in H.
  destruct u as [| c t]; [discriminate |].
  destruct (Re.isSentenceEnd c); [| discriminate].
  destruct (dropWhile isWhiteSpace t) as [| x rest] eqn:E; [discriminate |].
  destruct (Re.isUpperAZ x); [| discriminate].
  injection H as _ <-.
  unfold plainText in *. rewrite Forall_forall in Hu.
  repeat constructor.
  - apply Hu. left. reflexivity.
  - apply Hu. right. apply (In_dropWhile isWhiteSpace). rewrite E. left. reflexivity.
Qed.

Lemma bareFence_plain (u : jsstring) (len : nat) (rep : jsstring) :
  plainText u -> Re.bareFence u = Some (len, rep) -> plainText rep.
Proof.
  intros _ H. unfold Re.bareFence in H.
  destruct (startsWith (lit "```") u); [| discriminate].
  destruct (Re.lastLF (takeWhile isWhiteSpace (skipn 3 u)) 0 None); [| discriminate].
  injection H as _ <-. apply plainText_closed. reflexivity.
Qed.

Lemma plainText_join (sep : jsstring) (l : list jsstring) :
  plainText sep -> Forall plainText l -> plainText (join sep l).
Proof.
  intros Hsep Hl. unfold plainText in *. apply Forall_forall. intros c Hc.
  apply In_join in Hc. destruct Hc as [Hc | (x & Hx & Hc)].
  - rewrite Forall_forall in Hsep. exact (Hsep c Hc).
  - rewrite Forall_forall in Hl. specialize (Hl x Hx).
    rewrite Forall_forall in Hl. exact (Hl c Hc).
Qed.

Lemma plainText_split (s : jsstring) : plainText s -> Forall plainText (split LF s).
Proof.
  intros Hs. apply Forall_forall. intros x Hx. apply Forall_forall. intros c Hc.
  unfold plainText in Hs. rewrite Forall_forall in Hs.
  exact (Hs c (In_split c s x Hx Hc)).
Qed.

Lemma plainText_digits (n : nat) : plainText (ofNat n).
Proof.
  eapply Forall_impl; [| apply ofNat_digits].
  intros c Hc. unfold Re.isDigit in Hc. apply andb_true_iff in Hc.
  destruct Hc as [H1 H2]. apply N.leb_le in H1. apply N.leb_le in H2.
  unfold plainUnit, Re.isIcon.
  repeat match goal with
         | |- context [(?a <=? ?b)%N] => destruct (N.leb_spec a b)
         | |- context [(?a =? ?b)%N] => destruct (N.eqb_spec a b)
         end; try reflexivity; lia.
Qed.

(** The tweets are made of the code units of the lines, of line feeds
    and of full stops. *)
Lemma tweetStep_plain (st : list jsstring * jsstring) (line : jsstring) :
  Forall plainText (fst st) -> plainText (snd st) -> plainText line ->
  Forall plainText (fst (tweetStep st line)) /\ plainText (snd (tweetStep st line)).
Proof.
  destruct st as [tweets currentTweet]. cbn [fst snd]. intros Ht Hc Hl.
  assert (Hlf : plainText [LF]) by (apply plainText_closed; reflexivity).
  unfold tweetStep.
  destruct (List.length (currentTweet ++ [LF] ++ line) <=? 280)%nat; cbn [fst snd].
  - split; [exact Ht |]. unfold plainText in *.
    destruct (truthy currentTweet); rewrite !Forall_app; auto.
  - split.
    + destruct (truthy currentTweet); [| exact Ht].
      apply Forall_app. split; [exact Ht | constructor; [exact Hc | constructor]].
    + destruct (List.length line <=? 280)%nat; [exact Hl |].
      unfold plainText in *. apply Forall_app. split.
      * unfold substring0. apply Forall_forall. intros c Hin.
        rewrite Forall_forall in Hl. exact (Hl c (In_firstn _ _ _ Hin)).
      * apply plainText_closed. reflexivity.
Qed.

Lemma segmentTweets_plain (lines : list jsstring) :
  Forall plainText lines -> Forall plainText (segmentTweets lines).
Proof.
  intros Hlines. unfold segmentTweets.
  assert (H : forall st,
             Forall plainText (fst st) -> plainText (snd st) ->
             Forall plainText (fst (fold_left tweetStep lines st))
             /\ plainText (snd (fold_left tweetStep lines st))).
  { induction Hlines as [| line lines Hl _ IH]; intros st H1 H2; [split; assumption |].
    cbn [fold_left]. destruct (tweetStep_plain st line H1 H2 Hl) as [H3 H4].
    apply IH; assumption. }
  destruct (H ([], []) (Forall_nil _) (Forall_nil _)) as [H1 H2].
  destruct (fold_left tweetStep lines ([], [])) as [tweets currentTweet].
  cbn [fst snd] in *. destruct (truthy currentTweet); [| exact H1].
  apply Forall_app. split; [exact H1 | constructor; [exact H2 | constructor]].
Qed.

Lemma numberFrom_plain (total : nat) (tweets : list jsstring) :
  Forall plainText tweets ->
  forall index : nat, Forall plainText (numberFrom total index tweets).
Proof.
  induction 1 as [| tweet tweets Ht _ IH]; intros index; [constructor |].
  cbn [numberFrom]. constructor; [| apply IH].
  destruct (1 <? total)%nat; [| exact Ht].
  unfold plainText in *. rewrite !Forall_app.
  repeat split; try apply plainText_digits; try exact Ht;
    apply plainText_closed; reflexivity.
Qed.

Lemma enrichTwitter_plain (s : jsstring) : plainText s -> plainText (enrichTwitterString s).
Proof.
  intros Hs. unfold enrichTwitterString, emittedTweets.
  apply plainText_join; [apply plainText_closed; reflexivity |].
  apply numberFrom_plain, segmentTweets_plain.
  pose proof (plainText_split s Hs) as H.
  rewrite Forall_forall in *. intros x Hx. apply H.
  apply filter_In in Hx. tauto.
Qed.

Lemma enrichLinkedIn_plain (s : jsstring) : plainText s -> plainText (enrichLinkedInString s).
Proof.
  intros Hs. unfold enrichLinkedInString.
  apply replaceAll_plain; [exact newlines3_plain |].
  destruct (negb (includes (lit "What do you think?") s)
            && negb (includes (lit "Share your thoughts") s)); [| exact Hs].
  unfold plainText in *. apply Forall_app. split; [exact Hs |].
  apply plainText_closed. reflexivity.
Qed.

Lemma enrichPeerlist_plain (s : jsstring) : plainText s -> plainText (enrichPeerlistString s).
Proof.
  intros Hs. unfold enrichPeerlistString.
  destruct (negb (includes (lit "Key takeaway") s)
            && negb (includes (lit "Lesson learned") s)); [| exact Hs].
  apply plainText_join; [apply plainText_closed; reflexivity |].
  pose proof (plainText_split s Hs) as Hlines.
  destruct (3 <? List.length (split LF s))%nat; [| exact Hlines].
  unfold spliceBeforeLast. rewrite !Forall_app. repeat split.
  - rewrite Forall_forall in *. intros x Hx. exact (Hlines x (In_firstn _ _ _ Hx)).
  - constructor; [apply plainText_closed; reflexivity | constructor].
  - rewrite Forall_forall in *. intros x Hx. exact (Hlines x (In_skipn _ _ _ Hx)).
Qed.

Lemma enrichDailyDev_plain (s : jsstring) : plainText s -> plainText (enrichDailyDevString s).
Proof.
  intros Hs. unfold enrichDailyDevString.
  set (body := if includes (lit "function") s || includes (lit "const") s
                  || includes (lit "code") s
               then replaceAll Re.bareFence s else s).
  assert (Hbody : plainText body).
  { subst body. destruct (includes (lit "function") s || includes (lit "const") s
                          || includes (lit "code") s); [| exact Hs].
    apply replaceAll_plain; [exact bareFence_plain | exact Hs]. }
  clearbody body.
  destruct (negb (includes (lit "Happy coding") body)
            && negb (includes (lit "developer") body)); [| exact Hbody].
  unfold plainText in *. apply Forall_app. split; [exact Hbody |].
  apply plainText_closed. reflexivity.
Qed.

Lemma enrichGeneric_plain (s : jsstring) : plainText s -> plainText (enrichGenericString s).
Proof.
  intros Hs. unfold enrichGenericString.
  apply replaceAll_plain; [exact newlines3_plain |].
  apply replaceAll_plain; [exact sentenceGap_plain | exact Hs].
Qed.

(** X29. With the icons disabled, the enriched text of every format
    holds neither an em dash nor an en dash nor a pictograph of the
    Basic Multilingual Plane (U+2600 to U+27BF), whatever the reply
    was: both are removed first, and no enrichment brings one in. *)
Theorem disabled_icons_leave_no_dash :
  forall (content format : jsstring) (settings : Settings) (w : World),
    isTrue (enableIcons settings) = false ->
    exists enriched : jsstring,
      enrichContent (VString content) format settings w = (Normal (VString enriched), w)
      /\ Forall (fun c => plainUnit c = true) enriched
      /\ ~ In 8212%N enriched /\ ~ In 8211%N enriched.
Proof.
  intros content format settings w Hicons.
  set (stripped := replaceAll Re.dashes (replaceAll Re.icons content)).
  assert (Hstripped : plainText stripped)
    by (apply dashes_replaced, icons_removed).
  assert (Hsteps : exists enriched,
             enrichSteps (VString content) format settings = Normal (VString enriched)
             /\ plainText enriched).
  { unfold enrichSteps, stripIcons. rewrite Hicons. cbn [negb receiver cbind].
    fold stripped.
    destruct (JS.eqb format (lit "twitter-post")).
    { eexists. split; [reflexivity | apply enrichTwitter_plain; exact Hstripped]. }
    destruct (JS.eqb format (lit "linkedin-post")).
    { eexists. split; [reflexivity | apply enrichLinkedIn_plain; exact Hstripped]. }
    destruct (JS.eqb format (lit "peerlist-article")).
    { eexists. split; [reflexivity | apply enrichPeerlist_plain; exact Hstripped]. }
    destruct (JS.eqb format (lit "dailydev-article")).
    { eexists. split; [reflexivity | apply enrichDailyDev_plain; exact Hstripped]. }
    eexists. split; [reflexivity | apply enrichGeneric_plain; exact Hstripped]. }
  destruct Hsteps as (enriched & Hsteps & Hplain).
  exists enriched.
  pose proof (enrichContent_cases (VString content) format settings w) as Hcases.
  rewrite Hsteps in Hcases.
  split; [exact Hcases |]. split; [exact Hplain |].
  unfold plainText in Hplain. rewrite Forall_forall in Hplain.
  split; intros Hin; specialize (Hplain _ Hin); discriminate.
Qed.

Lemma disabled_icons_leave_no_dash_witness :
  isTrue (enableIcons {| enableIcons := Some false; enablePrefilled := Some true |})
  = false
  /\ exists enriched : jsstring,
      enrichContent (VString (lit "wait " ++ [8212; 9728]%N ++ lit " done"))
                    (lit "readme")
                    {| enableIcons := Some false; enablePrefilled := Some true |}
                    (pageWith [])
      = (Normal (VString enriched), pageWith [])
      /\ Forall (fun c => plainUnit c = true) enriched
      /\ ~ In 8212%N enriched /\ ~ In 8211%N enriched.
Proof.
  assert (H : isTrue (enableIcons {| enableIcons := Some false;
                                     enablePrefilled := Some true |}) = false)
    by reflexivity.
  split; [exact H |].
  exact (disabled_icons_leave_no_dash (lit "wait " ++ [8212; 9728]%N ++ lit " done")
                                      (lit "readme") _ (pageWith []) H).
Defined.

(** The sign-off of Daily.dev is added after the icons were removed:
    its rocket, which the class of line 1341 matches, stays in the text
    with the icons disabled. *)
Example dailydev_rocket_with_icons_disabled :
  fst (enrichContent (VString (lit "Ship it"))
                     (lit "dailydev-article")
                     {| enableIcons := Some false; enablePrefilled := Some true |}
                     (pageWith []))
  = Normal (VString (lit "Ship it" ++ dailyDevSignoff))
  /\ Re.icons [55357; 56960]%N = Some (2%nat, []).
Proof. split; vm_compute; reflexivity. Qed.

(** ** [autoFormat] *)

(** The [try] block either throws, and has not touched the page, or has
    written the text of the reply and notified the success. *)
Lemma autoFormatReply_cases (reply : FetchResult) (w : World) :
  (exists e : JsError, autoFormatReply reply w = (Thrown e, w))
  \/ (exists response body,
         reply = Responded response
         /\ ok response = true
         /\ json response = Normal (JObject body)
         /\ truthyValue (b_success body) = true
         /\ autoFormatReply reply w
            = (Normal tt,
               showNotification autoFormatDoneMessage Success
                 (dispatchInput
                    (setEditorValue (toEditorValue (b_processedText body)) w)))).
Proof.
  unfold autoFormatReply, sbind, lift, effect.
  destruct reply as [e | response]; [left; eexists; reflexivity |].
  destruct (ok response) eqn:Hok; cbn [negb].
  - destruct (json response) as [[body | v] | e] eqn:Hjson;
      [| | left; eexists; reflexivity].
    + cbn [getProp].
      destruct (truthyValue (b_success body)) eqn:Hs.
      * right. exists response, body. repeat split; assumption.
      * left. eexists. reflexivity.
    + left. destruct v; cbn [getProp truthyValue]; eexists; reflexivity.
  - left. destruct (json response) as [[body | v] | e];
      [| destruct v |]; cbn [getProp]; eexists; reflexivity.
Qed.



(** X25. Once its request has settled, [autoFormat] always returns
    normally and has shown exactly one notification that is more than
    information, whatever the reply is.  It sends no second request.
    The editor changes on a success, and on a failure whose message
    mentions neither [Rate limit] nor [Authentication]: then the local
    formatter is run once, on the text of the editor. *)
Theorem autoFormat_settles_with_one_notification :
  forall (reply : FetchResult) (w : World),
  exists (w' : World) (message : jsstring) (type : Severity),
    autoFormatSettled reply w = (Normal tt, w')
    /\ terminal (trace w') = terminal (trace w) ++ [(message, type)]
    /\ requests (trace w') = requests (trace w)
    /\ isProcessing (editorState w') = isProcessing (editorState w)
    /\ (type = Success
        \/ (type = Warning /\ editorValue w' = editorValue w)
        \/ (type = Error
            /\ (editorValue w' = editorValue w
                \/ (editorValue w' = normalizeNewlines (localFormat (editorValue w))
                    /\ localFormatCalls (trace w')
                       = localFormatCalls (trace w) ++ [editorValue w])))).
Proof.
  intros reply w. unfold autoFormatSettled, tryCatch.
  destruct (autoFormatReply_cases reply w)
    as [[e ->] | (response & body & _ & _ & _ & _ & ->)].
  - unfold autoFormatFailed.
    destruct (includes (lit "Rate limit") (err_message e));
      [| destruct (includes (lit "Authentication") (err_message e))].
    + do 3 eexists. split; [reflexivity |].
      cbn [trace editorValue editorState showNotification emit].
      rewrite terminal_app, requests_app. cbn. rewrite app_nil_r.
      repeat split. right. left. split; reflexivity.
    + do 3 eexists. split; [reflexivity |].
      cbn [trace editorValue editorState showNotification emit].
      rewrite terminal_app, requests_app. cbn. rewrite app_nil_r.
      repeat split. right. right. split; [reflexivity | left; reflexivity].
    + do 3 eexists. split; [reflexivity |].
      cbn [trace editorValue editorState showNotification emit dispatchInput
           withEditorState setEditorValue isProcessing setContent].
      rewrite <- !app_assoc. rewrite !terminal_app, !requests_app, !localFormatCalls_app.
      cbn. rewrite !app_nil_r.
      repeat split. right. right. split; [reflexivity | right; split; reflexivity].
  - do 3 eexists. split; [reflexivity |].
    cbn [trace editorValue editorState showNotification emit dispatchInput
         withEditorState setEditorValue isProcessing setContent].
    rewrite <- !app_assoc. rewrite !terminal_app, !requests_app.
    cbn. rewrite !app_nil_r.
    repeat split. left. reflexivity.
Qed.

(** *** The format that [autoFormat] detects *)

Lemma toLowerCase_app (a b : jsstring) :
  toLowerCase (a ++ b) = toLowerCase a ++ toLowerCase b.
Proof. unfold toLowerCase. apply flat_map_app. Qed.

Lemma includes_toLowerCase (p s : jsstring) :
  toLowerCase p = p -> includes p s = true -> includes p (toLowerCase s) = true.
Proof.
  intros Hp H. apply includes_spec in H. destruct H as (a & b & ->).
  rewrite !toLowerCase_app, Hp. apply includes_spec.
  exists (toLowerCase a), (toLowerCase b). reflexivity.
Qed.

(** A word that starts with no white space is found in a text exactly
    when it is found after the white space in front of the text. *)
Lemma includes_trimStart (x : N) (k s : jsstring) :
  isWhiteSpace x = false ->
  includes (x :: k) (trimStart s) = includes (x :: k) s.
Proof.
  intros Hx. unfold trimStart. induction s as [| c s IH]; [reflexivity |].
  cbn [dropWhile]. destruct (isWhiteSpace c) eqn:Hc; [| reflexivity].
  rewrite IH, (includes_unfold (x :: k) (c :: s)). cbn [startsWith].
  destruct (N.eqb_spec x c) as [-> | _]; [congruence | reflexivity].
Qed.

Lemma includes_rev (p s : jsstring) : includes (rev p) (rev s) = includes p s.
Proof.
  assert (H : forall p s, includes p s = true -> includes (rev p) (rev s) = true).
  { intros p0 s0 H. apply includes_spec in H. destruct H as (a & b & ->).
    apply includes_spec. exists (rev b), (rev a).
    rewrite !rev_app_distr, <- app_assoc. reflexivity. }
  destruct (includes p s) eqn:E; [apply H; exact E |].
  destruct (includes (rev p) (rev s)) eqn:E'; [| reflexivity].
  apply H in E'. rewrite !rev_involutive in E'. congruence.
Qed.

Lemma includes_trimEnd (x : N) (k s : jsstring) :
  isWhiteSpace x = false ->
  includes (k ++ [x]) (trimEnd s) = includes (k ++ [x]) s.
Proof.
  intros Hx. unfold trimEnd.
  rewrite <- (includes_rev (k ++ [x]) (rev _)), rev_involutive.
  rewrite <- (includes_rev (k ++ [x]) s).
  rewrite rev_app_distr. cbn [rev app].
  apply (includes_trimStart x (rev k) (rev s) Hx).
Qed.

(** A word without white space at its two ends is found in the
    trimmed text exactly when it is found in the text. *)
Lemma includes_trim (x y : N) (k s : jsstring) :
  isWhiteSpace x = false -> isWhiteSpace y = false ->
  includes (x :: k ++ [y]) (trim s) = includes (x :: k ++ [y]) s.
Proof.
  intros Hx Hy. unfold trim.
  change (x :: k ++ [y]) with ((x :: k) ++ [y]).
  rewrite (includes_trimEnd y (x :: k) (trimStart s) Hy).
  apply (includes_trimStart x (k ++ [y]) s Hx).
Qed.

Ltac trimmed_word w :=
  match goal with
  | |- context [includes (lit w) (trim ?s)] =>
      replace (includes (lit w) (trim s)) with (includes (lit w) s)
        by (symmetry;
            let k := eval vm_compute in (removelast (tl (lit w))) in
            let x := eval vm_compute in (hd 0%N (lit w)) in
            let y := eval vm_compute in (last (lit w) 0%N) in
            exact (includes_trim x y k s eq_refl eq_refl))
  end.

(** X26. The format that [autoFormat] puts in its request agrees with
    the formatter that [autoFormatLocal] picks for the editor, although
    the one reads the trimmed text and the other the text as it is: a
    text that the local formatter treats as code is sent as a
    [dev-article], and one that it treats as a tutorial is sent as a
    [tutorial]. *)
Theorem detectFormat_agrees_with_local_formatter :
  forall (w : World) (payload : AutoPayload),
    autoFormatStart w = Sent payload ->
    (includes (lit "function") (editorValue w) || includes (lit "const") (editorValue w)
     || includes (lit "class") (editorValue w) = true ->
     ap_format payload = lit "dev-article"
     /\ localFormat (editorValue w) = formatAsCode (editorValue w))
    /\ (includes (lit "function") (editorValue w) || includes (lit "const") (editorValue w)
        || includes (lit "class") (editorValue w) = false ->
        includes (lit "step") (editorValue w)
        || includes (lit "tutorial") (editorValue w) = true ->
        ap_format payload = lit "tutorial"
        /\ localFormat (editorValue w) = formatAsTutorial (editorValue w)).
Proof.
  intros w payload Hstart. unfold autoFormatStart in Hstart.
  destruct (negb (truthy (trim (editorValue w)))); [discriminate |].
  destruct (1000 <? List.length (trim (editorValue w)))%nat; [discriminate |].
  injection Hstart as <-. cbn [ap_format].
  assert (Hstep : includes (lit "step") (editorValue w)
                  || includes (lit "tutorial") (editorValue w) = true ->
                  includes (lit "step") (toLowerCase (trim (editorValue w)))
                  || includes (lit "tutorial") (toLowerCase (trim (editorValue w))) = true).
  { intros H. apply orb_true_iff in H. apply orb_true_iff.
    destruct H as [H | H]; [left | right];
      (apply includes_toLowerCase; [reflexivity |]).
    - trimmed_word "step"%string. exact H.
    - trimmed_word "tutorial"%string. exact H. }
  unfold detectFormat, localFormat.
  trimmed_word "function"%string. trimmed_word "const"%string.
  trimmed_word "class"%string.
  split.
  - intros ->. split; reflexivity.
  - intros -> H. rewrite (Hstep H), H. split; reflexivity.
Qed.

Lemma detectFormat_agrees_with_local_formatter_witness :
  autoFormatStart (pageWith (lit " First step: install. "))
  = Sent {| ap_text := lit "First step: install.";
            ap_prompt := lit "Format this text for better readability and structure";
            ap_format := lit "tutorial";
            ap_sessionId := lit "anonymous" |}
  /\ localFormat (lit " First step: install. ")
     = formatAsTutorial (lit " First step: install. ").
Proof.
  assert (H : autoFormatStart (pageWith (lit " First step: install. "))
              = Sent {| ap_text := lit "First step: install.";
                        ap_prompt := lit "Format this text for better readability and structure";
                        ap_format := lit "tutorial";
                        ap_sessionId := lit "anonymous" |})
    by (vm_compute; reflexivity).
  split; [exact H |].
  exact (proj2 (proj2 (detectFormat_agrees_with_local_formatter _ _ H)
                      ltac:(vm_compute; reflexivity) ltac:(vm_compute; reflexivity))).
Defined.

(** The converse fails: a step written with a capital is sent as a
    tutorial and formatted locally as an article. *)
Example detectFormat_is_case_insensitive :
  detectFormat (lit "Step one") = lit "tutorial"
  /\ localFormat (lit "Step one") = formatAsArticle (lit "Step one")
  /\ formatAsArticle (lit "Step one") <> formatAsTutorial (lit "Step one").
Proof. repeat split. vm_compute. discriminate. Qed.
